(** * Media-collection editor and server-side reconciliation

    Shallow embedding of the gallery editor
    ([app/components/ImageUploader.tsx]) and of the submission handler
    ([action] in [app/routes/vehiculos.nuevo.tsx]).

    Conventions of the embedding:
    - JavaScript strings are [string]; one character stands for one code
      unit below 256.
    - JavaScript numbers that hold indices and row positions are [Z]
      (exact below 2^53); [NaN] is a separate constructor where the code
      can produce it.
    - A React state cell is a field of [EditorState]; a state setter is a
      function on that record.  Calls to browser services that only have
      an effect ([URL.revokeObjectURL]) are appended to a log.
    - Values that the browser invents ([crypto.randomUUID],
      [URL.createObjectURL]) are inputs of the handler that asks for them. *)

From Stdlib Require Import ZArith Lia Bool Ascii String List Permutation Sorted.
From stdpp Require Import base list strings pretty gmap.
Import ListNotations.

Local Open Scope Z_scope.
Local Open Scope string_scope.
Local Open Scope list_scope.

(** ** Data model *)

(** A browser [File]: only what distinguishes two files matters here. *)
Record File := mkFile {
  file_name : string;
  file_data : string
}.

(** A number that may be [NaN] (result of [parseInt]). *)
Inductive jsnum :=
| NaN
| Int (z : Z).

(** [ImageUploaderImage]: [id] is the database id for persisted images
    and the [storage_id] for new ones. *)
Record ImageUploaderImage := mkImage {
  img_id : string;
  img_storage_id : string;
  img_url : string;
  img_order_index : option jsnum;
  img_destacada : bool;
  img_isNew : bool;
  img_file : option File
}.

(** [ImageMetadata]: [id] and [url] are [undefined] for new images. *)
Record ImageMetadata := mkMeta {
  meta_id : option string;
  meta_storage_id : string;
  meta_order_index : Z;
  meta_isNew : bool;
  meta_destacada : bool;
  meta_url : option string
}.

(** An element of [imageIdsToDelete]. *)
Record DeleteEntry := mkDelete {
  del_id : string;
  del_storage_id : string
}.

(** [ImageUploaderChanges]; [filesToUpload] is a JavaScript [Map]. *)
Record ImageUploaderChanges := mkChanges {
  orderedImagesMetadata : list ImageMetadata;
  filesToUpload : gmap string File;
  imageIdsToDelete : list DeleteEntry
}.

(** An element of the [existingImages] prop. *)
Record ExistingImage := mkExisting {
  ex_id : string;
  ex_url : string;
  ex_storage_id : string;
  ex_order_index : string;
  ex_destacada : bool
}.

(** ** [parseInt(s, 10)] *)

Definition isWhiteSpace (c : ascii) : bool :=
  let n := nat_of_ascii c in
  ((9 <=? n) && (n <=? 13) || (n =? 32) || (n =? 160))%nat.

Definition digitValue (c : ascii) : option Z :=
  let n := nat_of_ascii c in
  if ((48 <=? n) && (n <=? 57))%nat then Some (Z.of_nat n - 48) else None.

Fixpoint skipWhiteSpace (s : string) : string :=
  match s with
  | String c rest => if isWhiteSpace c then skipWhiteSpace rest else s
  | EmptyString => s
  end.

(** Reads the longest prefix of decimal digits; [acc] is [None] until a
    digit has been seen. *)
Fixpoint readDigits (s : string) (acc : option Z) : option Z :=
  match s with
  | String c rest =>
      match digitValue c with
      | Some d => readDigits rest (Some (10 * default 0 acc + d))
      | None => acc
      end
  | EmptyString => acc
  end.

(** [parseInt(s, 10)]: white space is skipped, a sign is read, then the
    longest run of decimal digits; without a digit the result is [NaN].
    The result is the integer the digits denote, which is what the
    language returns whenever that integer is safe ([isSafeInteger]
    below); a larger one is rounded by the language. *)
Definition parseInt10 (s : string) : jsnum :=
  let s1 := skipWhiteSpace s in
  let '(sign, s2) :=
    match s1 with
    | String "-" rest => (-1, rest)
    | String "+" rest => (1, rest)
    | _ => (1, s1)
    end in
  match readDigits s2 None with
  | Some n => Int (sign * n)
  | None => NaN
  end.

(** [Number.MAX_SAFE_INTEGER], 2^53 - 1.  Up to it every integer is a
    number of the language, [parseInt] reads a digit string without
    rounding and [String] writes all digits; beyond it [parseInt] rounds
    and [String] shortens or switches to exponent notation.  Statements
    that depend on the digits read or written are made for integers in
    this range. *)
Definition MAX_SAFE_INTEGER : Z := 9007199254740991.

(** [Number.isSafeInteger] on integers. *)
Definition isSafeInteger (n : Z) : bool := (Z.abs n <=? MAX_SAFE_INTEGER)%Z.

(** ** The editor: [ImageUploader] *)

Module Editor.

Record EditorState := mkState {
  orderedImages : list ImageUploaderImage;
  imagesToDelete : list DeleteEntry;
  isInitialized : bool;
  revokedUrls : list string
}.

(** State of a freshly mounted component. *)
Definition initialState : EditorState :=
  {| orderedImages := []; imagesToDelete := [];
     isInitialized := false; revokedUrls := [] |}.

Definition setOrderedImages (f : list ImageUploaderImage -> list ImageUploaderImage)
    (st : EditorState) : EditorState :=
  {| orderedImages := f (orderedImages st);
     imagesToDelete := imagesToDelete st;
     isInitialized := isInitialized st;
     revokedUrls := revokedUrls st |}.

Definition setImagesToDelete (f : list DeleteEntry -> list DeleteEntry)
    (st : EditorState) : EditorState :=
  {| orderedImages := orderedImages st;
     imagesToDelete := f (imagesToDelete st);
     isInitialized := isInitialized st;
     revokedUrls := revokedUrls st |}.

Definition revokeObjectURL (url : string) (st : EditorState) : EditorState :=
  {| orderedImages := orderedImages st;
     imagesToDelete := imagesToDelete st;
     isInitialized := isInitialized st;
     revokedUrls := revokedUrls st ++ [url] |}.

Definition markInitialized (st : EditorState) : EditorState :=
  {| orderedImages := orderedImages st;
     imagesToDelete := imagesToDelete st;
     isInitialized := true;
     revokedUrls := revokedUrls st |}.

Definition setDestacada (b : bool) (img : ImageUploaderImage) : ImageUploaderImage :=
  {| img_id := img_id img; img_storage_id := img_storage_id img;
     img_url := img_url img; img_order_index := img_order_index img;
     img_destacada := b; img_isNew := img_isNew img; img_file := img_file img |}.

(** [arr[0].destacada = true], nothing when the array is empty. *)
Definition destacarPrimera (l : list ImageUploaderImage) : list ImageUploaderImage :=
  match l with
  | first :: rest => setDestacada true first :: rest
  | [] => []
  end.

(** *** Seeding (first [useEffect]) *)

(** The comparator [(a, b) => parseInt(a.order_index) - parseInt(b.order_index)]
    is positive exactly when both parse and the first is larger; a [NaN]
    difference counts as zero for [Array.prototype.sort]. *)
Definition comparePositive (a b : ExistingImage) : bool :=
  match parseInt10 (ex_order_index a), parseInt10 (ex_order_index b) with
  | Int x, Int y => (y <? x)%Z
  | _, _ => false
  end.

(** [Array.prototype.sort] is stable: an element goes in front of the
    first later element that does not compare below it.  With an order
    index that does not parse the comparator is not consistent and the
    language leaves the resulting order open; statements about the order
    are made for indices that parse. *)
Fixpoint sortInsert (a : ExistingImage) (l : list ExistingImage) : list ExistingImage :=
  match l with
  | b :: rest => if comparePositive a b then b :: sortInsert a rest else a :: l
  | [] => [a]
  end.

Definition sortByOrderIndex (l : list ExistingImage) : list ExistingImage :=
  fold_right sortInsert [] l.

Definition loadExisting (e : ExistingImage) : ImageUploaderImage :=
  {| img_id := ex_id e; img_storage_id := ex_storage_id e; img_url := ex_url e;
     img_order_index := Some (parseInt10 (ex_order_index e));
     img_destacada := ex_destacada e; img_isNew := false; img_file := None |}.

(** Reading of a persisted order index, for statements about order. *)
Definition orderKey (e : ExistingImage) : Z :=
  match parseInt10 (ex_order_index e) with
  | Int z => z
  | NaN => 0
  end.

Definition parses (e : ExistingImage) : Prop :=
  parseInt10 (ex_order_index e) <> NaN.

(** The order index reads as a safe integer: [parseInt] did not round. *)
Definition readsSafely (e : ExistingImage) : Prop :=
  exists z, parseInt10 (ex_order_index e) = Int z /\ isSafeInteger z = true.

Definition ascending (a b : ExistingImage) : Prop := orderKey a <= orderKey b.

Definition loadedOrder (img : ImageUploaderImage) : Z :=
  match img_order_index img with
  | Some (Int z) => z
  | _ => 0
  end.

Definition seed (existingImages : list ExistingImage) (st : EditorState) : EditorState :=
  if isInitialized st then st
  else
    let st1 :=
      if (0 <? length existingImages)%nat
      then setOrderedImages (fun _ => map loadExisting (sortByOrderIndex existingImages)) st
      else st in
    markInitialized st1.

(** *** Change-set extraction (second [useEffect]) *)

Definition toMetadata (index : nat) (img : ImageUploaderImage) : ImageMetadata :=
  {| meta_id := if img_isNew img then None else Some (img_id img);
     meta_storage_id := img_storage_id img;
     meta_order_index := Z.of_nat index + 1;
     meta_isNew := img_isNew img;
     meta_destacada := img_destacada img;
     meta_url := if img_isNew img then None else Some (img_url img) |}.

Definition collectFile (m : gmap string File) (img : ImageUploaderImage) : gmap string File :=
  match img_isNew img, img_file img with
  | true, Some f => <[img_storage_id img := f]> m
  | _, _ => m
  end.

Definition extractChanges (imgs : list ImageUploaderImage) (dels : list DeleteEntry)
    : ImageUploaderChanges :=
  {| orderedImagesMetadata := imap toMetadata imgs;
     filesToUpload := fold_left collectFile imgs ∅;
     imageIdsToDelete := dels |}.

(** What the effect hands to [onImagesChange] after every change of the
    two state cells. *)
Definition notifyChanges (st : EditorState) : ImageUploaderChanges :=
  extractChanges (orderedImages st) (imagesToDelete st).

(** *** Handlers *)

(** A selected file together with what the browser returns for it:
    [generateUUID()] and [URL.createObjectURL(file)]. *)
Record Pick := mkPick {
  pick_file : File;
  pick_uuid : string;
  pick_url : string
}.

Definition newImage (current : list ImageUploaderImage) (index : nat) (p : Pick)
    : ImageUploaderImage :=
  {| img_id := pick_uuid p; img_storage_id := pick_uuid p;
     img_url := pick_url p; img_order_index := None;
     img_destacada := (length current =? 0)%nat && (index =? 0)%nat;
     img_isNew := true; img_file := Some (pick_file p) |}.

(** The handler reads [orderedImages] of the render it belongs to; one
    event is handled per render, so that is the current state. *)
Definition handleFileSelect (files : list Pick) (st : EditorState) : EditorState :=
  let current := orderedImages st in
  let newImages := imap (newImage current) files in
  let newImages :=
    if (0 <? length newImages)%nat && forallb (fun img => negb (img_destacada img)) current
    then destacarPrimera newImages
    else newImages in
  setOrderedImages (fun prev => prev ++ newImages) st.

Definition handleSetDestacada (storage_id : string) (st : EditorState) : EditorState :=
  setOrderedImages
    (map (fun img => setDestacada (String.eqb (img_storage_id img) storage_id) img)) st.

(** [remaining[0].destacada = true] writes into the object that the old
    array holds too; the old array is not read again. *)
Definition handleRemoveImage (imageToRemove : ImageUploaderImage) (st : EditorState)
    : EditorState :=
  let wasDestacada := img_destacada imageToRemove in
  let st1 :=
    setOrderedImages (fun prev =>
      let remaining :=
        List.filter (fun img => negb (String.eqb (img_id img) (img_id imageToRemove))) prev in
      if wasDestacada && (0 <? length remaining)%nat
      then destacarPrimera remaining
      else remaining) st in
  if img_isNew imageToRemove
  then revokeObjectURL (img_url imageToRemove) st1
  else setImagesToDelete (fun del =>
         del ++ [ {| del_id := img_id imageToRemove;
                     del_storage_id := img_storage_id imageToRemove |} ]) st1.

Fixpoint findIndex {A} (p : A -> bool) (l : list A) : option nat :=
  match l with
  | x :: rest => if p x then Some 0%nat else S <$> findIndex p rest
  | [] => None
  end.

(** [arrayMove] of dnd-kit: copy, take the element out at [from], put it
    back at [to].  Both indices are positions of the array here (the
    caller checked them); an absent [from] leaves the copy as it is. *)
Definition arrayMove {A} (array : list A) (from to : nat) : list A :=
  match array !! from with
  | Some x => let rest := delete from array in take to rest ++ x :: drop to rest
  | None => array
  end.

(** The drag event: [active.id] and [over?.id]. *)
Definition onDragEnd (active : string) (over : option string) (st : EditorState)
    : EditorState :=
  match over with
  | None => st
  | Some overId =>
      if String.eqb active overId then st
      else
        match findIndex (fun img => String.eqb (img_id img) active) (orderedImages st),
              findIndex (fun img => String.eqb (img_id img) overId) (orderedImages st) with
        | Some oldIndex, Some newIndex =>
            setOrderedImages (fun prev => arrayMove prev oldIndex newIndex) st
        | _, _ => st
        end
  end.

(** *** Sequences of user actions *)

Inductive Event :=
| AddFiles (files : list Pick)
| Remove (imageToRemove : ImageUploaderImage)
| Reorder (active : string) (over : option string)
| SetFeatured (storage_id : string).

Definition step (st : EditorState) (ev : Event) : EditorState :=
  match ev with
  | AddFiles files => handleFileSelect files st
  | Remove imageToRemove => handleRemoveImage imageToRemove st
  | Reorder active over => onDragEnd active over st
  | SetFeatured storage_id => handleSetDestacada storage_id st
  end.

Definition run (st : EditorState) (evs : list Event) : EditorState :=
  fold_left step evs st.

Definition countFeatured (imgs : list ImageUploaderImage) : nat :=
  length (List.filter img_destacada imgs).

(** What the rendered component can send to its handlers: the star and
    the cross sit on a rendered image, so they pass an image of the
    current collection; generated ids are new. *)
Definition offered (st : EditorState) (ev : Event) : Prop :=
  match ev with
  | AddFiles files =>
      NoDup (map pick_uuid files) /\
      forall p img, In p files -> In img (orderedImages st) ->
        pick_uuid p <> img_id img /\ pick_uuid p <> img_storage_id img
  | Remove imageToRemove => In imageToRemove (orderedImages st)
  | Reorder _ _ => True
  | SetFeatured storage_id =>
      exists img, In img (orderedImages st) /\ img_storage_id img = storage_id
  end.

Fixpoint offeredAll (st : EditorState) (evs : list Event) : Prop :=
  match evs with
  | ev :: rest => offered st ev /\ offeredAll (step st ev) rest
  | [] => True
  end.

(** Ids identify: no two images share an [id] or a [storage_id], and a
    collection that is not empty has one featured image. *)
Definition wellFormed (st : EditorState) : Prop :=
  NoDup (map img_id (orderedImages st)) /\
  NoDup (map img_storage_id (orderedImages st)) /\
  (orderedImages st <> [] -> countFeatured (orderedImages st) = 1%nat).

End Editor.

(** ** [String.prototype.trim] and [Number(string)] *)

Definition trimStart (s : string) : string := skipWhiteSpace s.

Definition trimEnd (s : string) : string :=
  String.rev (skipWhiteSpace (String.rev s)).

Definition trim (s : string) : string := trimEnd (trimStart s).

Definition isDigit (c : ascii) : bool :=
  let n := nat_of_ascii c in ((48 <=? n) && (n <=? 57))%nat.

Definition isHexDigit (c : ascii) : bool :=
  let n := nat_of_ascii c in
  (isDigit c || (65 <=? n) && (n <=? 70) || (97 <=? n) && (n <=? 102))%nat.

Definition isOctalDigit (c : ascii) : bool :=
  let n := nat_of_ascii c in ((48 <=? n) && (n <=? 55))%nat.

Definition isBinaryDigit (c : ascii) : bool :=
  let n := nat_of_ascii c in ((48 <=? n) && (n <=? 49))%nat.

Fixpoint allChars (p : ascii -> bool) (s : string) : bool :=
  match s with
  | String c rest => p c && allChars p rest
  | EmptyString => true
  end.

(** Number of leading decimal digits and what follows them. *)
Fixpoint spanDigits (s : string) : nat * string :=
  match s with
  | String c rest =>
      if isDigit c then let '(n, r) := spanDigits rest in (S n, r) else (0%nat, s)
  | EmptyString => (0%nat, s)
  end.

Definition isExponentPart (s : string) : bool :=
  match s with
  | String c rest =>
      if Ascii.eqb c "e" || Ascii.eqb c "E" then
        let digits :=
          match rest with
          | String "+" r => r
          | String "-" r => r
          | _ => rest
          end in
        let '(n, r) := spanDigits digits in (0 <? n)%nat && String.eqb r ""
      else false
  | EmptyString => false
  end.

Definition isStrUnsignedDecimalLiteral (s : string) : bool :=
  if String.eqb s "Infinity" then true
  else
    let '(n1, r1) := spanDigits s in
    let '(frac, r2) :=
      match r1 with
      | String "." r => let '(n2, r') := spanDigits r in (Some n2, r')
      | _ => (None, r1)
      end in
    let mantissa :=
      (0 <? n1)%nat || match frac with Some n2 => (0 <? n2)%nat | None => false end in
    mantissa && (String.eqb r2 "" || isExponentPart r2).

Definition isNonDecimalIntegerLiteral (s : string) : bool :=
  match s with
  | String "0" (String k digits) =>
      negb (String.eqb digits "") &&
      (if Ascii.eqb k "x" || Ascii.eqb k "X" then allChars isHexDigit digits
       else if Ascii.eqb k "o" || Ascii.eqb k "O" then allChars isOctalDigit digits
       else if Ascii.eqb k "b" || Ascii.eqb k "B" then allChars isBinaryDigit digits
       else false)
  | _ => false
  end.

Definition isStrNumericLiteral (s : string) : bool :=
  isNonDecimalIntegerLiteral s ||
  match s with
  | String "+" r => isStrUnsignedDecimalLiteral r
  | String "-" r => isStrUnsignedDecimalLiteral r
  | _ => isStrUnsignedDecimalLiteral s
  end.

(** [isNaN(Number(s))] for a string [s]: the empty and the blank string
    convert to [0]. *)
Definition isNaN_Number (s : string) : bool :=
  let t := trim s in
  if String.eqb t "" then false else negb (isStrNumericLiteral t).

(** ** The submission handler: [action] of [vehiculos.nuevo.tsx] *)

Module Server.

(** An error value; only its message is kept. *)
Definition Error := string.

Inductive FormDataEntryValue :=
| Str (s : string)
| Blob (f : File).

(** [FormData]: entries in order, [get] returns the first one of a name. *)
Definition FormData := list (string * FormDataEntryValue).

Fixpoint formData_get (name : string) (formData : FormData) : option FormDataEntryValue :=
  match formData with
  | (k, v) :: rest => if String.eqb k name then Some v else formData_get name rest
  | [] => None
  end.

Record Session := mkSession {
  session_concesionario_id : option string;
  session_user_id : option string
}.

Record Request := mkRequest {
  req_formData : FormData;
  req_session : Session
}.

(** The row inserted into [vehiculos].  Text columns carry the form
    entry as received; numeric columns carry the text that [Number]
    converts. *)
Record VehicleRow := mkVehicleRow {
  row_marca : option FormDataEntryValue;
  row_modelo : option FormDataEntryValue;
  row_anio : option FormDataEntryValue;
  row_version : option FormDataEntryValue;
  row_puertas : option FormDataEntryValue;
  row_combustible : option FormDataEntryValue;
  row_color : option FormDataEntryValue;
  row_placa : string;
  row_km : option FormDataEntryValue;
  row_precio : option FormDataEntryValue;
  row_transmision : option FormDataEntryValue;
  row_carroceria : option FormDataEntryValue;
  row_traccion : option FormDataEntryValue;
  row_cilindraje : option FormDataEntryValue;
  row_concesionario_id : string;
  row_user_id : string
}.

(** The row inserted into [images]. *)
Record ImageRow := mkImageRow {
  irow_vehicle_id : string;
  irow_url : string;
  irow_order_index : string;
  irow_storage_id : string;
  irow_destacada : string;
  irow_id_v : string
}.

(** Calls to the two backing stores. *)
Inductive StoreOp :=
| UsersSelectUuid (auth_id : string)
| VehiculosInsert (row : VehicleRow)
| StorageListBuckets
| StorageUpload (path : string) (file : File)
| ImagesInsert (row : ImageRow)
| ImagesUpdate (id : option string) (order_index destacada : string)
| StorageRemove (paths : list string)
| ImagesDelete (id : string)
| VehiculosUpdateUrlImg (uuid url : string).

(** Who issued a call: the handler itself or one of the promises it
    started for an image. *)
Inductive Origin :=
| Main
| UploadOf (meta : ImageMetadata)
| UpdateOf (meta : ImageMetadata)
| DeleteOf (imageToDelete : DeleteEntry).

Definition Call : Type := Origin * StoreOp.

(** What the outside world answers.  The client library of the stores
    reports a failed call through the [error] of its result and does not
    throw (the handler destructures [{ data, error }] everywhere); each
    promise gets its own answers, so any call of any image can fail on
    its own.  [decodeMetadata] and [decodeDeletions] stand for
    [JSON.parse] followed by the type cast of the handler: [Some] for a
    text that parses to an array of entries of the declared type,
    [None] for a text at which [JSON.parse] throws.  A text that parses
    to a value of another shape is not represented. *)
Record Env := mkEnv {
  storageUrl : string;
  decodeMetadata : string -> option (list ImageMetadata);
  decodeDeletions : string -> option (list DeleteEntry);
  usersSelectUuid : string -> Error + string;
  vehiculosInsert : VehicleRow -> Error + (Z * string);
  listBuckets : ImageMetadata -> Error + list string;
  storageUpload : ImageMetadata -> string -> File -> option Error;
  imagesInsert : ImageMetadata -> ImageRow -> option Error;
  imagesUpdate : ImageMetadata -> option Error;
  storageRemove : DeleteEntry -> list string -> option Error;
  imagesDelete : DeleteEntry -> option Error;
  vehiculosUpdateUrlImg : string -> string -> option Error
}.

(** *** Asynchronous computations

    A computation yields the calls it made and how it settled.  A
    [throw] rejects it and skips the rest, as in an [async] function. *)

Inductive Settled (A : Type) :=
| Fulfilled (value : A)
| Rejected (reason : Error).
Arguments Fulfilled {A} value.
Arguments Rejected {A} reason.

Definition Async (A : Type) : Type := list Call * Settled A.

Definition ret {A} (a : A) : Async A := ([], Fulfilled a).

Definition throw {A} (e : Error) : Async A := ([], Rejected e).

Definition bind {A B} (m : Async A) (k : A -> Async B) : Async B :=
  match m with
  | (calls, Fulfilled a) => let '(calls', r) := k a in (calls ++ calls', r)
  | (calls, Rejected e) => (calls, Rejected e)
  end.

Notation "x <- m ;; k" := (bind m (fun x => k))
  (at level 100, m at next level, right associativity).

(** [await] of a store call with its answer. *)
Definition call {A} (who : Origin) (op : StoreOp) (answer : A) : Async A :=
  ([(who, op)], Fulfilled answer).

(** [Promise.allSettled]: every promise runs to its end and the result
    never rejects.  The calls of one promise are listed together; how
    the promises interleave is not represented. *)
Definition allSettled {A} (promises : list (Async A)) : Async (list (Settled A)) :=
  (concat (map fst promises), Fulfilled (map snd promises)).

(** [try { body } catch (error) { return handler(error) }]. *)
Definition tryCatch {A} (body : Async A) (handler : Error -> A) : list Call * A :=
  match body with
  | (calls, Fulfilled a) => (calls, a)
  | (calls, Rejected e) => (calls, handler e)
  end.

Inductive Response :=
| JsonOk
| JsonError (error : string) (status : Z)
| JsonErrors (errors : gmap string string) (status : Z)
| Redirect (url : string).

(** *** Validation of the required fields *)

(** [!value] for a form entry. *)
Definition falsy (v : option FormDataEntryValue) : bool :=
  match v with
  | None => true
  | Some (Str s) => String.eqb s ""
  | Some (Blob _) => false
  end.

(** [raw === null || raw === "" || isNaN(Number(raw))]; a [File]
    converts to [NaN]. *)
Definition notANumber (raw : option FormDataEntryValue) : bool :=
  match raw with
  | None => true
  | Some (Str s) => String.eqb s "" || isNaN_Number s
  | Some (Blob _) => true
  end.

Definition requireText (formData : FormData) (field message : string)
    (errors : gmap string string) : gmap string string :=
  if falsy (formData_get field formData) then <[field := message]> errors else errors.

Definition requireNumber (formData : FormData) (field message : string)
    (errors : gmap string string) : gmap string string :=
  if notANumber (formData_get field formData) then <[field := message]> errors else errors.

(** [if (!placa?.trim()) ...]: a [File] has no [trim] and the call throws. *)
Definition requirePlaca (formData : FormData) (errors : gmap string string)
    : Async (gmap string string) :=
  match formData_get "placa" formData with
  | None => ret (<["placa" := "Placa es requerida"]> errors)
  | Some (Str s) =>
      if String.eqb (trim s) "" then ret (<["placa" := "Placa es requerida"]> errors)
      else ret errors
  | Some (Blob _) => throw "placa?.trim is not a function"
  end.

Definition validate (formData : FormData) : Async (gmap string string) :=
  let errors : gmap string string := ∅ in
  let errors := requireText formData "marca" "Marca es requerida" errors in
  let errors := requireText formData "modelo" "Modelo es requerido" errors in
  let errors := requireNumber formData "anio" "Año es requerido" errors in
  let errors := requireText formData "version" "Versión es requerida" errors in
  let errors := requireNumber formData "puertas" "Puertas es requerido" errors in
  let errors := requireText formData "combustible" "Combustible es requerido" errors in
  let errors := requireText formData "color" "Color es requerido" errors in
  errors <- requirePlaca formData errors ;;
  let errors := requireNumber formData "km" "Kilometraje es requerido" errors in
  let errors := requireNumber formData "precio" "Precio es requerido" errors in
  let errors := requireText formData "transmision" "Transmisión es requerida" errors in
  let errors := requireText formData "carroceria" "Carrocería es requerida" errors in
  let errors := requireText formData "traccion" "Tracción es requerida" errors in
  let errors := requireNumber formData "cilindraje" "Cilindraje es requerido" errors in
  ret errors.

(** *** Reconciliation of the images (steps 2 to 5 of [action]) *)

(** [String(n)] of an integer: its decimal digits, with [-] in front of
    a negative one.  This is what the language writes for every safe
    integer ([isSafeInteger]). *)
Definition numberToString (n : Z) : string := pretty n.

Definition boolToText (b : bool) : string := if b then "true" else "false".

(** [`${vehicleId}/${storage_id}`]. *)
Definition storagePathOf (vehicleId : Z) (storage_id : string) : string :=
  numberToString vehicleId +:+ "/" +:+ storage_id.

(** [encodeURI]: letters, digits and the characters [; / ? : @ & = + $ ,
    - _ . ! ~ * ' ( ) #] stay; every other code unit is written as the
    bytes of its UTF-8 form, each as [%XX] with capital hexadecimal
    digits (one byte below 128, two from 128 to 255). *)
Definition uriKept : list nat :=
  [ 59; 47; 63; 58; 64; 38; 61; 43; 36; 44;
    45; 95; 46; 33; 126; 42; 39; 40; 41; 35 ]%nat.

Definition isUriKept (c : ascii) : bool :=
  let n := nat_of_ascii c in
  ((65 <=? n) && (n <=? 90) || (97 <=? n) && (n <=? 122) || (48 <=? n) && (n <=? 57)
   || existsb (Nat.eqb n) uriKept)%nat.

Definition hexDigitOf (n : nat) : ascii :=
  ascii_of_nat (if (n <? 10)%nat then 48 + n else 55 + n)%nat.

Definition percentByte (byte : nat) : string :=
  String "%" (String (hexDigitOf (byte / 16)) (String (hexDigitOf (byte mod 16)) "")).

Definition encodeCodeUnit (c : ascii) : string :=
  let n := nat_of_ascii c in
  if isUriKept c then String c ""
  else if (n <? 128)%nat then percentByte n
  else percentByte (192 + n / 64) +:+ percentByte (128 + n mod 64).

Fixpoint encodeURI (s : string) : string :=
  match s with
  | String c rest => encodeCodeUnit c +:+ encodeURI rest
  | EmptyString => ""
  end.

(** [getPublicUrl] of the storage client: a computation on strings, no
    request is made; the address is passed through [encodeURI]. *)
Definition getPublicUrl (env : Env) (path : string) : string :=
  encodeURI (storageUrl env +:+ "/object/public/imagen-vehiculo/" +:+ path).

(** What a promise of the image step resolves to. *)
Inductive ImageResult :=
| Skipped
| InsertResult
| UpdateResult (error : option Error)
| DeleteResult (error : option Error).

Definition uploadImage (env : Env) (vehicleId : Z) (vehicleUuid : string)
    (formData : FormData) (meta : ImageMetadata) : Async ImageResult :=
  match formData_get (meta_storage_id meta) formData with
  | Some (Blob file) =>
      let filePath := storagePathOf vehicleId (meta_storage_id meta) in
      buckets <- call (UploadOf meta) StorageListBuckets (listBuckets env meta) ;;
      match buckets with
      | inl bucketsError => throw bucketsError
      | inr buckets =>
          if negb (existsb (fun name => String.eqb name "imagen-vehiculo") buckets)
          then throw "Bucket 'imagen-vehiculo' no existe. Por favor, créalo en Supabase Storage."
          else
            uploadError <- call (UploadOf meta) (StorageUpload filePath file)
                                (storageUpload env meta filePath file) ;;
            match uploadError with
            | Some e => throw e
            | None =>
                let row :=
                  {| irow_vehicle_id := vehicleUuid;
                     irow_url := getPublicUrl env filePath;
                     irow_order_index := numberToString (meta_order_index meta);
                     irow_storage_id := meta_storage_id meta;
                     irow_destacada := boolToText (meta_destacada meta);
                     irow_id_v := numberToString vehicleId |} in
                insertError <- call (UploadOf meta) (ImagesInsert row)
                                    (imagesInsert env meta row) ;;
                match insertError with
                | Some e => throw e
                | None => ret InsertResult
                end
            end
      end
  | _ => ret Skipped
  end.

Definition updateOrder (env : Env) (meta : ImageMetadata) : Async ImageResult :=
  error <- call (UpdateOf meta)
             (ImagesUpdate (meta_id meta) (numberToString (meta_order_index meta))
                (boolToText (meta_destacada meta)))
             (imagesUpdate env meta) ;;
  ret (UpdateResult error).

Definition deleteImage (env : Env) (vehicleId : Z) (imageToDelete : DeleteEntry)
    : Async ImageResult :=
  let storagePath := storagePathOf vehicleId (del_storage_id imageToDelete) in
  _ <- call (DeleteOf imageToDelete) (StorageRemove [storagePath])
         (storageRemove env imageToDelete [storagePath]) ;;
  error <- call (DeleteOf imageToDelete) (ImagesDelete (del_id imageToDelete))
             (imagesDelete env imageToDelete) ;;
  ret (DeleteResult error).

Definition imageUploadPromises (env : Env) (vehicleId : Z) (vehicleUuid : string)
    (formData : FormData) (metas : list ImageMetadata) : list (Async ImageResult) :=
  map (uploadImage env vehicleId vehicleUuid formData)
      (List.filter (fun meta => meta_isNew meta) metas).

Definition updateOrderPromises (env : Env) (metas : list ImageMetadata)
    : list (Async ImageResult) :=
  map (updateOrder env) (List.filter (fun meta => negb (meta_isNew meta)) metas).

Definition deletePromises (env : Env) (vehicleId : Z) (dels : list DeleteEntry)
    : list (Async ImageResult) :=
  map (deleteImage env vehicleId) dels.

Definition imagePromises (env : Env) (vehicleId : Z) (vehicleUuid : string)
    (formData : FormData) (metas : list ImageMetadata) (dels : list DeleteEntry)
    : list (Async ImageResult) :=
  imageUploadPromises env vehicleId vehicleUuid formData metas
    ++ updateOrderPromises env metas
    ++ deletePromises env vehicleId dels.

(** The address written for a featured entry; [None] when it is empty. *)
Definition featuredImageUrl (env : Env) (vehicleId : Z) (featuredImage : ImageMetadata)
    : option string :=
  let url :=
    if meta_isNew featuredImage
    then getPublicUrl env (storagePathOf vehicleId (meta_storage_id featuredImage))
    else default "" (meta_url featuredImage) in
  if String.eqb url "" then None else Some url.

(** Step 5: [url_img] of the vehicle. *)
Definition updateUrlImg (env : Env) (vehicleId : Z) (vehicleUuid : string)
    (metas : list ImageMetadata) : Async unit :=
  match List.find (fun meta => meta_destacada meta) metas with
  | Some featuredImage =>
      match featuredImageUrl env vehicleId featuredImage with
      | Some url =>
          _ <- call Main (VehiculosUpdateUrlImg vehicleUuid url)
                 (vehiculosUpdateUrlImg env vehicleUuid url) ;;
          ret tt
      | None => ret tt
      end
  | None => ret tt
  end.

Definition reconcile (env : Env) (vehicleId : Z) (vehicleUuid : string)
    (formData : FormData) (metas : list ImageMetadata) (dels : list DeleteEntry)
    : Async Response :=
  _ <- allSettled (imagePromises env vehicleId vehicleUuid formData metas dels) ;;
  _ <- updateUrlImg env vehicleId vehicleUuid metas ;;
  ret (Redirect "/vehiculos").

(** *** The handler *)

(** [value || "[]"] followed by [JSON.parse]; decoding a well-formed
    text to typed entries is left to [env], except for the default. *)
Definition jsonText (v : option FormDataEntryValue) : string :=
  match v with
  | None => "[]"
  | Some (Str s) => if String.eqb s "" then "[]" else s
  | Some (Blob _) => "[object File]"
  end.

Definition parseJson {A} (decode : string -> option (list A)) (text : string)
    : Async (list A) :=
  if String.eqb text "[]" then ret []
  else
    match decode text with
    | Some l => ret l
    | None => throw "Unexpected token in JSON"
    end.

Definition truthy (v : option string) : bool :=
  match v with
  | Some s => negb (String.eqb s "")
  | None => false
  end.

Definition vehicleRow (formData : FormData) (concesionario_id user_id : string)
    : VehicleRow :=
  let get := fun name => formData_get name formData in
  {| row_marca := get "marca"; row_modelo := get "modelo"; row_anio := get "anio";
     row_version := get "version"; row_puertas := get "puertas";
     row_combustible := get "combustible"; row_color := get "color";
     row_placa := match get "placa" with Some (Str s) => trim s | _ => "" end;
     row_km := get "km"; row_precio := get "precio";
     row_transmision := get "transmision"; row_carroceria := get "carroceria";
     row_traccion := get "traccion"; row_cilindraje := get "cilindraje";
     row_concesionario_id := concesionario_id; row_user_id := user_id |}.

Definition actionBody (env : Env) (request : Request) : Async Response :=
  let formData := req_formData request in
  let concesionario_id := session_concesionario_id (req_session request) in
  let auth_id := session_user_id (req_session request) in
  if negb (truthy concesionario_id) || negb (truthy auth_id)
  then ret (JsonError "No se encontró información de usuario/concesionario en la sesión. Por favor, inicia sesión nuevamente." 401)
  else
    userRow <- call Main (UsersSelectUuid (default "" auth_id))
                 (usersSelectUuid env (default "" auth_id)) ;;
    match userRow with
    | inl _ =>
        ret (JsonError "No se encontró el usuario en la base de datos. Por favor, revisa tu sesión." 401)
    | inr user_id =>
        if String.eqb user_id ""
        then ret (JsonError "No se encontró el usuario en la base de datos. Por favor, revisa tu sesión." 401)
        else
          errors <- validate formData ;;
          if negb (bool_decide (errors = ∅))
          then ret (JsonErrors errors 400)
          else
            metas <- parseJson (decodeMetadata env)
                       (jsonText (formData_get "orderedImagesMetadata" formData)) ;;
            dels <- parseJson (decodeDeletions env)
                      (jsonText (formData_get "imageIdsToDelete" formData)) ;;
            vehicle <- call Main
                         (VehiculosInsert (vehicleRow formData (default "" concesionario_id) user_id))
                         (vehiculosInsert env
                            (vehicleRow formData (default "" concesionario_id) user_id)) ;;
            match vehicle with
            | inl vehicleError => throw vehicleError
            | inr (vehicleId, vehicleUuid) =>
                reconcile env vehicleId vehicleUuid formData metas dels
            end
    end.

(** [value === text] for a form entry. *)
Definition entryIs (v : option FormDataEntryValue) (text : string) : bool :=
  match v with
  | Some (Str s) => String.eqb s text
  | _ => false
  end.

Definition action (env : Env) (request : Request) : list Call * Response :=
  if entryIs (formData_get "_clearFetcher" (req_formData request)) "true"
  then ([], JsonOk)
  else tryCatch (actionBody env request) (fun error => JsonError error 500).

(** *** Vocabulary for statements about [action] *)

Inductive FieldKind :=
| TextField
| NumberField
| PlacaField.

(** The fields the handler requires, in the order it checks them. *)
Definition requiredFields : list (string * FieldKind) :=
  [ ("marca", TextField); ("modelo", TextField); ("anio", NumberField);
    ("version", TextField); ("puertas", NumberField); ("combustible", TextField);
    ("color", TextField); ("placa", PlacaField); ("km", NumberField);
    ("precio", NumberField); ("transmision", TextField); ("carroceria", TextField);
    ("traccion", TextField); ("cilindraje", NumberField) ].

(** A field counts as missing when the check of the handler for it
    fires: absent or empty text, absent or blank [placa], absent, empty
    or non-numeric number. *)
Definition isMissing (formData : FormData) (field : string * FieldKind) : bool :=
  match snd field with
  | TextField => falsy (formData_get (fst field) formData)
  | NumberField => notANumber (formData_get (fst field) formData)
  | PlacaField =>
      match formData_get (fst field) formData with
      | None => true
      | Some (Str s) => String.eqb (trim s) ""
      | Some (Blob _) => false
      end
  end.

Definition anyMissing (formData : FormData) : bool :=
  existsb (isMissing formData) requiredFields.

(** What a call of an upload promise can be. *)
Definition uploadCallOf (vehicleId : Z) (formData : FormData) (meta : ImageMetadata)
    (c : Call) : Prop :=
  fst c = UploadOf meta /\
  (snd c = StorageListBuckets
   \/ (exists file,
         formData_get (meta_storage_id meta) formData = Some (Blob file) /\
         snd c = StorageUpload (storagePathOf vehicleId (meta_storage_id meta)) file)
   \/ (exists row, snd c = ImagesInsert row /\
         irow_storage_id row = meta_storage_id meta)).

Definition isMain (c : Call) : bool :=
  match fst c with
  | Main => true
  | _ => false
  end.

Definition isCoverWrite (c : Call) : bool :=
  match snd c with
  | VehiculosUpdateUrlImg _ _ => true
  | _ => false
  end.

(** The session names a dealer and a user, and the user row is found. *)
Definition authenticated (env : Env) (request : Request) : Prop :=
  truthy (session_concesionario_id (req_session request)) = true /\
  truthy (session_user_id (req_session request)) = true /\
  exists user_id,
    usersSelectUuid env (default "" (session_user_id (req_session request)))
      = inr user_id /\ user_id <> "".

Definition isClearFetcher (request : Request) : Prop :=
  entryIs (formData_get "_clearFetcher" (req_formData request)) "true" = true.

(** The request passes every gate in front of the image step: it is
    signed in, all fields validate, both lists decode and the vehicle
    row is inserted as [(vehicleId, vehicleUuid)]. *)
Definition reachesReconcile (env : Env) (request : Request)
    (vehicleId : Z) (vehicleUuid : string)
    (metas : list ImageMetadata) (dels : list DeleteEntry) : Prop :=
  ~ isClearFetcher request /\
  truthy (session_concesionario_id (req_session request)) = true /\
  truthy (session_user_id (req_session request)) = true /\
  exists user_id,
    usersSelectUuid env (default "" (session_user_id (req_session request)))
      = inr user_id /\
    user_id <> "" /\
    validate (req_formData request) = ([], Fulfilled ∅) /\
    parseJson (decodeMetadata env)
      (jsonText (formData_get "orderedImagesMetadata" (req_formData request)))
      = ([], Fulfilled metas) /\
    parseJson (decodeDeletions env)
      (jsonText (formData_get "imageIdsToDelete" (req_formData request)))
      = ([], Fulfilled dels) /\
    vehiculosInsert env
      (vehicleRow (req_formData request)
         (default "" (session_concesionario_id (req_session request))) user_id)
      = inr (vehicleId, vehicleUuid).

Definition placaIsFile (formData : FormData) : Prop :=
  exists f, formData_get "placa" formData = Some (Blob f).

End Server.

(** ** Sample data *)

Module Samples.
Import Editor.

Definition fileA : File := {| file_name := "a.jpg"; file_data := "AAAA" |}.
Definition fileB : File := {| file_name := "b.jpg"; file_data := "BBBB" |}.

Definition pickA : Pick :=
  {| pick_file := fileA; pick_uuid := "uuid-a"; pick_url := "blob:a" |}.
Definition pickB : Pick :=
  {| pick_file := fileB; pick_uuid := "uuid-b"; pick_url := "blob:b" |}.

(** [pickA] as it sits in the collection after it was added alone. *)
Definition imageA : ImageUploaderImage :=
  {| img_id := "uuid-a"; img_storage_id := "uuid-a"; img_url := "blob:a";
     img_order_index := None; img_destacada := true; img_isNew := true;
     img_file := Some fileA |}.

Definition oneImage : EditorState :=
  {| orderedImages := [imageA]; imagesToDelete := [];
     isInitialized := true; revokedUrls := [] |}.

(** [pickB] once it has been added after [pickA] and then starred. *)
Definition imageBFeatured : ImageUploaderImage :=
  {| img_id := "uuid-b"; img_storage_id := "uuid-b"; img_url := "blob:b";
     img_order_index := None; img_destacada := true; img_isNew := true;
     img_file := Some fileB |}.

(** Add two files, star the second, drag it to the front, remove it. *)
Definition sampleSession : list Event :=
  [ AddFiles [pickA; pickB];
    SetFeatured "uuid-b";
    Reorder "uuid-b" (Some "uuid-a");
    Remove imageBFeatured ].

Definition persistedSecond : ExistingImage :=
  {| ex_id := "id2"; ex_url := "https://cdn/2"; ex_storage_id := "s2";
     ex_order_index := "2"; ex_destacada := true |}.

(** A snapshot in which the rows arrive out of order. *)
Definition persistedThree : list ExistingImage :=
  [ {| ex_id := "id3"; ex_url := "https://cdn/3"; ex_storage_id := "s3";
       ex_order_index := "3"; ex_destacada := false |};
    {| ex_id := "id1"; ex_url := "https://cdn/1"; ex_storage_id := "s1";
       ex_order_index := "1"; ex_destacada := false |};
    persistedSecond ].

(** *** A submission *)

Import Server.

Definition metaA : ImageMetadata :=
  {| meta_id := None; meta_storage_id := "uuid-a"; meta_order_index := 1;
     meta_isNew := true; meta_destacada := true; meta_url := None |}.

Definition metaB : ImageMetadata :=
  {| meta_id := None; meta_storage_id := "uuid-b"; meta_order_index := 2;
     meta_isNew := true; meta_destacada := false; meta_url := None |}.

(** A new entry whose file did not travel with the form. *)
Definition metaLost : ImageMetadata :=
  {| meta_id := None; meta_storage_id := "uuid-lost"; meta_order_index := 3;
     meta_isNew := true; meta_destacada := false; meta_url := None |}.

Definition metaOld : ImageMetadata :=
  {| meta_id := Some "41"; meta_storage_id := "s41"; meta_order_index := 4;
     meta_isNew := false; meta_destacada := false;
     meta_url := Some "https://store/object/public/imagen-vehiculo/7/s41" |}.

Definition deletion40 : DeleteEntry := {| del_id := "40"; del_storage_id := "s40" |}.

Definition vehicleFields : FormData :=
  [ ("marca", Str "Mazda"); ("modelo", Str "3"); ("anio", Str "2020");
    ("version", Str "Touring"); ("puertas", Str "4"); ("combustible", Str "Gasolina");
    ("color", Str "Rojo"); ("placa", Str " ABC123 "); ("km", Str "35000");
    ("precio", Str "78000000"); ("transmision", Str "Manual");
    ("carroceria", Str "Sedan"); ("traccion", Str "4x2"); ("cilindraje", Str "2000") ].

Definition sampleForm : FormData :=
  vehicleFields
    ++ [ ("orderedImagesMetadata", Str "[A,B,Lost,Old]");
         ("imageIdsToDelete", Str "[40]");
         ("uuid-a", Blob fileA); ("uuid-b", Blob fileB) ].

Definition sampleSessionData : Session :=
  {| session_concesionario_id := Some "dealer-1"; session_user_id := Some "auth-1" |}.

Definition sampleRequest : Request :=
  {| req_formData := sampleForm; req_session := sampleSessionData |}.

(** A request without a session and without any field. *)
Definition anonymousRequest : Request :=
  {| req_formData := [];
     req_session := {| session_concesionario_id := None; session_user_id := None |} |}.

(** A signed-in request whose form lacks [marca] and has a blank [km]. *)
Definition incompleteRequest : Request :=
  {| req_formData :=
       [ ("modelo", Str "3"); ("anio", Str "2020"); ("version", Str "Touring");
         ("puertas", Str "4"); ("combustible", Str "Gasolina"); ("color", Str "Rojo");
         ("placa", Str "ABC123"); ("km", Str "abc"); ("precio", Str "78000000");
         ("transmision", Str "Manual"); ("carroceria", Str "Sedan");
         ("traccion", Str "4x2"); ("cilindraje", Str "2000");
         ("uuid-a", Blob fileA) ];
     req_session := sampleSessionData |}.

(** Every store call succeeds. *)
Definition calmEnv : Env :=
  {| storageUrl := "https://store";
     decodeMetadata := fun text =>
       if String.eqb text "[A,B,Lost,Old]" then Some [metaA; metaB; metaLost; metaOld]
       else None;
     decodeDeletions := fun text =>
       if String.eqb text "[40]" then Some [deletion40] else None;
     usersSelectUuid := fun _ => inr "user-uuid";
     vehiculosInsert := fun _ => inr (7, "veh-uuid");
     listBuckets := fun _ => inr ["imagen-vehiculo"];
     storageUpload := fun _ _ _ => None;
     imagesInsert := fun _ _ => None;
     imagesUpdate := fun _ => None;
     storageRemove := fun _ _ => None;
     imagesDelete := fun _ => None;
     vehiculosUpdateUrlImg := fun _ _ => None |}.

(** The upload of the featured image fails, the object of the deleted
    image cannot be removed, and the row deletion fails too. *)
Definition stormyEnv : Env :=
  {| storageUrl := "https://store";
     decodeMetadata := decodeMetadata calmEnv;
     decodeDeletions := decodeDeletions calmEnv;
     usersSelectUuid := fun _ => inr "user-uuid";
     vehiculosInsert := fun _ => inr (7, "veh-uuid");
     listBuckets := fun _ => inr ["imagen-vehiculo"];
     storageUpload := fun meta _ _ =>
       if String.eqb (meta_storage_id meta) "uuid-a" then Some "upload failed" else None;
     imagesInsert := fun _ _ => None;
     imagesUpdate := fun _ => None;
     storageRemove := fun _ _ => Some "object not found";
     imagesDelete := fun _ => Some "row locked";
     vehiculosUpdateUrlImg := fun _ _ => None |}.

End Samples.

(** ** The form of [NuevoVehiculo] *)

Module Client.
Import Editor Server.

(** The state cells of the three steps that [handleSubmit] sends. *)
Record FormState := mkFormState {
  marcaSeleccionada : string;
  modeloSeleccionado : string;
  anioSeleccionado : string;
  versionSeleccionada : string;
  puertas : string;
  combustible : string;
  color : string;
  placa : string;
  km : string;
  precio : string;
  transmision : string;
  carroceria : string;
  traccion : string;
  cilindraje : string
}.

Definition nonEmpty (s : string) : bool := negb (String.eqb s "").

(** [value !== "" && !isNaN(Number(value))]. *)
Definition numeric (s : string) : bool := nonEmpty s && negb (isNaN_Number s).

Definition paso1Completo (fs : FormState) : bool :=
  nonEmpty (marcaSeleccionada fs) && nonEmpty (modeloSeleccionado fs)
  && nonEmpty (anioSeleccionado fs) && nonEmpty (versionSeleccionada fs).

Definition paso2Completo (fs : FormState) : bool :=
  nonEmpty (puertas fs) && nonEmpty (combustible fs) && nonEmpty (color fs)
  && nonEmpty (trim (placa fs)) && nonEmpty (transmision fs)
  && nonEmpty (carroceria fs) && nonEmpty (traccion fs)
  && numeric (km fs) && numeric (precio fs) && numeric (cilindraje fs).

Definition paso3Completo (imageUploaderData : option ImageUploaderChanges) : bool :=
  match imageUploaderData with
  | Some changes => (0 <? length (orderedImagesMetadata changes))%nat
  | None => false
  end.

(** [JSON.stringify] of the two lists, the counterpart of the decoders
    of [Server.Env]. *)
Record Json := mkJson {
  stringifyMetadata : list ImageMetadata -> string;
  stringifyDeletions : list DeleteEntry -> string
}.

Definition fieldEntries (fs : FormState) : FormData :=
  [ ("marca", Str (marcaSeleccionada fs)); ("modelo", Str (modeloSeleccionado fs));
    ("anio", Str (anioSeleccionado fs)); ("version", Str (versionSeleccionada fs));
    ("puertas", Str (puertas fs)); ("combustible", Str (combustible fs));
    ("color", Str (color fs)); ("placa", Str (placa fs)); ("km", Str (km fs));
    ("precio", Str (precio fs)); ("transmision", Str (transmision fs));
    ("carroceria", Str (carroceria fs)); ("traccion", Str (traccion fs));
    ("cilindraje", Str (cilindraje fs)) ].

(** The files of the payload map, one entry per key.  A [Map] lists its
    entries in insertion order and [map_to_list] in key order; the entries
    are read back by name only. *)
Definition fileEntries (files : gmap string File) : FormData :=
  map (fun entry => (fst entry, Blob (snd entry))) (map_to_list files).

(** [handleSubmit]: nothing is sent before the uploader has reported. *)
Definition handleSubmit (json : Json) (fs : FormState)
    (imageUploaderData : option ImageUploaderChanges) : option FormData :=
  match imageUploaderData with
  | None => None
  | Some changes =>
      Some (fieldEntries fs
            ++ [ ("orderedImagesMetadata",
                  Str (stringifyMetadata json (orderedImagesMetadata changes)));
                 ("imageIdsToDelete",
                  Str (stringifyDeletions json (imageIdsToDelete changes))) ]
            ++ fileEntries (filesToUpload changes))
  end.

(** Names of the form that are not files. *)
Definition reservedNames : list string :=
  [ "marca"; "modelo"; "anio"; "version"; "puertas"; "combustible"; "color";
    "placa"; "km"; "precio"; "transmision"; "carroceria"; "traccion";
    "cilindraje"; "orderedImagesMetadata"; "imageIdsToDelete" ].

(** The submit button of step 3. *)
Definition submitEnabled (fs : FormState)
    (imageUploaderData : option ImageUploaderChanges) : bool :=
  paso1Completo fs && paso2Completo fs && paso3Completo imageUploaderData.

End Client.

(** ** The loader of [vehiculos.nuevo.tsx] *)

Module Loader.

Definition Error := string.

(** A filter [{ column, value }] of a query. *)
Definition Filter : Type := string * string.

(** The queries the loader can send. *)
Inductive Query :=
| SelectMarcas
| SelectColumn (column : string) (filters : list Filter)
| SelectFechas (filters : list Filter)
| SelectVersiones (marca modelo : string).

(** What the database answers: the rows, or an error.  A cell can be
    [null].  [marcasRejectsFirst] says which of the two parallel queries
    of the first load is the first to fail when both do. *)
Record Env := mkEnv {
  selectMarcas : Error + list (option string);
  selectColumn : string -> list Filter -> Error + list (option string);
  selectFechas : list Filter -> Error + list (option string);
  selectVersiones : string -> string -> Error + list (option string * option string);
  marcasRejectsFirst : bool
}.

(** [values.filter(Boolean)]: drops [null] and the empty string. *)
Definition filterBoolean (values : list (option string)) : list string :=
  omap (fun v => match v with
                 | Some s => if String.eqb s "" then None else Some s
                 | None => None
                 end) values.

(** [Array.from(new Set(values))]: first occurrences, in order. *)
Definition unique (values : list string) : list string :=
  fold_left (fun seen v => if existsb (String.eqb v) seen then seen else seen ++ [v])
            values [].

(** [Array.prototype.sort] with a comparator that is positive when
    [positive a b]: stable insertion, as for the images. *)
Fixpoint insertBy {A} (positive : A -> A -> bool) (a : A) (l : list A) : list A :=
  match l with
  | b :: rest => if positive a b then b :: insertBy positive a rest else a :: l
  | [] => [a]
  end.

Definition sortBy {A} (positive : A -> A -> bool) (l : list A) : list A :=
  fold_right (insertBy positive) [] l.

(** [sort()] without comparator orders strings by their code units. *)
Definition sortStrings (l : list string) : list string :=
  sortBy (fun a b => String.ltb b a) l.

(** [String(fecha).match(/^(\d{4})/)]; [null] reads ["null"]. *)
Definition firstFourDigits (s : string) : option string :=
  match s with
  | String a (String b (String c (String d _))) =>
      if isDigit a && isDigit b && isDigit c && isDigit d
      then Some (String a (String b (String c (String d ""))))
      else None
  | _ => None
  end.

Definition yearOf (fecha : option string) : option string :=
  match fecha with
  | Some s => firstFourDigits s
  | None => None
  end.

(** [Number] of a text of digits. *)
Definition digitsValue (s : string) : Z := default 0 (readDigits s None).

(** [(a, b) => Number(b) - Number(a)]. *)
Definition sortYears (l : list string) : list string :=
  sortBy (fun a b => (digitsValue a <? digitsValue b)%Z) l.

Definition getMarcasUnicas (env : Env) : Error + list string :=
  match selectMarcas env with
  | inl error => inl error
  | inr data => inr (sortStrings (filterBoolean data))
  end.

Definition getDistinctValues (env : Env) (column : string) (filters : list Filter)
    : Error + list string :=
  match selectColumn env column filters with
  | inl error => inl error
  | inr data => inr (sortStrings (unique (filterBoolean data)))
  end.

Definition getDistinctYears (env : Env) (filters : list Filter) : Error + list string :=
  match selectFechas env filters with
  | inl error => inl error
  | inr data => inr (sortYears (unique (omap yearOf data)))
  end.

Definition getVersionsByYear (env : Env) (marca modelo anio : string)
    : Error + list string :=
  match selectVersiones env marca modelo with
  | inl error => inl error
  | inr data =>
      inr (sortStrings (unique (filterBoolean
             (map fst (List.filter
                (fun row => match yearOf (snd row) with
                            | Some year => String.eqb year anio
                            | None => false
                            end) data)))))
  end.

(** The module-level cache. *)
Record Cache := mkCache {
  cache_marcas : option (list string);
  cache_anios : option (list string);
  lastCacheTime : Z
}.

Definition emptyCache : Cache :=
  {| cache_marcas := None; cache_anios := None; lastCacheTime := 0 |}.

Definition CACHE_DURATION : Z := 5 * 60 * 1000.

(** The search parameters of the request. *)
Record Params := mkParams {
  p_marca : option string;
  p_modelo : option string;
  p_anio : option string;
  p_forOptions : option string
}.

Inductive Response :=
| Modelos (modelos : list string)
| Anios (anios : list string)
| Versiones (versiones : list string)
| MarcasAnios (marcas anios : list string)
| Failure (marcas anios : list string) (error : string) (status : Z).

Definition paramIs (v : option string) (text : string) : bool :=
  match v with
  | Some s => String.eqb s text
  | None => false
  end.

Definition given (v : option string) : bool :=
  match v with
  | Some s => negb (String.eqb s "")
  | None => false
  end.

(** The [catch] of the loader. *)
Definition failure (cache : Cache) (error : Error) : Response :=
  Failure (default [] (cache_marcas cache)) (default [] (cache_anios cache))
          (if String.eqb error "" then "Error al consultar datos" else error) 500.

(** [Promise.all] of the two queries of the first load: both are sent;
    the cache is written only when both succeed. *)
Definition freshLoad (env : Env) (cache : Cache) (now : Z)
    : list Query * Response * Cache :=
  match getMarcasUnicas env, getDistinctYears env [] with
  | inr marcas, inr anios =>
      ( [SelectMarcas; SelectFechas []], MarcasAnios marcas anios,
        {| cache_marcas := Some marcas; cache_anios := Some anios;
           lastCacheTime := now |} )
  | inl error, inr _ => ([SelectMarcas; SelectFechas []], failure cache error, cache)
  | inr _, inl error => ([SelectMarcas; SelectFechas []], failure cache error, cache)
  | inl error1, inl error2 =>
      ( [SelectMarcas; SelectFechas []],
        failure cache (if marcasRejectsFirst env then error1 else error2),
        cache )
  end.

(** [loader] at time [now]: the queries sent, the answer, the cache
    afterwards. *)
Definition loader (env : Env) (cache : Cache) (now : Z) (params : Params)
    : list Query * Response * Cache :=
  let marca := default "" (p_marca params) in
  let modelo := default "" (p_modelo params) in
  let anio := default "" (p_anio params) in
  if paramIs (p_forOptions params) "modelos" && given (p_marca params) then
    ( [SelectColumn "modelo" [("marca", marca)]],
      match getDistinctValues env "modelo" [("marca", marca)] with
      | inr modelos => Modelos modelos
      | inl error => failure cache error
      end, cache )
  else if paramIs (p_forOptions params) "anios" && given (p_marca params)
          && given (p_modelo params) then
    ( [SelectFechas [("marca", marca); ("modelo", modelo)]],
      match getDistinctYears env [("marca", marca); ("modelo", modelo)] with
      | inr anios => Anios anios
      | inl error => failure cache error
      end, cache )
  else if paramIs (p_forOptions params) "versiones" && given (p_marca params)
          && given (p_modelo params) && given (p_anio params) then
    ( [SelectVersiones marca modelo],
      match getVersionsByYear env marca modelo anio with
      | inr versiones => Versiones versiones
      | inl error => failure cache error
      end, cache )
  else
    match cache_marcas cache, cache_anios cache,
          (now - lastCacheTime cache <? CACHE_DURATION)%Z with
    | Some marcas, Some anios, true => ([], MarcasAnios marcas anios, cache)
    | _, _, _ => freshLoad env cache now
    end.

(** The request asks for the options of one selector. *)
Definition wantsOptions (params : Params) : bool :=
  paramIs (p_forOptions params) "modelos" && given (p_marca params)
  || paramIs (p_forOptions params) "anios" && given (p_marca params)
     && given (p_modelo params)
  || paramIs (p_forOptions params) "versiones" && given (p_marca params)
     && given (p_modelo params) && given (p_anio params).

End Loader.

(** ** Further scenarios *)

Module Scenarios.
Import Editor Server Client Samples.

(** A stand-in for [JSON.stringify] that writes the identities only. *)
Definition sampleJson : Json :=
  {| stringifyMetadata := fun metas =>
       "[" +:+ String.concat "," (map meta_storage_id metas) +:+ "]";
     stringifyDeletions := fun dels =>
       "[" +:+ String.concat "," (map del_id dels) +:+ "]" |}.

(** The store of [calmEnv] behind decoders that read [sampleJson]. *)
Definition echoEnv : Server.Env :=
  {| storageUrl := storageUrl calmEnv;
     decodeMetadata := fun text =>
       if String.eqb text "[uuid-a]" then Some [metaA] else None;
     decodeDeletions := fun _ => None;
     usersSelectUuid := usersSelectUuid calmEnv;
     vehiculosInsert := vehiculosInsert calmEnv;
     listBuckets := listBuckets calmEnv;
     storageUpload := storageUpload calmEnv;
     imagesInsert := imagesInsert calmEnv;
     imagesUpdate := imagesUpdate calmEnv;
     storageRemove := storageRemove calmEnv;
     imagesDelete := imagesDelete calmEnv;
     vehiculosUpdateUrlImg := vehiculosUpdateUrlImg calmEnv |}.

(** The store of [calmEnv], except that the vehicle cannot be inserted. *)
Definition brokenInsertEnv : Server.Env :=
  {| storageUrl := storageUrl calmEnv;
     decodeMetadata := decodeMetadata calmEnv;
     decodeDeletions := decodeDeletions calmEnv;
     usersSelectUuid := usersSelectUuid calmEnv;
     vehiculosInsert := fun _ => inl "duplicate key value";
     listBuckets := listBuckets calmEnv;
     storageUpload := storageUpload calmEnv;
     imagesInsert := imagesInsert calmEnv;
     imagesUpdate := imagesUpdate calmEnv;
     storageRemove := storageRemove calmEnv;
     imagesDelete := imagesDelete calmEnv;
     vehiculosUpdateUrlImg := vehiculosUpdateUrlImg calmEnv |}.

(** All three steps filled in. *)
Definition completeForm : FormState :=
  {| marcaSeleccionada := "Mazda"; modeloSeleccionado := "3";
     anioSeleccionado := "2020"; versionSeleccionada := "Touring";
     puertas := "4"; combustible := "Gasolina"; color := "Rojo";
     placa := "ABC123"; km := "35000"; precio := "78000000";
     transmision := "Manual"; carroceria := "Sedan"; traccion := "4x2";
     cilindraje := "2000" |}.

(** What [handleSubmit] sends for [completeForm] and the editor [oneImage]. *)
Definition submission : FormData :=
  default [] (handleSubmit sampleJson completeForm (Some (notifyChanges oneImage))).

Definition submittedRequest : Request :=
  {| req_formData := submission; req_session := sampleSessionData |}.

(** Valid fields, but a metadata text that is no JSON. *)
Definition garbledRequest : Request :=
  {| req_formData := vehicleFields ++ [ ("orderedImagesMetadata", Str "{oops") ];
     req_session := sampleSessionData |}.

(** The row [calmEnv] is asked to insert for [metaA]. *)
Definition rowA : ImageRow :=
  {| irow_vehicle_id := "veh-uuid";
     irow_url := "https://store/object/public/imagen-vehiculo/7/uuid-a";
     irow_order_index := "1"; irow_storage_id := "uuid-a";
     irow_destacada := "true"; irow_id_v := "7" |}.

(** The rows of [persistedThree] in the order they were saved. *)
Definition savedThree : list ExistingImage :=
  [ {| ex_id := "id1"; ex_url := "https://cdn/1"; ex_storage_id := "s1";
       ex_order_index := "1"; ex_destacada := false |};
    persistedSecond;
    {| ex_id := "id3"; ex_url := "https://cdn/3"; ex_storage_id := "s3";
       ex_order_index := "3"; ex_destacada := false |} ].

(** A catalogue with repeated, empty and [null] cells. *)
Definition catalog : Loader.Env :=
  {| Loader.selectMarcas := inr [Some "Toyota"; Some "Mazda"; Some "Audi"];
     Loader.selectColumn := fun _ _ =>
       inr [Some "Yaris"; None; Some "Corolla"; Some ""; Some "Yaris"];
     Loader.selectFechas := fun _ =>
       inr [Some "2019-05-05"; Some "2020-01-01"; None; Some "s/f"; Some "2020-07-01"];
     Loader.selectVersiones := fun _ _ =>
       inr [ (Some "XEI", Some "2020-01-01"); (Some "SEG", Some "2019-03-01");
             (Some "XEI", Some "2020-02-01"); (None, Some "2020-03-01");
             (Some "GLI", None) ];
     Loader.marcasRejectsFirst := true |}.

(** The database is down. *)
Definition offline : Loader.Env :=
  {| Loader.selectMarcas := inl "connection refused";
     Loader.selectColumn := fun _ _ => inl "connection refused";
     Loader.selectFechas := fun _ => inl "connection refused";
     Loader.selectVersiones := fun _ _ => inl "connection refused";
     Loader.marcasRejectsFirst := true |}.

(** A request for the page itself. *)
Definition firstLoad : Loader.Params :=
  {| Loader.p_marca := None; Loader.p_modelo := None; Loader.p_anio := None;
     Loader.p_forOptions := None |}.

(** The cache after a first load of [catalog] at time [1000]. *)
Definition warmCache : Loader.Cache :=
  {| Loader.cache_marcas := Some ["Audi"; "Mazda"; "Toyota"];
     Loader.cache_anios := Some ["2020"; "2019"];
     Loader.lastCacheTime := 1000 |}.

End Scenarios.

(** * Properties of the editor *)

Section EditorProperties.
Import Editor Samples.

(** *** [handleSetDestacada] *)

Lemma setDestacada_fields b img :
  img_id (setDestacada b img) = img_id img /\
  img_storage_id (setDestacada b img) = img_storage_id img /\
  img_destacada (setDestacada b img) = b.
Proof. by destruct img. Qed.

(** C4, as the code has it: [handleSetDestacada] rewrites the flag of
    every image to "its storage id equals the argument"; position,
    length and the other fields stay.  Afterwards an image is featured
    exactly when it has that storage id, so when no image has it every
    flag is cleared.  The deletion list, the revoked addresses and the
    seeding flag are not touched. *)
Theorem C4_setFeatured_flags_follow_identity (storage_id : string) (st : EditorState) :
  let st' := handleSetDestacada storage_id st in
  (forall i img, orderedImages st !! i = Some img ->
     orderedImages st' !! i
       = Some (setDestacada (String.eqb (img_storage_id img) storage_id) img))
  /\ length (orderedImages st') = length (orderedImages st)
  /\ (forall img', In img' (orderedImages st') ->
        (img_destacada img' = true <-> img_storage_id img' = storage_id))
  /\ ((forall img, In img (orderedImages st) -> img_storage_id img <> storage_id) ->
        forall img', In img' (orderedImages st') -> img_destacada img' = false)
  /\ imagesToDelete st' = imagesToDelete st
  /\ revokedUrls st' = revokedUrls st
  /\ isInitialized st' = isInitialized st.
Proof.
  cbn. split; [|split; [|split; [|split]]].
  - intros i img Hi. by rewrite list_lookup_fmap, Hi.
  - apply length_map.
  - intros img' Hin. apply in_map_iff in Hin as (img & <- & _).
    cbn. apply String.eqb_eq.
  - intros Hnone img' Hin. apply in_map_iff in Hin as (img & <- & Hin).
    cbn. apply String.eqb_neq. by apply Hnone.
  - done.
Qed.

(** C4, counterexample: no image of [oneImage] has the storage id
    ["missing"], yet the call changes the collection: the only image
    loses its flag. *)
Lemma C4_not_found_clears_the_flag :
  (forall img, In img (orderedImages oneImage) -> img_storage_id img <> "missing")
  /\ orderedImages (handleSetDestacada "missing" oneImage) <> orderedImages oneImage
  /\ countFeatured (orderedImages (handleSetDestacada "missing" oneImage)) = 0%nat.
Proof.
  split; [|split].
  - intros img [<- | []]. discriminate.
  - discriminate.
  - reflexivity.
Qed.

(** *** The single featured image *)

Lemma countFeatured_app l1 l2 :
  countFeatured (l1 ++ l2) = (countFeatured l1 + countFeatured l2)%nat.
Proof. unfold countFeatured. by rewrite List.filter_app, length_app. Qed.

Lemma countFeatured_cons img l :
  countFeatured (img :: l)
    = ((if img_destacada img then 1 else 0) + countFeatured l)%nat.
Proof. unfold countFeatured. cbn. by destruct (img_destacada img). Qed.

Lemma countFeatured_Permutation l1 l2 :
  Permutation l1 l2 -> countFeatured l1 = countFeatured l2.
Proof.
  induction 1; rewrite ?countFeatured_cons in *; lia.
Qed.

Lemma countFeatured_none l :
  forallb (fun img => negb (img_destacada img)) l = true <-> countFeatured l = 0%nat.
Proof.
  induction l as [|img l IH]; [done|].
  rewrite countFeatured_cons. cbn.
  destruct (img_destacada img); cbn; [split; [discriminate | lia]|].
  by rewrite IH.
Qed.

Lemma destacarPrimera_ids l :
  map img_id (destacarPrimera l) = map img_id l /\
  map img_storage_id (destacarPrimera l) = map img_storage_id l.
Proof. by destruct l as [|[] l]. Qed.

Lemma destacarPrimera_count l :
  l <> [] -> countFeatured l = 0%nat -> countFeatured (destacarPrimera l) = 1%nat.
Proof.
  destruct l as [|img l]; [done|]. intros _.
  unfold destacarPrimera. rewrite !countFeatured_cons.
  destruct img as [? ? ? ? [] ? ?]; cbn; lia.
Qed.

Lemma destacarPrimera_nil l : destacarPrimera l = [] <-> l = [].
Proof. by destruct l. Qed.

(** New images: only the first can carry the flag, and only when the
    collection was empty. *)
Lemma newImages_shape current files :
  imap (newImage current) files =
  match files with
  | [] => []
  | p :: rest => newImage current 0 p :: map (newImage current 1) rest
  end.
Proof.
  destruct files as [|p rest]; [done|].
  cbn. f_equal. rewrite <- imap_const. by apply imap_ext.
Qed.

Lemma newImages_ids current files :
  map img_id (imap (newImage current) files) = map pick_uuid files /\
  map img_storage_id (imap (newImage current) files) = map pick_uuid files.
Proof.
  rewrite newImages_shape. destruct files as [|p rest]; [done|].
  cbn. rewrite !map_map. done.
Qed.

Lemma newImages_rest_count current rest :
  countFeatured (map (newImage current 1) rest) = 0%nat.
Proof.
  induction rest as [|p rest IH]; [done|].
  cbn [map]. rewrite countFeatured_cons, IH. cbn. by rewrite andb_false_r.
Qed.

Lemma handleFileSelect_wellFormed files st :
  wellFormed st -> offered st (AddFiles files) ->
  wellFormed (handleFileSelect files st).
Proof.
  intros (Hid & Hsid & Hone) (Hfresh & Hnew).
  unfold wellFormed, handleFileSelect. cbn [orderedImages setOrderedImages].
  set (current := orderedImages st) in *.
  set (fresh := imap (newImage current) files).
  set (added := if (0 <? length fresh)%nat && _ then _ else _).
  assert (Hids : map img_id added = map pick_uuid files /\
                 map img_storage_id added = map pick_uuid files).
  { subst added. destruct (_ && _).
    - destruct (destacarPrimera_ids fresh) as [-> ->]. apply newImages_ids.
    - apply newImages_ids. }
  destruct Hids as [Hi Hs].
  split; [|split].
  - rewrite map_app, Hi. apply NoDup_app. repeat split; try done.
    intros x Hx Hx'. apply list_elem_of_In, in_map_iff in Hx as (img & <- & Himg).
    apply list_elem_of_In, in_map_iff in Hx' as (p & Hp & Hpin).
    by destruct (Hnew p img Hpin Himg).
  - rewrite map_app, Hs. apply NoDup_app. repeat split; try done.
    intros x Hx Hx'. apply list_elem_of_In, in_map_iff in Hx as (img & <- & Himg).
    apply list_elem_of_In, in_map_iff in Hx' as (p & Hp & Hpin).
    by destruct (Hnew p img Hpin Himg).
  - intros Hne. rewrite countFeatured_app.
    subst added fresh. rewrite newImages_shape.
    destruct current as [|img0 current'] eqn:Hcur.
    + destruct files as [|p rest]; [done|].
      cbn [length forallb andb Nat.ltb Nat.leb destacarPrimera countFeatured].
      rewrite countFeatured_cons, newImages_rest_count. done.
    + rewrite (Hone ltac:(done)).
      assert (Hsome : forallb (fun img => negb (img_destacada img)) (img0 :: current') = false).
      { apply not_true_is_false. rewrite countFeatured_none, Hone; done. }
      rewrite Hsome, andb_false_r.
      destruct files as [|p rest]; [done|].
      rewrite countFeatured_cons, newImages_rest_count. done.
Qed.

(** Marking one image. *)
Lemma setFeatured_count storage_id l :
  NoDup (map img_storage_id l) ->
  (exists img, In img l /\ img_storage_id img = storage_id) ->
  countFeatured
    (map (fun img => setDestacada (String.eqb (img_storage_id img) storage_id) img) l)
  = 1%nat.
Proof.
  induction l as [|x l IH]; intros Hnd (img & Hin & Hsid); [done|].
  cbn [map]. rewrite countFeatured_cons. cbn [map] in Hnd.
  apply NoDup_cons in Hnd as [Hx Hnd].
  destruct (setDestacada_fields (String.eqb (img_storage_id x) storage_id) x)
    as (_ & _ & ->).
  destruct (String.eqb_spec (img_storage_id x) storage_id) as [Heq|Hneq].
  - assert (Hzero : countFeatured
      (map (fun img => setDestacada (String.eqb (img_storage_id img) storage_id) img) l)
      = 0%nat); [|lia].
    apply countFeatured_none, forallb_forall. intros y Hy.
    apply in_map_iff in Hy as (z & <- & Hz). cbn.
    apply negb_true_iff, String.eqb_neq. intros Hz'.
    apply Hx, list_elem_of_In, in_map_iff. exists z. split; [congruence|done].
  - rewrite IH; [done|done|]. exists img. split; [|done].
    destruct Hin as [->|Hin]; [congruence|done].
Qed.

Lemma handleSetDestacada_wellFormed storage_id st :
  wellFormed st -> offered st (SetFeatured storage_id) ->
  wellFormed (handleSetDestacada storage_id st).
Proof.
  intros (Hid & Hsid & _) Hex.
  unfold wellFormed, handleSetDestacada. cbn [orderedImages setOrderedImages].
  rewrite !map_map. cbn.
  repeat split; try done.
  intros _. by apply setFeatured_count.
Qed.

(** Taking one image out. *)
Lemma filter_other_ids x l :
  NoDup (map img_id l) -> In x l ->
  countFeatured l
    = (countFeatured
         (List.filter (fun img => negb (String.eqb (img_id img) (img_id x))) l)
       + (if img_destacada x then 1 else 0))%nat.
Proof.
  induction l as [|y l IH]; intros Hnd Hin; [done|].
  cbn [map] in Hnd. apply NoDup_cons in Hnd as [Hy Hnd].
  cbn [List.filter]. rewrite countFeatured_cons.
  destruct Hin as [->|Hin].
  - rewrite String.eqb_refl. cbn [negb].
    rewrite forallb_filter_id; [lia|].
    apply forallb_forall. intros z Hz. apply negb_true_iff, String.eqb_neq.
    intros Hzx. apply Hy, list_elem_of_In, in_map_iff. by exists z.
  - destruct (String.eqb_spec (img_id y) (img_id x)) as [Heq|Hneq].
    + exfalso. apply Hy, list_elem_of_In, in_map_iff. by exists x.
    + cbn [negb]. rewrite countFeatured_cons, (IH Hnd Hin). lia.
Qed.

Lemma NoDup_map_filter {A B} (f : A -> B) (p : A -> bool) l :
  NoDup (map f l) -> NoDup (map f (List.filter p l)).
Proof.
  induction l as [|x l IH]; [done|]. cbn. intros Hnd.
  apply NoDup_cons in Hnd as [Hx Hnd].
  destruct (p x); [|by apply IH]. cbn. apply NoDup_cons. split; [|by apply IH].
  intros Hin. apply Hx. apply list_elem_of_In, in_map_iff in Hin as (y & <- & Hy).
  apply list_elem_of_In, in_map. by apply filter_In in Hy as [? _].
Qed.

Lemma handleRemoveImage_orderedImages imageToRemove st :
  orderedImages (handleRemoveImage imageToRemove st) =
  let remaining :=
    List.filter (fun img => negb (String.eqb (img_id img) (img_id imageToRemove)))
      (orderedImages st) in
  if img_destacada imageToRemove && (0 <? length remaining)%nat
  then destacarPrimera remaining else remaining.
Proof. unfold handleRemoveImage. by destruct (img_isNew imageToRemove). Qed.

Lemma handleRemoveImage_wellFormed imageToRemove st :
  wellFormed st -> offered st (Remove imageToRemove) ->
  wellFormed (handleRemoveImage imageToRemove st).
Proof.
  intros (Hid & Hsid & Hone) Hin. cbn in Hin.
  unfold wellFormed. rewrite handleRemoveImage_orderedImages. cbn zeta.
  set (remaining := List.filter _ _).
  assert (Hrid : NoDup (map img_id remaining)) by by apply NoDup_map_filter.
  assert (Hrsid : NoDup (map img_storage_id remaining)) by by apply NoDup_map_filter.
  pose proof (filter_other_ids imageToRemove _ Hid Hin) as Hcount.
  fold remaining in Hcount.
  assert (Hne : orderedImages st <> []) by (intros Hnil; by rewrite Hnil in Hin).
  rewrite (Hone Hne) in Hcount.
  destruct (img_destacada imageToRemove); cbn [andb].
  - destruct remaining as [|r remaining'] eqn:Hrem; [done|].
    change (0 <? length (r :: remaining'))%nat with true. cbn iota.
    destruct (destacarPrimera_ids (r :: remaining')) as [-> ->].
    repeat split; try done. intros _. apply destacarPrimera_count; [done|lia].
  - repeat split; try done. intros _. lia.
Qed.

(** Moving one image. *)
Lemma arrayMove_Permutation {A} (l : list A) from to :
  Permutation l (arrayMove l from to).
Proof.
  unfold arrayMove. destruct (l !! from) as [x|] eqn:Hx; [|done].
  rewrite (delete_Permutation l from x Hx) at 1.
  rewrite <- (take_drop to (delete from l)) at 1.
  apply Permutation_middle.
Qed.

Lemma onDragEnd_Permutation active over st :
  Permutation (orderedImages st) (orderedImages (onDragEnd active over st)).
Proof.
  unfold onDragEnd. destruct over as [overId|]; [|done].
  destruct (String.eqb active overId); [done|].
  destruct (findIndex _ _); [|done]. destruct (findIndex _ _); [|done].
  apply arrayMove_Permutation.
Qed.

Lemma onDragEnd_wellFormed active over st :
  wellFormed st -> wellFormed (onDragEnd active over st).
Proof.
  intros (Hid & Hsid & Hone).
  pose proof (onDragEnd_Permutation active over st) as Hperm.
  unfold wellFormed. repeat split.
  - by rewrite <- (Permutation_map img_id Hperm).
  - by rewrite <- (Permutation_map img_storage_id Hperm).
  - intros Hne. rewrite <- (countFeatured_Permutation _ _ Hperm). apply Hone.
    intros Hnil. rewrite Hnil in Hperm. by apply Permutation_nil in Hperm.
Qed.

Lemma step_wellFormed st ev :
  wellFormed st -> offered st ev -> wellFormed (step st ev).
Proof.
  destruct ev; cbn [step]; intros Hwf Hoff.
  - by apply handleFileSelect_wellFormed.
  - by apply handleRemoveImage_wellFormed.
  - by apply onDragEnd_wellFormed.
  - by apply handleSetDestacada_wellFormed.
Qed.

Lemma run_wellFormed evs : forall st,
  wellFormed st -> offeredAll st evs -> wellFormed (run st evs).
Proof.
  induction evs as [|ev evs IH]; intros st Hwf Hoff; [done|].
  destruct Hoff as [Hev Hrest]. cbn. apply IH; [|done]. by apply step_wellFormed.
Qed.

Lemma offeredAll_take evs : forall st n,
  offeredAll st evs -> offeredAll st (take n evs).
Proof.
  induction evs as [|ev evs IH]; intros st n Hoff; [by destruct n|].
  destruct n as [|n]; [done|]. destruct Hoff as [Hev Hrest].
  cbn. split; [done|]. by apply IH.
Qed.

Lemma initialState_wellFormed : wellFormed initialState.
Proof. repeat split; try constructor. done. Qed.

(** C1: in every state the editor reaches from its initial, empty
    collection by the actions the rendered component sends to its
    handlers -- files selected (their generated ids are new), the cross
    or the star of an image of the collection, a drag -- a collection
    that is not empty has exactly one featured image; this holds after
    every action of the sequence.  Ids and storage ids stay distinct on
    the way. *)
Theorem C1_one_featured_after_offered_actions (evs : list Event) (n : nat) :
  offeredAll initialState evs ->
  (orderedImages (run initialState (take n evs)) <> [] ->
   countFeatured (orderedImages (run initialState (take n evs))) = 1%nat)
  /\ NoDup (map img_id (orderedImages (run initialState (take n evs))))
  /\ NoDup (map img_storage_id (orderedImages (run initialState (take n evs)))).
Proof.
  intros Hoff.
  destruct (run_wellFormed (take n evs) initialState initialState_wellFormed
              (offeredAll_take evs initialState n Hoff)) as (Hids & Hstorage & Hone).
  split; [exact Hone|]. by split.
Qed.

Lemma C1_one_featured_witness :
  orderedImages (run initialState (take 3 sampleSession)) <> []
  /\ countFeatured (orderedImages (run initialState (take 3 sampleSession))) = 1%nat.
Proof.
  assert (Hoffered : offeredAll initialState sampleSession).
  { unfold sampleSession. cbn [offeredAll offered].
    split; [split|split; [|split; [done|split; [|done]]]].
    + apply NoDup_cons. split; [|apply NoDup_singleton].
      intros Hin. apply list_elem_of_singleton in Hin. discriminate.
    + intros p img _ [].
    + exists (setDestacada false imageBFeatured). vm_compute. tauto.
    + vm_compute. tauto. }
  destruct (C1_one_featured_after_offered_actions sampleSession 3 Hoffered)
    as (Hone & _).
  split; [vm_compute; discriminate|]. apply Hone. vm_compute. discriminate.
Defined.

(** *** [handleRemoveImage] *)

(** C6: removing a persisted image appends its [{id, storage_id}] to the
    deletion list and revokes nothing; removing a new image revokes its
    preview address once and appends nothing.  Either way no image with
    the removed id is left, and the images with another id stay in their
    order. *)
Theorem C6_remove_records_or_releases
    (imageToRemove : ImageUploaderImage) (st : EditorState) :
  (if img_isNew imageToRemove
   then imagesToDelete (handleRemoveImage imageToRemove st) = imagesToDelete st
        /\ revokedUrls (handleRemoveImage imageToRemove st)
           = revokedUrls st ++ [img_url imageToRemove]
   else imagesToDelete (handleRemoveImage imageToRemove st)
        = imagesToDelete st
            ++ [ {| del_id := img_id imageToRemove;
                    del_storage_id := img_storage_id imageToRemove |} ]
        /\ revokedUrls (handleRemoveImage imageToRemove st) = revokedUrls st)
  /\ ~ In imageToRemove (orderedImages (handleRemoveImage imageToRemove st))
  /\ ~ In (img_id imageToRemove)
         (map img_id (orderedImages (handleRemoveImage imageToRemove st)))
  /\ map img_id (orderedImages (handleRemoveImage imageToRemove st))
     = List.filter (fun id => negb (String.eqb id (img_id imageToRemove)))
         (map img_id (orderedImages st)).
Proof.
  assert (Hids : map img_id (orderedImages (handleRemoveImage imageToRemove st))
     = List.filter (fun id => negb (String.eqb id (img_id imageToRemove)))
         (map img_id (orderedImages st))).
  { rewrite handleRemoveImage_orderedImages. cbn zeta.
    assert (Hf : forall l,
      map img_id (List.filter
        (fun img => negb (String.eqb (img_id img) (img_id imageToRemove))) l)
      = List.filter (fun id => negb (String.eqb id (img_id imageToRemove)))
          (map img_id l)).
    { induction l as [|x l IH]; [done|]. cbn.
      destruct (negb _); cbn; by rewrite IH. }
    destruct (_ && _); [|apply Hf].
    destruct (destacarPrimera_ids (List.filter
      (fun img => negb (String.eqb (img_id img) (img_id imageToRemove)))
      (orderedImages st))) as [-> _]. apply Hf. }
  assert (Hgone : ~ In (img_id imageToRemove)
         (map img_id (orderedImages (handleRemoveImage imageToRemove st)))).
  { rewrite Hids. intros Hin. apply filter_In in Hin as [_ Hne].
    by rewrite String.eqb_refl in Hne. }
  split; [|split; [|split]]; try done.
  - unfold handleRemoveImage. by destruct (img_isNew imageToRemove).
  - intros Hin. apply Hgone. by apply in_map.
Qed.

(** *** Change-set extraction *)

Lemma fold_collectFile_snoc imgs img (m : gmap string File) :
  fold_left collectFile (imgs ++ [img]) m = collectFile (fold_left collectFile imgs m) img.
Proof. by rewrite fold_left_app. Qed.

Lemma filesToUpload_lookup imgs img f :
  NoDup (map img_storage_id imgs) ->
  In img imgs -> img_isNew img = true -> img_file img = Some f ->
  fold_left collectFile imgs (∅ : gmap string File) !! img_storage_id img = Some f.
Proof.
  induction imgs as [|x imgs IH] using rev_ind; intros Hnd Hin Hnew Hfile; [done|].
  rewrite fold_collectFile_snoc.
  rewrite map_app in Hnd. apply NoDup_app in Hnd as (Hnd & Hdisj & _).
  apply in_app_iff in Hin as [Hin|[->|[]]].
  - assert (Hne : img_storage_id x <> img_storage_id img).
    { intros Heq. apply (Hdisj (img_storage_id img)).
      - apply list_elem_of_In, in_map. done.
      - rewrite <- Heq. apply list_elem_of_In. by left. }
    unfold collectFile. destruct (img_isNew x), (img_file x);
      rewrite ?lookup_insert_ne by done; by apply IH.
  - unfold collectFile. rewrite Hnew, Hfile. apply lookup_insert_eq.
Qed.

Lemma filesToUpload_origin imgs k f :
  fold_left collectFile imgs (∅ : gmap string File) !! k = Some f ->
  exists img, In img imgs /\ img_isNew img = true /\ img_file img = Some f
              /\ img_storage_id img = k.
Proof.
  induction imgs as [|x imgs IH] using rev_ind; intros Hk; [done|].
  rewrite fold_collectFile_snoc in Hk.
  assert (Hold : fold_left collectFile imgs (∅ : gmap string File) !! k = Some f ->
    exists img, In img (imgs ++ [x]) /\ img_isNew img = true /\ img_file img = Some f
              /\ img_storage_id img = k).
  { intros H. destruct (IH H) as (img & Hin & Hrest). exists img.
    split; [apply in_app_iff; by left | done]. }
  unfold collectFile in Hk.
  destruct (img_isNew x) eqn:Hnew; [|by apply Hold].
  destruct (img_file x) as [g|] eqn:Hfile; [|by apply Hold].
  destruct (decide (img_storage_id x = k)) as [Heq|Hne].
  - rewrite Heq, lookup_insert_eq in Hk. injection Hk as ->.
    exists x. split; [apply in_app_iff; right; by left | done].
  - rewrite lookup_insert_ne in Hk by done. by apply Hold.
Qed.

Lemma imap_toMetadata_indices imgs : forall k,
  map meta_order_index (imap (fun i => toMetadata (k + i)) imgs)
  = map (fun i => Z.of_nat i + 1) (seq k (length imgs)).
Proof.
  induction imgs as [|x imgs IH]; intros k; [done|].
  cbn. f_equal; [f_equal; lia|].
  rewrite <- (IH (S k)). f_equal. apply imap_ext. intros i y _. cbn.
  by replace (k + S i)%nat with (S (k + i)) by lia.
Qed.

(** C5: extraction gives the image at position [i] the order index
    [i + 1] with its storage id, origin and current flag, so the indices
    are [1, 2, ..., n] in array order; the payload map holds, under the
    storage id of a new image, its file (ids being distinct) and nothing
    that is not such a file; the deletion list is handed on as it is;
    and the result is determined by the ordered images and the deletion
    list alone. *)
Theorem C5_extraction_is_positional_and_pure
    (imgs : list ImageUploaderImage) (dels : list DeleteEntry) :
  (forall i img, imgs !! i = Some img ->
     exists meta, orderedImagesMetadata (extractChanges imgs dels) !! i = Some meta
       /\ meta_order_index meta = Z.of_nat i + 1
       /\ meta_destacada meta = img_destacada img
       /\ meta_storage_id meta = img_storage_id img
       /\ meta_isNew meta = img_isNew img)
  /\ map meta_order_index (orderedImagesMetadata (extractChanges imgs dels))
     = map (fun i => Z.of_nat i + 1) (seq 0 (length imgs))
  /\ (NoDup (map img_storage_id imgs) ->
      forall img f, In img imgs -> img_isNew img = true -> img_file img = Some f ->
        filesToUpload (extractChanges imgs dels) !! img_storage_id img = Some f)
  /\ (forall k f, filesToUpload (extractChanges imgs dels) !! k = Some f ->
        exists img, In img imgs /\ img_isNew img = true /\ img_file img = Some f
                    /\ img_storage_id img = k)
  /\ imageIdsToDelete (extractChanges imgs dels) = dels
  /\ (forall st1 st2,
        orderedImages st1 = imgs -> orderedImages st2 = imgs ->
        imagesToDelete st1 = dels -> imagesToDelete st2 = dels ->
        notifyChanges st1 = notifyChanges st2
        /\ map meta_order_index (orderedImagesMetadata (notifyChanges st1))
           = map meta_order_index (orderedImagesMetadata (notifyChanges st2))).
Proof.
  repeat apply conj.
  - intros i img Hi. exists (toMetadata i img). cbn.
    rewrite list_lookup_imap, Hi. done.
  - cbn. apply (imap_toMetadata_indices imgs 0).
  - intros Hnd img f. by apply filesToUpload_lookup.
  - intros k f. apply filesToUpload_origin.
  - reflexivity.
  - intros st1 st2 H1 H2 H3 H4. unfold notifyChanges.
    by rewrite H1, H2, H3, H4.
Qed.

Lemma C5_extraction_witness :
  filesToUpload (extractChanges [imageA; setDestacada false imageBFeatured] [])
    !! "uuid-b" = Some fileB.
Proof.
  assert (Hnd : NoDup (map img_storage_id [imageA; setDestacada false imageBFeatured])).
  { vm_compute. apply NoDup_cons. split; [|apply NoDup_singleton].
    intros Hin. apply list_elem_of_singleton in Hin. discriminate. }
  destruct (C5_extraction_is_positional_and_pure
              [imageA; setDestacada false imageBFeatured] [])
    as (_ & _ & Hfiles & _).
  apply (Hfiles Hnd (setDestacada false imageBFeatured) fileB);
    [right; left; reflexivity | reflexivity | reflexivity].
Defined.

(** *** Seeding *)

Lemma sortInsert_Permutation a l : Permutation (a :: l) (sortInsert a l).
Proof.
  induction l as [|b l IH]; [done|]. cbn.
  destruct (comparePositive a b); [|done].
  rewrite <- IH. apply perm_swap.
Qed.

Lemma sortByOrderIndex_Permutation l : Permutation l (sortByOrderIndex l).
Proof.
  induction l as [|a l IH]; [done|]. cbn.
  rewrite <- sortInsert_Permutation. by constructor.
Qed.

Lemma comparePositive_parsed a b :
  parses a -> parses b ->
  comparePositive a b = (orderKey b <? orderKey a)%Z.
Proof.
  unfold parses, comparePositive, orderKey.
  by destruct (parseInt10 (ex_order_index a)), (parseInt10 (ex_order_index b)).
Qed.

Lemma sortInsert_sorted a l :
  parses a -> Forall parses l ->
  StronglySorted ascending l -> StronglySorted ascending (sortInsert a l).
Proof.
  intros Ha Hl Hs. induction Hs as [|b l Hs IH Hb]; cbn.
  - repeat constructor.
  - apply Forall_cons in Hl as [Hpb Hl].
    rewrite (comparePositive_parsed a b Ha Hpb).
    destruct (Z.ltb_spec (orderKey b) (orderKey a)) as [Hlt|Hge].
    + constructor; [by apply IH|].
      rewrite <- (sortInsert_Permutation a l). constructor; [|done].
      unfold ascending. lia.
    + constructor; [by constructor|]. constructor; [done|].
      eapply Forall_impl; [exact Hb|]. unfold ascending. cbn. intros c Hc. lia.
Qed.

Lemma sortByOrderIndex_sorted l :
  Forall parses l -> StronglySorted ascending (sortByOrderIndex l).
Proof.
  induction l as [|a l IH]; intros Hl; [constructor|].
  apply Forall_cons in Hl as [Ha Hl]. cbn. apply sortInsert_sorted; [done| |by apply IH].
  by rewrite <- sortByOrderIndex_Permutation.
Qed.

Lemma seed_initialState existingImages :
  orderedImages (seed existingImages initialState)
  = map loadExisting (sortByOrderIndex existingImages).
Proof. by destruct existingImages. Qed.

Lemma seed_isInitialized existingImages st :
  isInitialized (seed existingImages st) = true.
Proof.
  unfold seed. destruct (isInitialized st) eqn:Hi; [done|].
  by destruct (0 <? length existingImages)%nat.
Qed.

Lemma step_isInitialized st ev : isInitialized (step st ev) = isInitialized st.
Proof.
  destruct ev as [files|img|active over|sid]; cbn; try done.
  - unfold handleRemoveImage. by destruct (img_isNew img).
  - unfold onDragEnd. destruct over as [overId|]; [|done].
    destruct (String.eqb active overId); [done|].
    destruct (findIndex _ _); [|done]. by destruct (findIndex _ _).
Qed.

Lemma run_isInitialized evs : forall st,
  isInitialized (run st evs) = isInitialized st.
Proof.
  unfold run. induction evs as [|ev evs IH]; intros st; [done|].
  cbn. by rewrite IH, step_isInitialized.
Qed.

Lemma seed_when_initialized existingImages st :
  isInitialized st = true -> seed existingImages st = st.
Proof. intros Hi. unfold seed. by rewrite Hi. Qed.

Lemma readsSafely_parses (e : ExistingImage) : readsSafely e -> parses e.
Proof. intros (z & Hz & _). unfold parses. by rewrite Hz. Qed.

(** What one row becomes when it is loaded. *)
Lemma loadExisting_fields (e : ExistingImage) (z : Z) :
  parseInt10 (ex_order_index e) = Int z ->
  img_id (loadExisting e) = ex_id e
  /\ img_url (loadExisting e) = ex_url e
  /\ img_storage_id (loadExisting e) = ex_storage_id e
  /\ img_destacada (loadExisting e) = ex_destacada e
  /\ img_order_index (loadExisting e) = Some (Int z)
  /\ img_isNew (loadExisting e) = false
  /\ img_file (loadExisting e) = None.
Proof. intros Hz. cbn. by rewrite Hz. Qed.

(** C9: when every persisted order index reads as a (safe) integer,
    seeding a fresh editor loads exactly the given rows (a permutation
    of them, in ascending order of that number), each as a persisted
    image that carries the id, address, storage id and flag of its row,
    the number read as its order index, and no file; nothing is queued
    for deletion or revoked and the editor counts as seeded.  Once a
    seed has run, whatever the user did since, a further seed returns
    the state it was given. *)
Theorem C9_seed_sorts_once (existingImages : list ExistingImage) :
  Forall readsSafely existingImages ->
  (exists sorted,
     orderedImages (seed existingImages initialState) = map loadExisting sorted
     /\ Permutation existingImages sorted
     /\ StronglySorted ascending sorted
     /\ Forall2 (fun img e =>
                   img_id img = ex_id e
                   /\ img_url img = ex_url e
                   /\ img_storage_id img = ex_storage_id e
                   /\ img_destacada img = ex_destacada e
                   /\ img_order_index img = Some (Int (orderKey e))
                   /\ img_isNew img = false
                   /\ img_file img = None)
          (orderedImages (seed existingImages initialState)) sorted)
  /\ Forall (fun img => img_isNew img = false)
       (orderedImages (seed existingImages initialState))
  /\ StronglySorted (fun a b => loadedOrder a <= loadedOrder b)
       (orderedImages (seed existingImages initialState))
  /\ imagesToDelete (seed existingImages initialState) = []
  /\ revokedUrls (seed existingImages initialState) = []
  /\ isInitialized (seed existingImages initialState) = true
  /\ (forall st evs again,
        seed again (run (seed existingImages st) evs) = run (seed existingImages st) evs).
Proof.
  intros Hsafe.
  assert (Hparse : Forall parses existingImages).
  { eapply Forall_impl; [exact Hsafe|]. apply readsSafely_parses. }
  assert (Hcells : imagesToDelete (seed existingImages initialState) = []
                   /\ revokedUrls (seed existingImages initialState) = []
                   /\ isInitialized (seed existingImages initialState) = true).
  { by destruct existingImages. }
  rewrite seed_initialState. repeat apply conj; try apply Hcells.
  - exists (sortByOrderIndex existingImages). repeat split.
    + apply sortByOrderIndex_Permutation.
    + by apply sortByOrderIndex_sorted.
    + assert (Hp : Forall parses (sortByOrderIndex existingImages))
        by by rewrite <- sortByOrderIndex_Permutation.
      induction Hp as [|e l He _ IH]; [constructor|].
      cbn [map]. constructor; [|exact IH].
      unfold parses in He. unfold orderKey.
      destruct (parseInt10 (ex_order_index e)) as [|z] eqn:Hz; [done|].
      by apply loadExisting_fields.
  - apply List.Forall_forall. intros img Hin.
    by apply in_map_iff in Hin as (e & <- & _).
  - pose proof (sortByOrderIndex_sorted existingImages Hparse) as Hs.
    assert (Hp : Forall parses (sortByOrderIndex existingImages))
      by by rewrite <- sortByOrderIndex_Permutation.
    induction Hs as [|a l Hs IH Ha]; [constructor|].
    apply Forall_cons in Hp as [Hpa Hp]. cbn [map]. constructor; [by apply IH|].
    apply List.Forall_forall. intros img Hin.
    apply in_map_iff in Hin as (b & <- & Hb).
    rewrite List.Forall_forall in Ha. specialize (Ha b Hb).
    unfold ascending, orderKey in Ha. unfold loadedOrder, loadExisting. cbn.
    done.
  - intros st evs again. apply seed_when_initialized.
    by rewrite run_isInitialized, seed_isInitialized.
Qed.

Lemma C9_seed_witness :
  map img_id (orderedImages (seed persistedThree initialState)) = ["id1"; "id2"; "id3"]
  /\ StronglySorted (fun a b => loadedOrder a <= loadedOrder b)
       (orderedImages (seed persistedThree initialState)).
Proof.
  assert (Hp : Forall readsSafely persistedThree).
  { unfold persistedThree.
    apply Forall_cons. split; [exists 3; split; reflexivity|].
    apply Forall_cons. split; [exists 1; split; reflexivity|].
    apply Forall_cons. split; [exists 2; split; reflexivity|].
    apply Forall_nil. exact I. }
  destruct (C9_seed_sorts_once persistedThree Hp) as (_ & _ & Hsorted & _).
  split; [reflexivity | exact Hsorted].
Defined.

(** *** Three sessions, run *)

(** Three persisted images, the second featured; the third is dragged
    onto the first. *)
Example session_reorder_after_seed :
  let st := run (seed persistedThree initialState) [Reorder "id3" (Some "id1")] in
  map (fun meta => (meta_id meta, meta_order_index meta, meta_destacada meta))
      (orderedImagesMetadata (notifyChanges st))
  = [ (Some "id3", 1, false); (Some "id1", 2, false); (Some "id2", 3, true) ]
  /\ imageIdsToDelete (notifyChanges st) = [].
Proof. split; reflexivity. Qed.

(** Two files into an empty editor, then the star on the second. *)
Example session_add_then_star :
  map (fun img => (img_id img, img_destacada img))
      (orderedImages (run initialState [AddFiles [pickA; pickB]]))
  = [ ("uuid-a", true); ("uuid-b", false) ]
  /\ map (fun img => (img_id img, img_destacada img))
       (orderedImages (run initialState [AddFiles [pickA; pickB]; SetFeatured "uuid-b"]))
     = [ ("uuid-a", false); ("uuid-b", true) ].
Proof. split; reflexivity. Qed.

(** The featured one of the persisted images is removed: the first of
    the rest takes the flag and the removed row is noted for deletion. *)
Example session_remove_featured :
  let st := run (seed persistedThree initialState) [Remove (loadExisting persistedSecond)] in
  map (fun img => (img_id img, img_destacada img)) (orderedImages st)
  = [ ("id1", true); ("id3", false) ]
  /\ imagesToDelete st = [ {| del_id := "id2"; del_storage_id := "s2" |} ]
  /\ revokedUrls st = [].
Proof. repeat split; reflexivity. Qed.

End EditorProperties.

(** * Properties of the submission handler *)

Section ServerProperties.
Import Server Samples.

Implicit Types (env : Env) (vehicleId : Z) (vehicleUuid : string)
  (formData : FormData) (metas : list ImageMetadata) (dels : list DeleteEntry).

(** *** The promises of the image step *)

Lemma reconcile_unfold env vehicleId vehicleUuid formData metas dels :
  reconcile env vehicleId vehicleUuid formData metas dels =
  ( concat (map fst (imagePromises env vehicleId vehicleUuid formData metas dels))
      ++ fst (updateUrlImg env vehicleId vehicleUuid metas),
    Fulfilled (Redirect "/vehiculos") ).
Proof.
  unfold reconcile, allSettled, bind.
  destruct (updateUrlImg env vehicleId vehicleUuid metas) as [calls [[]|e]] eqn:Hu.
  - cbn. by rewrite app_nil_r.
  - exfalso. unfold updateUrlImg in Hu.
    destruct (List.find _ metas) as [featured|]; [|discriminate].
    destruct (featuredImageUrl env vehicleId featured); discriminate.
Qed.

Lemma in_concat_map {A} (f : A -> Async ImageResult) (l : list A) (x : A) (c : Call) :
  In x l -> In c (fst (f x)) -> In c (concat (map fst (map f l))).
Proof.
  intros Hx Hc. apply in_concat. exists (fst (f x)). split; [|done].
  apply in_map, in_map. done.
Qed.



Lemma delete_calls_in_reconcile env vehicleId vehicleUuid formData metas dels d c :
  In d dels ->
  In c (fst (deleteImage env vehicleId d)) ->
  In c (fst (reconcile env vehicleId vehicleUuid formData metas dels)).
Proof.
  intros Hin Hc. rewrite reconcile_unfold. cbn [fst].
  apply in_app_iff. left. unfold imagePromises. rewrite !map_app, !concat_app.
  apply in_app_iff. right. apply in_app_iff. right. unfold deletePromises.
  by apply in_concat_map with (x := d).
Qed.

Lemma deleteImage_unfold env vehicleId d :
  deleteImage env vehicleId d =
  ( [ (DeleteOf d, StorageRemove [storagePathOf vehicleId (del_storage_id d)]);
      (DeleteOf d, ImagesDelete (del_id d)) ],
    Fulfilled (DeleteResult (imagesDelete env d)) ).
Proof. reflexivity. Qed.

Lemma updateOrder_unfold env meta :
  updateOrder env meta =
  ( [ (UpdateOf meta,
       ImagesUpdate (meta_id meta) (numberToString (meta_order_index meta))
         (boolToText (meta_destacada meta))) ],
    Fulfilled (UpdateResult (imagesUpdate env meta)) ).
Proof. reflexivity. Qed.

Lemma uploadImage_starts env vehicleId vehicleUuid formData meta file :
  formData_get (meta_storage_id meta) formData = Some (Blob file) ->
  In (UploadOf meta, StorageListBuckets)
     (fst (uploadImage env vehicleId vehicleUuid formData meta)).
Proof.
  intros Hfile. unfold uploadImage. rewrite Hfile. unfold bind, call.
  destruct (listBuckets env meta) as [e|buckets]; cbn; [by left|].
  destruct (negb _); cbn; [by left|].
  destruct (storageUpload env meta _ file); cbn; [by left|].
  destruct (imagesInsert env meta _); cbn; by left.
Qed.

Lemma uploadImage_skips env vehicleId vehicleUuid formData meta :
  (forall file, formData_get (meta_storage_id meta) formData <> Some (Blob file)) ->
  uploadImage env vehicleId vehicleUuid formData meta = ([], Fulfilled Skipped).
Proof.
  intros Hnone. unfold uploadImage.
  destruct (formData_get (meta_storage_id meta) formData) as [[s|file]|]; try done.
  by destruct (Hnone file).
Qed.

Lemma uploadImage_calls env vehicleId vehicleUuid formData meta c :
  In c (fst (uploadImage env vehicleId vehicleUuid formData meta)) ->
  uploadCallOf vehicleId formData meta c.
Proof.
  unfold uploadImage, uploadCallOf.
  destruct (formData_get (meta_storage_id meta) formData) as [[s|file]|]; try done.
  unfold bind, call.
  destruct (listBuckets env meta) as [e|buckets]; cbn;
    [|destruct (negb _); cbn;
      [|destruct (storageUpload env meta _ file); cbn;
        [|destruct (imagesInsert env meta _); cbn]]];
    intros Hin;
    repeat (destruct Hin as [<-|Hin]; [split; [done|]|]); try destruct Hin;
    first [ by left
          | right; left; eexists; split; reflexivity
          | right; right; eexists; split; reflexivity ].
Qed.

Lemma promise_calls env vehicleId vehicleUuid formData metas dels c :
  In c (concat (map fst (imagePromises env vehicleId vehicleUuid formData metas dels))) ->
  (exists meta, In meta metas /\ meta_isNew meta = true
                /\ In c (fst (uploadImage env vehicleId vehicleUuid formData meta)))
  \/ (exists meta, In meta metas /\ meta_isNew meta = false
                   /\ In c (fst (updateOrder env meta)))
  \/ (exists d, In d dels /\ In c (fst (deleteImage env vehicleId d))).
Proof.
  unfold imagePromises. rewrite !map_app, !concat_app, !in_app_iff.
  intros [H|[H|H]]; apply in_concat in H as (calls & Hcalls & Hc);
    apply in_map_iff in Hcalls as (p & <- & Hp);
    apply in_map_iff in Hp as (x & <- & Hx).
  - left. apply filter_In in Hx as [Hx Hnew]. by exists x.
  - right. left. apply filter_In in Hx as [Hx Hnew]. exists x.
    by apply negb_true_iff in Hnew.
  - right. right. by exists x.
Qed.

Lemma promise_calls_not_cover env vehicleId vehicleUuid formData metas dels c :
  In c (concat (map fst (imagePromises env vehicleId vehicleUuid formData metas dels))) ->
  isCoverWrite c = false.
Proof.
  intros Hc. apply promise_calls in Hc as [(meta & _ & _ & Hc)|[(meta & _ & _ & Hc)|(d & _ & Hc)]].
  - apply uploadImage_calls in Hc as (_ & [Hs|[(file & _ & Hs)|(row & Hs & _)]]);
      unfold isCoverWrite; by rewrite Hs.
  - rewrite updateOrder_unfold in Hc. by destruct Hc as [<-|[]].
  - rewrite deleteImage_unfold in Hc. by destruct Hc as [<-|[<-|[]]].
Qed.

Lemma updateUrlImg_calls env vehicleId vehicleUuid metas :
  fst (updateUrlImg env vehicleId vehicleUuid metas) =
  match List.find (fun meta => meta_destacada meta) metas with
  | Some featured =>
      match featuredImageUrl env vehicleId featured with
      | Some url => [(Main, VehiculosUpdateUrlImg vehicleUuid url)]
      | None => []
      end
  | None => []
  end.
Proof.
  unfold updateUrlImg. destruct (List.find _ metas) as [featured|]; [|done].
  by destruct (featuredImageUrl env vehicleId featured).
Qed.

Lemma filter_none {A} (p : A -> bool) (l : list A) :
  (forall x, In x l -> p x = false) -> List.filter p l = [].
Proof.
  induction l as [|x l IH]; intros H; [done|]. cbn.
  rewrite (H x) by by left. apply IH. intros y Hy. apply H. by right.
Qed.

Lemma encodeCodeUnit_not_empty (c : ascii) : encodeCodeUnit c <> "".
Proof.
  unfold encodeCodeUnit. destruct (isUriKept c); [done|].
  by destruct (nat_of_ascii c <? 128)%nat.
Qed.

Lemma encodeURI_app (s1 s2 : string) :
  encodeURI (s1 +:+ s2) = encodeURI s1 +:+ encodeURI s2.
Proof.
  induction s1 as [|c s1 IH]; [done|].
  change (encodeCodeUnit c +:+ encodeURI (s1 +:+ s2)
          = (encodeCodeUnit c +:+ encodeURI s1) +:+ encodeURI s2).
  rewrite IH. generalize (encodeCodeUnit c). intros prefix.
  induction prefix as [|d prefix IHp]; [done|].
  change (String d (prefix +:+ encodeURI s1 +:+ encodeURI s2)
          = String d ((prefix +:+ encodeURI s1) +:+ encodeURI s2)).
  by rewrite IHp.
Qed.

Lemma getPublicUrl_not_empty env path : String.eqb (getPublicUrl env path) "" = false.
Proof.
  apply String.eqb_neq. unfold getPublicUrl. rewrite !encodeURI_app.
  destruct (encodeURI (storageUrl env)); [|done]. by vm_compute.
Qed.

Lemma cover_calls env vehicleId vehicleUuid formData metas dels :
  List.filter isCoverWrite (fst (reconcile env vehicleId vehicleUuid formData metas dels))
  = fst (updateUrlImg env vehicleId vehicleUuid metas).
Proof.
  rewrite reconcile_unfold. cbn [fst]. rewrite List.filter_app.
  rewrite filter_none by apply promise_calls_not_cover.
  rewrite updateUrlImg_calls.
  destruct (List.find _ metas) as [featured|]; [|done].
  by destruct (featuredImageUrl env vehicleId featured).
Qed.





(** The calls of the image step in their order: first those of the
    image promises, none of which is made on behalf of the handler
    itself or writes the cover, then those of the cover step. *)
Lemma reconcile_order env vehicleId vehicleUuid formData metas dels :
  fst (reconcile env vehicleId vehicleUuid formData metas dels)
  = fst (allSettled (imagePromises env vehicleId vehicleUuid formData metas dels))
    ++ fst (updateUrlImg env vehicleId vehicleUuid metas)
  /\ Forall (fun c => isMain c = false /\ isCoverWrite c = false)
       (fst (allSettled (imagePromises env vehicleId vehicleUuid formData metas dels))).
Proof.
  split; [by rewrite reconcile_unfold|].
  apply List.Forall_forall. intros c Hc. cbn [allSettled fst] in Hc.
  split; [|by apply promise_calls_not_cover in Hc].
  apply promise_calls in Hc as [(meta & _ & _ & Hc)|[(meta & _ & _ & Hc)|(d & _ & Hc)]].
  - apply uploadImage_calls in Hc as (Horigin & _). unfold isMain. by rewrite Horigin.
  - rewrite updateOrder_unfold in Hc. by destruct Hc as [<-|[]].
  - rewrite deleteImage_unfold in Hc. by destruct Hc as [<-|[<-|[]]].
Qed.


(** *** The image step as a whole *)




(** The scenario of one failed upload and one failed deletion: the
    outcomes that are collected, and the calls that were still made. *)
Example stormy_reconciliation :
  snd (allSettled (imagePromises stormyEnv 7 "veh-uuid" sampleForm
                     [metaA; metaB; metaLost; metaOld] [deletion40]))
  = Fulfilled [ Rejected "upload failed"; Fulfilled InsertResult; Fulfilled Skipped;
                Fulfilled (UpdateResult None);
                Fulfilled (DeleteResult (Some "row locked")) ]
  /\ map snd (fst (reconcile stormyEnv 7 "veh-uuid" sampleForm
                     [metaA; metaB; metaLost; metaOld] [deletion40]))
     = [ StorageListBuckets; StorageUpload "7/uuid-a" fileA;
         StorageListBuckets; StorageUpload "7/uuid-b" fileB;
         ImagesInsert {| irow_vehicle_id := "veh-uuid";
                         irow_url := "https://store/object/public/imagen-vehiculo/7/uuid-b";
                         irow_order_index := "2"; irow_storage_id := "uuid-b";
                         irow_destacada := "false"; irow_id_v := "7" |};
         ImagesUpdate (Some "41") "4" "false";
         StorageRemove ["7/s40"]; ImagesDelete "40";
         VehiculosUpdateUrlImg "veh-uuid"
           "https://store/object/public/imagen-vehiculo/7/uuid-a" ].
Proof. split; reflexivity. Qed.

(** C3, as the code has it: the only write of the cover field is the one
    of the last step, and it is decided by the metadata alone: the first
    entry with the featured flag, for a new entry the public address of
    its storage path, for an existing entry its stored address unless
    that is absent or empty.  Without a featured entry nothing is
    written.  The answers of the stores to the image promises play no
    part.  The write comes after the image promises have settled: the
    calls of the image step are those of the promises, none of them a
    cover write, followed by the cover write, which is the last call. *)
Theorem C3_cover_follows_first_featured_entry
    env vehicleId vehicleUuid formData metas dels :
  List.filter isCoverWrite (fst (reconcile env vehicleId vehicleUuid formData metas dels))
  = match List.find (fun meta => meta_destacada meta) metas with
    | Some featured =>
        match featuredImageUrl env vehicleId featured with
        | Some url => [(Main, VehiculosUpdateUrlImg vehicleUuid url)]
        | None => []
        end
    | None => []
    end
  /\ (forall featured, meta_isNew featured = true ->
        featuredImageUrl env vehicleId featured
        = Some (getPublicUrl env (storagePathOf vehicleId (meta_storage_id featured))))
  /\ (forall featured, meta_isNew featured = false ->
        featuredImageUrl env vehicleId featured
        = match meta_url featured with
          | Some url => if String.eqb url "" then None else Some url
          | None => None
          end)
  /\ (List.find (fun meta => meta_destacada meta) metas = None ->
        forall c, In c (fst (reconcile env vehicleId vehicleUuid formData metas dels)) ->
        isCoverWrite c = false)
  /\ (forall env', storageUrl env' = storageUrl env ->
        map snd (List.filter isCoverWrite
                   (fst (reconcile env' vehicleId vehicleUuid formData metas dels)))
        = map snd (List.filter isCoverWrite
                     (fst (reconcile env vehicleId vehicleUuid formData metas dels))))
  /\ fst (reconcile env vehicleId vehicleUuid formData metas dels)
     = fst (allSettled (imagePromises env vehicleId vehicleUuid formData metas dels))
       ++ match List.find (fun meta => meta_destacada meta) metas with
          | Some featured =>
              match featuredImageUrl env vehicleId featured with
              | Some url => [(Main, VehiculosUpdateUrlImg vehicleUuid url)]
              | None => []
              end
          | None => []
          end
  /\ Forall (fun c => isCoverWrite c = false)
       (fst (allSettled (imagePromises env vehicleId vehicleUuid formData metas dels))).
Proof.
  repeat apply conj.
  - rewrite cover_calls. apply updateUrlImg_calls.
  - intros featured Hnew. unfold featuredImageUrl.
    by rewrite Hnew, getPublicUrl_not_empty.
  - intros featured Hold. unfold featuredImageUrl. rewrite Hold.
    by destruct (meta_url featured).
  - intros Hnone c Hc.
    destruct (isCoverWrite c) eqn:Hcover; [|done].
    assert (Hin : In c (List.filter isCoverWrite
              (fst (reconcile env vehicleId vehicleUuid formData metas dels))))
      by by apply filter_In.
    rewrite cover_calls, updateUrlImg_calls, Hnone in Hin. destruct Hin.
  - intros env' Hurl. rewrite !cover_calls, !updateUrlImg_calls.
    destruct (List.find _ metas) as [featured|]; [|done].
    assert (Hsame : featuredImageUrl env' vehicleId featured
                    = featuredImageUrl env vehicleId featured).
    { unfold featuredImageUrl, getPublicUrl. by rewrite Hurl. }
    rewrite Hsame. by destruct (featuredImageUrl env vehicleId featured).
  - rewrite <- updateUrlImg_calls. apply reconcile_order.
  - eapply Forall_impl; [apply reconcile_order|]. by intros c [_ Hc].
Qed.

Lemma C3_cover_witness :
  map snd (List.filter isCoverWrite
             (fst (reconcile stormyEnv 7 "veh-uuid" sampleForm [metaA; metaB] [])))
  = map snd (List.filter isCoverWrite
               (fst (reconcile calmEnv 7 "veh-uuid" sampleForm [metaA; metaB] []))).
Proof.
  destruct (C3_cover_follows_first_featured_entry calmEnv 7 "veh-uuid" sampleForm
              [metaA; metaB] []) as (_ & _ & _ & _ & Hsame & _).
  apply (Hsame stormyEnv). reflexivity.
Defined.

(** C3, counterexample: the form carries one new, featured entry and
    its file; the upload fails, so no entry succeeded; the cover field is
    written all the same, with the address the failed upload would have
    had. *)
Lemma C3_cover_written_after_failed_upload :
  snd (allSettled (imagePromises stormyEnv 7 "veh-uuid" sampleForm [metaA] []))
    = Fulfilled [Rejected "upload failed"]
  /\ List.filter isCoverWrite
       (fst (reconcile stormyEnv 7 "veh-uuid" sampleForm [metaA] []))
     = [ (Main, VehiculosUpdateUrlImg "veh-uuid"
                  "https://store/object/public/imagen-vehiculo/7/uuid-a") ].
Proof. split; reflexivity. Qed.

(** C8: for a deletion, the promise asks the object store to remove the
    object and then the table to delete the row, whatever either
    answers: the calls are the same under any other answers, the promise
    fulfils with the answer of the row deletion, both calls appear among
    the calls of the image step, and that step issues nothing else on
    behalf of this deletion (nothing puts the object back). *)
Theorem C8_object_and_row_removal_are_independent
    env vehicleId vehicleUuid formData metas dels d :
  In d dels ->
  fst (deleteImage env vehicleId d)
    = [ (DeleteOf d, StorageRemove [storagePathOf vehicleId (del_storage_id d)]);
        (DeleteOf d, ImagesDelete (del_id d)) ]
  /\ (forall env', fst (deleteImage env' vehicleId d) = fst (deleteImage env vehicleId d))
  /\ snd (deleteImage env vehicleId d) = Fulfilled (DeleteResult (imagesDelete env d))
  /\ In (DeleteOf d, StorageRemove [storagePathOf vehicleId (del_storage_id d)])
        (fst (reconcile env vehicleId vehicleUuid formData metas dels))
  /\ In (DeleteOf d, ImagesDelete (del_id d))
        (fst (reconcile env vehicleId vehicleUuid formData metas dels))
  /\ (forall c, In c (fst (reconcile env vehicleId vehicleUuid formData metas dels)) ->
        fst c = DeleteOf d ->
        c = (DeleteOf d, StorageRemove [storagePathOf vehicleId (del_storage_id d)])
        \/ c = (DeleteOf d, ImagesDelete (del_id d))).
Proof.
  intros Hin. repeat apply conj; try reflexivity.
  - apply (delete_calls_in_reconcile _ _ _ _ _ _ d); [done|]. by left.
  - apply (delete_calls_in_reconcile _ _ _ _ _ _ d); [done|]. right. by left.
  - intros c Hc Horigin. rewrite reconcile_unfold in Hc. cbn [fst] in Hc.
    apply in_app_iff in Hc as [Hc|Hc].
    + apply promise_calls in Hc
        as [(meta & _ & _ & Hc)|[(meta & _ & _ & Hc)|(d' & _ & Hc)]].
      * apply uploadImage_calls in Hc as (Ho & _). congruence.
      * rewrite updateOrder_unfold in Hc. destruct Hc as [<-|[]]. discriminate.
      * rewrite deleteImage_unfold in Hc.
        destruct Hc as [<-|[<-|[]]]; cbn in Horigin; injection Horigin as ->; auto.
    + rewrite updateUrlImg_calls in Hc.
      destruct (List.find _ metas) as [featured|]; [|destruct Hc].
      destruct (featuredImageUrl env vehicleId featured); [|destruct Hc].
      destruct Hc as [<-|[]]. discriminate.
Qed.

Lemma C8_deletion_witness :
  In (DeleteOf deletion40, ImagesDelete "40")
     (fst (reconcile stormyEnv 7 "veh-uuid" sampleForm [metaA] [deletion40])).
Proof.
  destruct (C8_object_and_row_removal_are_independent stormyEnv 7 "veh-uuid"
              sampleForm [metaA] [deletion40] deletion40)
    as (_ & _ & _ & _ & Hrow & _).
  - left. reflexivity.
  - exact Hrow.
Defined.

(** C10: a new entry whose storage id names no file in the form makes no
    call and its promise fulfils (no failure is recorded); among all the
    calls of the image step there is no upload to its storage path and no
    row insert with its storage id; and the step settles with the
    redirect. *)
Theorem C10_entry_without_binary_is_skipped
    env vehicleId vehicleUuid formData metas dels meta :
  In meta metas -> meta_isNew meta = true ->
  (forall file, formData_get (meta_storage_id meta) formData <> Some (Blob file)) ->
  uploadImage env vehicleId vehicleUuid formData meta = ([], Fulfilled Skipped)
  /\ (forall c, In c (fst (reconcile env vehicleId vehicleUuid formData metas dels)) ->
        fst c <> UploadOf meta)
  /\ (forall who file,
        ~ In (who, StorageUpload (storagePathOf vehicleId (meta_storage_id meta)) file)
             (fst (reconcile env vehicleId vehicleUuid formData metas dels)))
  /\ (forall who row,
        In (who, ImagesInsert row)
           (fst (reconcile env vehicleId vehicleUuid formData metas dels)) ->
        irow_storage_id row <> meta_storage_id meta)
  /\ In (Fulfilled Skipped)
        (map snd (imagePromises env vehicleId vehicleUuid formData metas dels))
  /\ snd (reconcile env vehicleId vehicleUuid formData metas dels)
     = Fulfilled (Redirect "/vehiculos").
Proof.
  intros Hin Hnew Hnone.
  pose proof (uploadImage_skips env vehicleId vehicleUuid formData meta Hnone) as Hskip.
  assert (Hupload : forall c,
    In c (fst (reconcile env vehicleId vehicleUuid formData metas dels)) ->
    (exists meta', uploadCallOf vehicleId formData meta' c)
    \/ (forall meta', fst c <> UploadOf meta') /\
       (forall path file, snd c <> StorageUpload path file) /\
       (forall row, snd c <> ImagesInsert row)).
  { intros c Hc. rewrite reconcile_unfold in Hc. cbn [fst] in Hc.
    apply in_app_iff in Hc as [Hc|Hc].
    - apply promise_calls in Hc
        as [(meta' & _ & _ & Hc)|[(meta' & _ & _ & Hc)|(d & _ & Hc)]].
      + left. exists meta'. by apply uploadImage_calls in Hc.
      + right. rewrite updateOrder_unfold in Hc. by destruct Hc as [<-|[]].
      + right. rewrite deleteImage_unfold in Hc. by destruct Hc as [<-|[<-|[]]].
    - right. rewrite updateUrlImg_calls in Hc.
      destruct (List.find _ metas) as [featured|]; [|destruct Hc].
      destruct (featuredImageUrl env vehicleId featured); [|destruct Hc].
      by destruct Hc as [<-|[]]. }
  repeat apply conj.
  - exact Hskip.
  - intros c Hc Horigin. rewrite reconcile_unfold in Hc. cbn [fst] in Hc.
    apply in_app_iff in Hc as [Hc|Hc].
    + apply promise_calls in Hc
        as [(meta' & _ & _ & Hc)|[(meta' & _ & _ & Hc)|(d & _ & Hc)]].
      * pose proof (uploadImage_calls _ _ _ _ _ _ Hc) as (Ho & _).
        rewrite Horigin in Ho. injection Ho as <-. by rewrite Hskip in Hc.
      * rewrite updateOrder_unfold in Hc. destruct Hc as [<-|[]]. discriminate.
      * rewrite deleteImage_unfold in Hc. by destruct Hc as [<-|[<-|[]]].
    + rewrite updateUrlImg_calls in Hc.
      destruct (List.find _ metas) as [featured|]; [|destruct Hc].
      destruct (featuredImageUrl env vehicleId featured); [|destruct Hc].
      destruct Hc as [<-|[]]. discriminate.
  - intros who file Hc.
    destruct (Hupload _ Hc) as [(meta' & _ & Hkind)|(_ & Hno & _)];
      [|exfalso; by eapply Hno].
    destruct Hkind as [Hk|[(file' & Hfile & Hk)|(row & Hk & _)]]; try discriminate.
    cbn in Hk. injection Hk as Hpath <-.
    unfold storagePathOf in Hpath.
    apply (inj (String.app _)) in Hpath. apply (inj (String.app "/")) in Hpath.
    rewrite Hpath in Hnone. by apply (Hnone file).
  - intros who row Hc Hsame.
    destruct (Hupload _ Hc) as [(meta' & Ho & Hkind)|(_ & _ & Hno)];
      [|exfalso; by eapply Hno].
    destruct Hkind as [Hk|[(file' & Hfile & Hk)|(row' & Hk & Hrow)]]; try discriminate.
    cbn in Hk. injection Hk as <-. cbn in Ho. subst who.
    rewrite reconcile_unfold in Hc. cbn [fst] in Hc.
    apply in_app_iff in Hc as [Hc|Hc].
    + apply promise_calls in Hc
        as [(meta'' & _ & _ & Hc)|[(meta'' & _ & _ & Hc)|(d & _ & Hc)]].
      * pose proof (uploadImage_calls _ _ _ _ _ _ Hc) as (Ho & _).
        cbn in Ho. injection Ho as <-.
        unfold uploadImage in Hc. rewrite <- Hrow, Hsame in Hc.
        destruct (formData_get (meta_storage_id meta) formData) as [[s|file]|] eqn:Hf;
          try done. by apply (Hnone file).
      * rewrite updateOrder_unfold in Hc. destruct Hc as [Hc|[]]. discriminate.
      * rewrite deleteImage_unfold in Hc. by destruct Hc as [Hc|[Hc|[]]].
    + rewrite updateUrlImg_calls in Hc.
      destruct (List.find _ metas) as [featured|]; [|destruct Hc].
      destruct (featuredImageUrl env vehicleId featured); [|destruct Hc].
      destruct Hc as [Hc|[]]. discriminate.
  - unfold imagePromises. rewrite !map_app. apply in_app_iff. left.
    unfold imageUploadPromises. rewrite map_map. apply in_map_iff.
    exists meta. rewrite Hskip. split; [done|]. by apply filter_In.
  - by rewrite reconcile_unfold.
Qed.

Lemma C10_lost_file_witness :
  uploadImage stormyEnv 7 "veh-uuid" sampleForm metaLost = ([], Fulfilled Skipped)
  /\ snd (reconcile stormyEnv 7 "veh-uuid" sampleForm
            [metaA; metaB; metaLost; metaOld] [deletion40])
     = Fulfilled (Redirect "/vehiculos").
Proof.
  destruct (C10_entry_without_binary_is_skipped stormyEnv 7 "veh-uuid" sampleForm
              [metaA; metaB; metaLost; metaOld] [deletion40] metaLost)
    as (Hskip & _ & _ & _ & _ & Hdone).
  - right. right. left. reflexivity.
  - reflexivity.
  - intros file. vm_compute. discriminate.
  - split; [exact Hskip | exact Hdone].
Defined.

End ServerProperties.

Section ValidationProperties.
Import Server Samples.

(** *** Validation *)

Lemma insert_lookup_eqb (field message k : string) (errors : gmap string string) :
  <[field := message]> errors !! k
  = if String.eqb field k then Some message else errors !! k.
Proof.
  rewrite lookup_insert. destruct (String.eqb_spec field k); by case_decide.
Qed.

Lemma requireText_lookup formData field message errors k :
  requireText formData field message errors !! k
  = if falsy (formData_get field formData) && String.eqb field k
    then Some message else errors !! k.
Proof.
  unfold requireText. destruct (falsy _); [|done]. apply insert_lookup_eqb.
Qed.

Lemma requireNumber_lookup formData field message errors k :
  requireNumber formData field message errors !! k
  = if notANumber (formData_get field formData) && String.eqb field k
    then Some message else errors !! k.
Proof.
  unfold requireNumber. destruct (notANumber _); [|done]. apply insert_lookup_eqb.
Qed.

Lemma is_Some_if_message (c : bool) (message : string) :
  c = true <-> is_Some (if c then Some message else None).
Proof.
  destruct c; split; done.
Qed.

(** Reads one field out of the error map that [validate] builds. *)
Ltac read_errors :=
  repeat first [ rewrite requireText_lookup
               | rewrite requireNumber_lookup
               | rewrite insert_lookup_eqb ];
  rewrite lookup_empty;
  repeat match goal with
         | |- context [String.eqb ?a ?b] =>
             let v := eval vm_compute in (String.eqb a b) in
             change (String.eqb a b) with v
         end;
  rewrite ?andb_false_r, ?andb_true_r; cbv iota.

Lemma validate_outcome formData :
  (placaIsFile formData /\
   validate formData = ([], Rejected "placa?.trim is not a function"))
  \/ (~ placaIsFile formData /\
      exists errors, validate formData = ([], Fulfilled errors) /\
        forall field, In field requiredFields ->
          (isMissing formData field = true <-> is_Some (errors !! fst field))).
Proof.
  unfold validate, requirePlaca, placaIsFile.
  destruct (formData_get "placa" formData) as [[s|f]|] eqn:Hplaca.
  - right. split; [by intros [f Hf]|].
    destruct (String.eqb (trim s) "") eqn:Hblank.
    + eexists. split; [reflexivity|].
      intros field Hin. unfold requiredFields in Hin.
      repeat (destruct Hin as [<-|Hin];
        [unfold isMissing; cbn [fst snd]; rewrite ?Hplaca, ?Hblank; read_errors;
         first [apply is_Some_if_message | split; by eauto] |]).
      destruct Hin.
    + eexists. split; [reflexivity|].
      intros field Hin. unfold requiredFields in Hin.
      repeat (destruct Hin as [<-|Hin];
        [unfold isMissing; cbn [fst snd]; rewrite ?Hplaca, ?Hblank; read_errors;
         first [apply is_Some_if_message | split; [done | by intros [? ?]]] |]).
      destruct Hin.
  - left. split; [by exists f|done].
  - right. split; [by intros [f Hf]|].
    eexists. split; [reflexivity|].
    intros field Hin. unfold requiredFields in Hin.
    repeat (destruct Hin as [<-|Hin];
      [unfold isMissing; cbn [fst snd]; rewrite ?Hplaca; read_errors;
       first [apply is_Some_if_message | split; by eauto] |]).
    destruct Hin.
Qed.

(** A blank number converts to [0] and passes the check; a unit suffix
    does not. *)
Example blank_number_is_accepted :
  notANumber (Some (Str " ")) = false /\ notANumber (Some (Str "12 km")) = true
  /\ notANumber (Some (Str "")) = true /\ notANumber None = true.
Proof. repeat split; reflexivity. Qed.

Lemma anyMissing_errors formData (errors : gmap string string) :
  anyMissing formData = true ->
  (forall field, In field requiredFields ->
     (isMissing formData field = true <-> is_Some (errors !! fst field))) ->
  errors <> ∅.
Proof.
  intros Hany Hspec ->. apply existsb_exists in Hany as (field & Hin & Hmiss).
  apply (Hspec field Hin) in Hmiss as [message Hlook].
  by rewrite lookup_empty in Hlook.
Qed.

(** C7, as the code has it: with a required field missing, the only call
    [action] ever makes is the lookup of the signed-in user -- no vehicle
    row is inserted and no image is uploaded, inserted, updated or
    deleted; and when the request is signed in, is not the fetcher reset
    and [placa] is not a file, the answer is status 400 with an error map
    that is not empty and has an entry for exactly the missing fields. *)
Theorem C7_missing_field_is_reported_before_any_write
    (env : Env) (request : Request) :
  anyMissing (req_formData request) = true ->
  (forall c, In c (fst (action env request)) ->
     exists auth_id, c = (Main, UsersSelectUuid auth_id))
  /\ (authenticated env request -> ~ isClearFetcher request ->
      ~ placaIsFile (req_formData request) ->
      exists errors,
        snd (action env request) = JsonErrors errors 400
        /\ errors <> ∅
        /\ forall field, In field requiredFields ->
             (isMissing (req_formData request) field = true
              <-> is_Some (errors !! fst field))).
Proof.
  intros Hany. split.
  - intros c. unfold action.
    destruct (entryIs _ "true"); [done|].
    unfold actionBody.
    destruct (negb (truthy (session_concesionario_id (req_session request)))
              || negb (truthy (session_user_id (req_session request)))); [done|].
    unfold bind at 1. unfold call at 1.
    destruct (usersSelectUuid env _) as [e|user_id].
    { cbn. intros [<-|[]]. eauto. }
    destruct (String.eqb user_id "").
    { cbn. intros [<-|[]]. eauto. }
    destruct (validate_outcome (req_formData request))
      as [(_ & ->)|(_ & errors & -> & Hspec)].
    { cbn. intros [<-|[]]. eauto. }
    unfold bind at 1.
    rewrite bool_decide_eq_false_2 by by apply (anyMissing_errors (req_formData request)).
    cbn. intros [<-|[]]. eauto.
  - intros (Hdealer & Huser & user_id & Hrow & Hne) Hclear Hplaca.
    unfold action, isClearFetcher in *. apply not_true_is_false in Hclear.
    rewrite Hclear. unfold actionBody. rewrite Hdealer, Huser. cbn [negb orb].
    unfold bind at 1. unfold call at 1. rewrite Hrow.
    apply String.eqb_neq in Hne. rewrite Hne.
    destruct (validate_outcome (req_formData request))
      as [(Hfile & _)|(_ & errors & -> & Hspec)]; [done|].
    pose proof (anyMissing_errors _ _ Hany Hspec) as Hnonempty.
    unfold bind at 1. rewrite bool_decide_eq_false_2 by done.
    exists errors. cbn. done.
Qed.

Lemma C7_incomplete_request_witness :
  exists errors,
    snd (action calmEnv incompleteRequest) = JsonErrors errors 400
    /\ is_Some (errors !! "marca") /\ is_Some (errors !! "km")
    /\ errors !! "modelo" = None
    /\ fst (action calmEnv incompleteRequest) = [(Main, UsersSelectUuid "auth-1")].
Proof.
  assert (Hany : anyMissing (req_formData incompleteRequest) = true) by reflexivity.
  destruct (C7_missing_field_is_reported_before_any_write calmEnv incompleteRequest Hany)
    as [_ Hreport].
  destruct Hreport as (errors & Hanswer & _ & Hfields).
  - split; [reflexivity|]. split; [reflexivity|].
    exists "user-uuid". split; [reflexivity | discriminate].
  - unfold isClearFetcher. vm_compute. discriminate.
  - intros [f Hf]. vm_compute in Hf. discriminate.
  - exists errors. split; [exact Hanswer|].
    split; [apply (Hfields ("marca", TextField)); [left; reflexivity | reflexivity]|].
    split; [apply (Hfields ("km", NumberField));
            [do 8 right; left; reflexivity | reflexivity]|].
    split; [|reflexivity].
    destruct (errors !! "modelo") as [message|] eqn:Hmodelo; [|reflexivity].
    assert (Hsome : is_Some (errors !! fst ("modelo", TextField)))
      by (cbn; rewrite Hmodelo; eauto).
    apply (Hfields ("modelo", TextField)) in Hsome; [discriminate|].
    right. left. reflexivity.
Defined.

(** C7, counterexample: a request without a session and without any
    field is answered with the single message of the session gate and
    status 401, not with an error map keyed by field. *)
Lemma C7_no_field_errors_without_session :
  anyMissing (req_formData anonymousRequest) = true
  /\ action calmEnv anonymousRequest
     = ([], JsonError "No se encontró información de usuario/concesionario en la sesión. Por favor, inicia sesión nuevamente." 401).
Proof. split; reflexivity. Qed.

End ValidationProperties.

(** * Further properties of the editor *)

Section EditorCompositions.
Import Editor Samples.

(** *** Dragging *)

Lemma findIndex_Some {A} (p : A -> bool) (l : list A) (i : nat) :
  findIndex p l = Some i ->
  exists x, l !! i = Some x /\ p x = true /\
            forall j y, (j < i)%nat -> l !! j = Some y -> p y = false.
Proof.
  revert i. induction l as [|a l IH]; intros i Hfind; [done|].
  cbn in Hfind. destruct (p a) eqn:Hpa.
  - injection Hfind as <-. exists a. repeat split; try done. intros j y Hj. lia.
  - destruct (findIndex p l) as [k|] eqn:Hk; [|done].
    injection Hfind as <-. destruct (IH k eq_refl) as (x & Hx & Hpx & Hbefore).
    exists x. repeat split; try done.
    intros [|j] y Hj Hy; cbn in Hy; [by injection Hy as <-|].
    apply (Hbefore j y); [lia|done].
Qed.

Lemma findIndex_None {A} (p : A -> bool) (l : list A) :
  findIndex p l = None <-> forall x, In x l -> p x = false.
Proof.
  induction l as [|a l IH]; [done|]. cbn. destruct (p a) eqn:Hpa.
  - split; [done|]. intros H. specialize (H a (or_introl eq_refl)). congruence.
  - destruct (findIndex p l) as [k|].
    + split; [done|]. intros H.
      assert (Hl : forall x, In x l -> p x = false) by (intros x Hx; apply H; by right).
      by apply IH in Hl.
    + split; [|done]. intros _ x [<-|Hx]; [done|]. by apply IH.
Qed.

Lemma arrayMove_places {A} (array : list A) (from to : nat) (x : A) :
  array !! from = Some x -> (to < length array)%nat ->
  arrayMove array from to !! to = Some x
  /\ delete to (arrayMove array from to) = delete from array
  /\ length (arrayMove array from to) = length array.
Proof.
  intros Hx Hto. unfold arrayMove. rewrite Hx.
  assert (Hlen : length (delete from array) = (length array - 1)%nat).
  { rewrite length_delete; [done|]. by exists x. }
  assert (Htake : length (take to (delete from array)) = to).
  { rewrite length_take. lia. }
  split; [|split].
  - rewrite lookup_app_r by lia. rewrite Htake, Nat.sub_diag. done.
  - rewrite <- Htake at 1. rewrite delete_middle. apply take_drop.
  - rewrite length_app. cbn. rewrite length_drop, Htake.
    apply lookup_lt_Some in Hx. lia.
Qed.


(** X1: a drag of one image onto another, both in the collection, puts
    the dragged image at the position the target had; taking it out
    again gives the collection without it, so the other images keep
    their order; nothing is added to the deletion list and no preview is
    revoked. *)
Theorem onDragEnd_moves_active_to_target
    (active overId : string) (st : EditorState) (oldIndex newIndex : nat) :
  active <> overId ->
  findIndex (fun img => String.eqb (img_id img) active) (orderedImages st)
    = Some oldIndex ->
  findIndex (fun img => String.eqb (img_id img) overId) (orderedImages st)
    = Some newIndex ->
  (exists img, orderedImages st !! oldIndex = Some img /\ img_id img = active /\
     orderedImages (onDragEnd active (Some overId) st) !! newIndex = Some img)
  /\ delete newIndex (orderedImages (onDragEnd active (Some overId) st))
     = delete oldIndex (orderedImages st)
  /\ length (orderedImages (onDragEnd active (Some overId) st))
     = length (orderedImages st)
  /\ imagesToDelete (onDragEnd active (Some overId) st) = imagesToDelete st
  /\ revokedUrls (onDragEnd active (Some overId) st) = revokedUrls st.
Proof.
  intros Hne Hold Hnew. unfold onDragEnd.
  apply String.eqb_neq in Hne. rewrite Hne, Hold, Hnew. cbn.
  destruct (findIndex_Some _ _ _ Hold) as (img & Himg & Hid & _).
  destruct (findIndex_Some _ _ _ Hnew) as (target & Htarget & _ & _).
  apply lookup_lt_Some in Htarget.
  destruct (arrayMove_places (orderedImages st) oldIndex newIndex img Himg Htarget)
    as (Hat & Hrest & Hlen).
  repeat split; try done.
  exists img. repeat split; try done. by apply String.eqb_eq.
Qed.

Lemma onDragEnd_moves_witness :
  map img_id (orderedImages
    (onDragEnd "id3" (Some "id1") (seed persistedThree initialState)))
  !! 0%nat = Some "id3".
Proof.
  assert (Hne : "id3" <> "id1") by discriminate.
  destruct (onDragEnd_moves_active_to_target "id3" "id1"
              (seed persistedThree initialState) 2 0 Hne eq_refl eq_refl)
    as ((img & _ & Hid & Hat) & _).
  rewrite list_lookup_fmap, Hat. cbn. by rewrite Hid.
Defined.

(** X2: a drag that ends outside every image, on the dragged image
    itself, or that names an id the collection does not have, changes
    nothing. *)
Theorem onDragEnd_ignores_unknown_targets
    (active : string) (over : option string) (st : EditorState) :
  over = None
  \/ over = Some active
  \/ (forall img, In img (orderedImages st) -> img_id img <> active)
  \/ (exists overId, over = Some overId /\
        forall img, In img (orderedImages st) -> img_id img <> overId) ->
  onDragEnd active over st = st.
Proof.
  intros [->|[->|[Hactive|(overId & -> & Hover)]]]; unfold onDragEnd; try done.
  - by rewrite String.eqb_refl.
  - destruct over as [overId|]; [|done]. destruct (String.eqb active overId); [done|].
    assert (Hnone : findIndex (fun img => String.eqb (img_id img) active)
                      (orderedImages st) = None).
    { apply findIndex_None. intros img Hin. apply String.eqb_neq. by apply Hactive. }
    by rewrite Hnone.
  - destruct (String.eqb active overId); [done|].
    assert (Hnone : findIndex (fun img => String.eqb (img_id img) overId)
                      (orderedImages st) = None).
    { apply findIndex_None. intros img Hin. apply String.eqb_neq. by apply Hover. }
    rewrite Hnone.
    destruct (findIndex (fun img => String.eqb (img_id img) active) (orderedImages st));
      reflexivity.
Qed.

Lemma onDragEnd_ignores_witness :
  onDragEnd "id3" (Some "nowhere") (seed persistedThree initialState)
  = seed persistedThree initialState.
Proof.
  apply onDragEnd_ignores_unknown_targets. right. right. right.
  exists "nowhere". split; [reflexivity|].
  intros img Hin. vm_compute in Hin.
  destruct Hin as [<-|[<-|[<-|[]]]]; discriminate.
Defined.

(** *** Selecting files *)

(** X3: selecting files keeps the images that were there, in place and
    unchanged, and appends one new image per file in the order chosen,
    with the generated id as [id] and [storage_id] and the file attached.
    If no image carried the flag, the first new image and no other new
    one gets it; if one did, no new image gets it. *)
Theorem handleFileSelect_appends_and_promotes
    (files : list Pick) (st : EditorState) :
  take (length (orderedImages st)) (orderedImages (handleFileSelect files st))
    = orderedImages st
  /\ map (fun img => (img_id img, img_storage_id img, img_url img, img_isNew img,
                      img_file img))
         (drop (length (orderedImages st)) (orderedImages (handleFileSelect files st)))
     = map (fun p => (pick_uuid p, pick_uuid p, pick_url p, true, Some (pick_file p)))
           files
  /\ map img_destacada
         (drop (length (orderedImages st)) (orderedImages (handleFileSelect files st)))
     = match files with
       | [] => []
       | _ :: rest =>
           (countFeatured (orderedImages st) =? 0)%nat :: map (fun _ => false) rest
       end
  /\ imagesToDelete (handleFileSelect files st) = imagesToDelete st
  /\ revokedUrls (handleFileSelect files st) = revokedUrls st.
Proof.
  unfold handleFileSelect. cbn [orderedImages setOrderedImages imagesToDelete revokedUrls].
  rewrite take_app_length, drop_app_length, newImages_shape.
  repeat split.
  - destruct files as [|p rest]; [done|].
    destruct ((0 <? _)%nat && _); cbn; by rewrite !map_map.
  - destruct files as [|p rest]; [done|].
    change (0 <? length (newImage (orderedImages st) 0 p
         :: map (newImage (orderedImages st) 1) rest))%nat with true.
    cbn [andb].
    assert (Hrest : map img_destacada (map (newImage (orderedImages st) 1) rest)
                    = map (fun _ => false) rest).
    { rewrite map_map. apply map_ext. intros q. cbn. apply andb_false_r. }
    destruct (forallb _ (orderedImages st)) eqn:Hnone.
    + apply countFeatured_none in Hnone. rewrite Hnone. cbn. by rewrite Hrest.
    + assert (Hcount : countFeatured (orderedImages st) <> 0%nat).
      { intros Hzero. apply countFeatured_none in Hzero. congruence. }
      apply Nat.eqb_neq in Hcount. rewrite Hcount. cbn [map]. rewrite Hrest.
      f_equal. cbn. destruct (orderedImages st); [done|]. done.
Qed.


(** *** From the editor to the cover of the vehicle *)

Lemma find_featured_metadata (imgs : list ImageUploaderImage) : forall k,
  List.find (fun meta => meta_destacada meta) (imap (fun i => toMetadata (k + i)) imgs)
  = match findIndex img_destacada imgs with
    | Some i => toMetadata (k + i) <$> imgs !! i
    | None => None
    end.
Proof.
  induction imgs as [|img imgs IH]; intros k; [done|].
  cbn [imap List.find findIndex]. cbn [toMetadata meta_destacada].
  destruct (img_destacada img); [by rewrite Nat.add_0_r|].
  rewrite (imap_ext _ (fun i => toMetadata (S k + i))); [|intros; cbn; f_equal; lia].
  rewrite IH. destruct (findIndex img_destacada imgs) as [i|]; [|done].
  cbn. by replace (S (k + i)) with (k + S i)%nat by lia.
Qed.

(** X4: the metadata the editor reports, handed to the image step:
    the cover written for the vehicle is the address of the first
    featured image of the collection -- for a new image the public
    address of its storage path, for a persisted image its own address
    (nothing is written when that is empty) -- and with no featured image
    nothing is written. *)
Theorem starred_image_becomes_cover
    (env : Server.Env) (vehicleId : Z) (vehicleUuid : string)
    (formData : Server.FormData) (st : EditorState) :
  List.filter Server.isCoverWrite
    (fst (Server.reconcile env vehicleId vehicleUuid formData
            (orderedImagesMetadata (notifyChanges st))
            (imageIdsToDelete (notifyChanges st))))
  = match findIndex img_destacada (orderedImages st) with
    | Some i =>
        match orderedImages st !! i with
        | Some img =>
            if img_isNew img
            then [ (Server.Main,
                    Server.VehiculosUpdateUrlImg vehicleUuid
                      (Server.getPublicUrl env
                         (Server.storagePathOf vehicleId (img_storage_id img)))) ]
            else if String.eqb (img_url img) "" then []
                 else [ (Server.Main,
                         Server.VehiculosUpdateUrlImg vehicleUuid (img_url img)) ]
        | None => []
        end
    | None => []
    end.
Proof.
  rewrite cover_calls, updateUrlImg_calls. cbn [notifyChanges extractChanges orderedImagesMetadata].
  change (imap toMetadata (orderedImages st))
    with (imap (fun i => toMetadata (0 + i)) (orderedImages st)).
  rewrite (find_featured_metadata (orderedImages st) 0).
  destruct (findIndex img_destacada (orderedImages st)) as [i|]; [|done].
  destruct (orderedImages st !! i) as [img|]; [|done].
  cbn [fmap option_fmap option_map]. unfold Server.featuredImageUrl.
  cbn [toMetadata meta_isNew meta_storage_id meta_url].
  destruct (img_isNew img).
  - by rewrite getPublicUrl_not_empty.
  - cbn. by destruct (String.eqb (img_url img) "").
Qed.


(** *** More on the star and the cross *)

(** X20: of two stars in a row the second decides: starring one storage
    id and then another leaves the state that starring the second alone
    gives. *)
Theorem handleSetDestacada_last_wins (first second : string) (st : EditorState) :
  handleSetDestacada second (handleSetDestacada first st)
  = handleSetDestacada second st.
Proof.
  unfold handleSetDestacada, setOrderedImages. cbn. f_equal.
  rewrite map_map. apply map_ext. intros img. by destruct img.
Qed.

Lemma filter_keeps_all {A} (p : A -> bool) (l : list A) :
  (forall x, In x l -> p x = true) -> List.filter p l = l.
Proof.
  induction l as [|x l IH]; intros H; [done|]. cbn.
  rewrite (H x) by by left. f_equal. apply IH. intros y Hy. apply H. by right.
Qed.

(** X21: the cross does not check that its image is still in the
    collection.  For an image whose id no image of the collection has,
    no image leaves; yet a persisted one is queued for deletion, the
    preview of a new one is revoked, and if its flag was set the first
    image of the collection is flagged (whatever else is). *)
Theorem handleRemoveImage_of_absent_image
    (imageToRemove : ImageUploaderImage) (st : EditorState) :
  (forall img, In img (orderedImages st) -> img_id img <> img_id imageToRemove) ->
  orderedImages (handleRemoveImage imageToRemove st)
    = (if img_destacada imageToRemove
       then destacarPrimera (orderedImages st) else orderedImages st)
  /\ imagesToDelete (handleRemoveImage imageToRemove st)
     = (if img_isNew imageToRemove then imagesToDelete st
        else imagesToDelete st
               ++ [ {| del_id := img_id imageToRemove;
                       del_storage_id := img_storage_id imageToRemove |} ])
  /\ revokedUrls (handleRemoveImage imageToRemove st)
     = (if img_isNew imageToRemove
        then revokedUrls st ++ [img_url imageToRemove] else revokedUrls st).
Proof.
  intros Habsent.
  assert (Hkeep : List.filter
    (fun img => negb (String.eqb (img_id img) (img_id imageToRemove)))
    (orderedImages st) = orderedImages st).
  { apply filter_keeps_all. intros img Hin.
    apply negb_true_iff, String.eqb_neq. by apply Habsent. }
  split.
  - rewrite handleRemoveImage_orderedImages. cbn zeta. rewrite Hkeep.
    destruct (img_destacada imageToRemove); [|done]. cbn [andb].
    by destruct (orderedImages st).
  - unfold handleRemoveImage. by destruct (img_isNew imageToRemove).
Qed.

Lemma handleRemoveImage_absent_witness :
  countFeatured (orderedImages (handleRemoveImage imageA
    (run initialState [AddFiles [pickB]]))) = 1%nat
  /\ revokedUrls (handleRemoveImage imageA (run initialState [AddFiles [pickB]]))
     = ["blob:a"].
Proof.
  destruct (handleRemoveImage_of_absent_image imageA
              (run initialState [AddFiles [pickB]])) as (Himgs & _ & Hrevoked).
  - intros img [<-|[]]. discriminate.
  - rewrite Himgs, Hrevoked. split; reflexivity.
Defined.

(** *** Dragging back *)

Lemma findIndex_unique (l : list ImageUploaderImage) (i : nat) (img : ImageUploaderImage) :
  NoDup (map img_id l) -> l !! i = Some img ->
  findIndex (fun x => String.eqb (img_id x) (img_id img)) l = Some i.
Proof.
  revert i. induction l as [|a l IH]; intros i Hnd Hi; [done|].
  cbn [map] in Hnd. apply NoDup_cons in Hnd as [Ha Hnd]. cbn [findIndex].
  destruct i as [|i]; cbn in Hi.
  - injection Hi as ->. by rewrite String.eqb_refl.
  - destruct (String.eqb_spec (img_id a) (img_id img)) as [Heq|_].
    + exfalso. apply Ha. rewrite Heq. apply list_elem_of_In, in_map.
      apply list_elem_of_In. by apply list_elem_of_lookup_2 in Hi.
    + by rewrite (IH i Hnd Hi).
Qed.

Lemma arrayMove_back {A} (array : list A) (from to : nat) :
  (from < length array)%nat -> (to < length array)%nat ->
  arrayMove (arrayMove array from to) to from = array.
Proof.
  intros Hfrom Hto.
  destruct (lookup_lt_is_Some_2 array from Hfrom) as [x Hx].
  destruct (arrayMove_places array from to x Hx Hto) as (Hat & Hrest & Hlen).
  unfold arrayMove at 1. rewrite Hat, Hrest, delete_take_drop.
  assert (Hlen' : length (take from array) = from) by (rewrite length_take; lia).
  rewrite take_app_length', drop_app_length' by done.
  by apply take_drop_middle.
Qed.

Lemma same_id_same_index (l : list ImageUploaderImage) (i j : nat)
    (x y : ImageUploaderImage) :
  NoDup (map img_id l) -> l !! i = Some x -> l !! j = Some y ->
  img_id x = img_id y -> i = j.
Proof.
  intros Hnd Hx Hy Hid.
  apply (NoDup_lookup (map img_id l) i j (img_id x) Hnd).
  - by rewrite list_lookup_fmap, Hx.
  - by rewrite list_lookup_fmap, Hy, Hid.
Qed.

(** X22: with distinct ids, dragging an image onto another and then
    dragging it onto the image that now sits where it came from puts
    every image back: the editor is in the state it started from. *)
Theorem onDragEnd_back_restores
    (active overId back : string) (st : EditorState) (oldIndex newIndex : nat) :
  NoDup (map img_id (orderedImages st)) ->
  active <> overId ->
  findIndex (fun img => String.eqb (img_id img) active) (orderedImages st)
    = Some oldIndex ->
  findIndex (fun img => String.eqb (img_id img) overId) (orderedImages st)
    = Some newIndex ->
  img_id <$> (orderedImages (onDragEnd active (Some overId) st) !! oldIndex)
    = Some back ->
  onDragEnd active (Some back) (onDragEnd active (Some overId) st) = st.
Proof.
  intros Hnd Hne Hold Hnew Hback.
  destruct (findIndex_Some _ _ _ Hold) as (img & Himg & Hid & _).
  destruct (findIndex_Some _ _ _ Hnew) as (target & Htarget & Htid & _).
  apply String.eqb_eq in Hid, Htid.
  assert (Hdiff : oldIndex <> newIndex).
  { intros ->. rewrite Himg in Htarget. injection Htarget as ->. congruence. }
  pose proof (lookup_lt_Some _ _ _ Himg) as Hlt_old.
  pose proof (lookup_lt_Some _ _ _ Htarget) as Hlt_new.
  destruct (arrayMove_places (orderedImages st) oldIndex newIndex img Himg Hlt_new)
    as (Hat & _ & Hlen).
  assert (Hmoved : orderedImages (onDragEnd active (Some overId) st)
                   = arrayMove (orderedImages st) oldIndex newIndex).
  { unfold onDragEnd. apply String.eqb_neq in Hne. by rewrite Hne, Hold, Hnew. }
  rewrite Hmoved in Hback.
  destruct (arrayMove (orderedImages st) oldIndex newIndex !! oldIndex)
    as [b|] eqn:Hb; [|done]. cbn in Hback. injection Hback as Hbid.
  assert (Hnd' : NoDup (map img_id (arrayMove (orderedImages st) oldIndex newIndex))).
  { by rewrite <- (Permutation_map img_id (arrayMove_Permutation _ oldIndex newIndex)). }
  assert (Hba : back <> active).
  { intros Heq. apply Hdiff.
    apply (same_id_same_index _ oldIndex newIndex b img Hnd' Hb Hat). congruence. }
  pose proof (findIndex_unique _ _ _ Hnd' Hat) as Hfind_active.
  pose proof (findIndex_unique _ _ _ Hnd' Hb) as Hfind_back.
  rewrite Hid in Hfind_active. rewrite Hbid in Hfind_back.
  unfold onDragEnd at 1. rewrite Hmoved.
  assert (Hab : String.eqb active back = false) by (apply String.eqb_neq; congruence).
  rewrite Hab, Hfind_active, Hfind_back.
  unfold onDragEnd. apply String.eqb_neq in Hne. rewrite Hne, Hold, Hnew.
  unfold setOrderedImages. cbn.
  rewrite arrayMove_back by done. by destruct st.
Qed.

Lemma onDragEnd_back_witness :
  onDragEnd "id3" (Some "id2")
    (onDragEnd "id3" (Some "id1") (seed persistedThree initialState))
  = seed persistedThree initialState.
Proof.
  apply (onDragEnd_back_restores "id3" "id1" "id2" _ 2 0).
  - apply (bool_decide_unpack _). vm_compute. exact I.
  - discriminate.
  - reflexivity.
  - reflexivity.
  - reflexivity.
Defined.

End EditorCompositions.

(** * Order indices across a save *)

Section NumberText.
Import Editor Server Samples.

(** *** Order indices as text and back *)

Lemma small_digit (d : N) :
  (d < 10)%N ->
  d = 0%N \/ d = 1%N \/ d = 2%N \/ d = 3%N \/ d = 4%N \/ d = 5%N \/ d = 6%N
  \/ d = 7%N \/ d = 8%N \/ d = 9%N.
Proof. lia. Qed.

Lemma digitValue_pretty_char (d : N) :
  (d < 10)%N -> digitValue (pretty_N_char d) = Some (Z.of_N d).
Proof.
  intros Hd.
  destruct (small_digit d Hd) as [->|[->|[->|[->|[->|[->|[->|[->|[->| ->]]]]]]]]];
    reflexivity.
Qed.

Lemma readDigits_pretty_go (x : N) : forall (s : string) (acc : option Z),
  (0 < x)%N ->
  exists k : Z, 0 < k /\
    readDigits (pretty_N_go x s) acc
    = readDigits s (Some (default 0 acc * 10 ^ k + Z.of_N x)).
Proof.
  induction (N.lt_wf_0 x) as [x _ IH]. intros s acc Hx.
  rewrite pretty_N_go_step by done.
  assert (Hdigit : (x `mod` 10 < 10)%N) by (apply N.mod_upper_bound; lia).
  assert (Hsplit : Z.of_N x = 10 * Z.of_N (x `div` 10) + Z.of_N (x `mod` 10)).
  { rewrite (N.div_mod x 10) at 1 by lia. lia. }
  destruct (decide (x `div` 10 = 0)%N) as [Hzero|Hpos].
  - rewrite Hzero, pretty_N_go_0. exists 1. split; [lia|].
    cbn [readDigits]. rewrite digitValue_pretty_char by done.
    f_equal. f_equal. rewrite Hsplit, Hzero, Z.pow_1_r.
    generalize (default 0 acc) (Z.of_N (x `mod` 10)). cbn. intros a b. lia.
  - destruct (IH (x `div` 10)%N) with
      (s := String (pretty_N_char (x `mod` 10)) s) (acc := acc) as (k & Hk & ->).
    + apply N.div_lt; lia.
    + lia.
    + exists (k + 1). split; [lia|].
      cbn [readDigits]. rewrite digitValue_pretty_char by done.
      f_equal. f_equal. cbn [default].
      rewrite Hsplit, Z.pow_add_r, Z.pow_1_r by lia.
      generalize (default 0 acc) (Z.of_N (x `mod` 10)) (Z.of_N (x `div` 10)) (10 ^ k).
      intros a b c e. unfold id. lia.
Qed.

Lemma pretty_go_starts_with_digit (x : N) : forall s : string,
  (0 < x)%N ->
  exists d rest, (d < 10)%N /\ pretty_N_go x s = String (pretty_N_char d) rest.
Proof.
  induction (N.lt_wf_0 x) as [x _ IH]. intros s Hx.
  rewrite pretty_N_go_step by done.
  assert (Hdigit : (x `mod` 10 < 10)%N) by (apply N.mod_upper_bound; lia).
  destruct (decide (x `div` 10 = 0)%N) as [Hzero|Hpos].
  - rewrite Hzero, pretty_N_go_0. by exists (x `mod` 10)%N, s.
  - apply IH.
    + apply N.div_lt; lia.
    + by apply N.neq_0_lt_0.
Qed.

Lemma parseInt10_digits (s : string) (d : N) (rest : string) :
  (d < 10)%N -> s = String (pretty_N_char d) rest ->
  parseInt10 s = match readDigits s None with Some n => Int n | None => NaN end.
Proof.
  intros Hd ->.
  destruct (small_digit d Hd) as [->|[->|[->|[->|[->|[->|[->|[->|[->| ->]]]]]]]]];
    lazy -[readDigits Z.mul];
    destruct (readDigits _ None) as [n|]; try reflexivity; f_equal; lia.
Qed.

Lemma parseInt10_pretty (n : Z) :
  parseInt10 (numberToString n) = Int n.
Proof.
  unfold numberToString, pretty, pretty_Z.
  destruct n as [|p|p]; [reflexivity| |].
  - unfold pretty, pretty_positive, pretty, pretty_N. rewrite decide_False by done.
    destruct (pretty_go_starts_with_digit (N.pos p) "" ltac:(lia))
      as (d & rest & Hd & Hshape).
    rewrite (parseInt10_digits _ d rest Hd Hshape).
    destruct (readDigits_pretty_go (N.pos p) "" None ltac:(lia)) as (k & _ & ->).
    cbn. f_equal.
  - unfold pretty, pretty_positive, pretty, pretty_N. rewrite decide_False by done.
    destruct (readDigits_pretty_go (N.pos p) "" None ltac:(lia)) as (k & _ & Hread).
    lazy -[readDigits pretty_N_go Z.mul]. rewrite Hread. reflexivity.
Qed.

(** X13: an order index that is a safe integer and was written by the
    server as text, [String(meta.order_index)], is read back by the
    editor's [parseInt(..., 10)] as the same number: a row that holds
    that text is loaded with that number as its order index, and reads
    safely. *)
Theorem parseInt10_numberToString (n : Z) (e : ExistingImage) :
  isSafeInteger n = true ->
  ex_order_index e = numberToString n ->
  parseInt10 (numberToString n) = Int n
  /\ img_order_index (loadExisting e) = Some (Int n)
  /\ orderKey e = n
  /\ readsSafely e.
Proof.
  intros Hsafe Htext. pose proof (parseInt10_pretty n) as Hread.
  split; [exact Hread|]. rewrite <- Htext in Hread.
  split; [cbn; by rewrite Hread|].
  split; [unfold orderKey; by rewrite Hread|]. by exists n.
Qed.

Lemma parseInt10_numberToString_witness :
  img_order_index (loadExisting persistedSecond) = Some (Int 2).
Proof.
  destruct (parseInt10_numberToString 2 persistedSecond) as (_ & Hloaded & _);
    [reflexivity | reflexivity | exact Hloaded].
Defined.

Lemma sorted_Permutation_unique (l1 : list ExistingImage) : forall l2,
  StronglySorted (fun a b => orderKey a < orderKey b) l1 ->
  StronglySorted ascending l2 ->
  Permutation l1 l2 -> l1 = l2.
Proof.
  induction l1 as [|a l1 IH]; intros l2 Hs1 Hs2 Hperm.
  - by apply Permutation_nil in Hperm.
  - destruct l2 as [|b l2]; [by apply Permutation_sym, Permutation_nil in Hperm|].
    apply StronglySorted_inv in Hs1 as [Hs1 Ha].
    apply StronglySorted_inv in Hs2 as [Hs2 Hb].
    rewrite List.Forall_forall in Ha, Hb.
    assert (Hba : In b (a :: l1)).
    { apply (Permutation_in b (Permutation_sym Hperm)). by left. }
    assert (Hab : In a (b :: l2)).
    { apply (Permutation_in a Hperm). by left. }
    assert (Heq : a = b).
    { destruct Hba as [|Hba]; [done|]. specialize (Ha b Hba).
      destruct Hab as [|Hab]; [done|]. specialize (Hb a Hab).
      unfold ascending in Hb. lia. }
    subst b. f_equal. apply IH; try done. by apply Permutation_cons_inv in Hperm.
Qed.

Lemma saved_rows_sorted (rows : list ExistingImage) : forall k : nat,
  map ex_order_index rows
    = map (fun i => numberToString (Z.of_nat i + 1)) (seq k (length rows)) ->
  StronglySorted (fun a b => orderKey a < orderKey b) rows
  /\ Forall (fun e => parses e /\ Z.of_nat k < orderKey e) rows.
Proof.
  induction rows as [|e rows IH]; intros k Hrows; [split; constructor|].
  cbn in Hrows. injection Hrows as He Hrows.
  destruct (IH (S k) Hrows) as [Hsorted Hkeys].
  assert (Hkey : orderKey e = Z.of_nat k + 1).
  { unfold orderKey. by rewrite He, parseInt10_pretty. }
  split.
  - constructor; [done|]. eapply Forall_impl; [exact Hkeys|].
    cbn. intros b [_ Hb]. lia.
  - constructor.
    + split; [|lia]. unfold parses. by rewrite He, parseInt10_pretty.
    + eapply Forall_impl; [exact Hkeys|]. cbn. intros b [Hp Hb]. split; [done|lia].
Qed.

Lemma saved_rows_safe (rows : list ExistingImage) : forall k : nat,
  map ex_order_index rows
    = map (fun i => numberToString (Z.of_nat i + 1)) (seq k (length rows)) ->
  Z.of_nat (k + length rows) <= MAX_SAFE_INTEGER ->
  Forall readsSafely rows.
Proof.
  induction rows as [|e rows IH]; intros k Hrows Hmax; [constructor|].
  cbn in Hrows. injection Hrows as He Hrows. constructor.
  - exists (Z.of_nat k + 1). split; [by rewrite He, parseInt10_pretty|].
    unfold isSafeInteger. apply Z.leb_le. cbn [length] in Hmax. lia.
  - apply (IH (S k) Hrows). cbn [length] in Hmax. lia.
Qed.

(** X19: rows that were saved with the order indices the server writes
    for the positions 1, 2, ..., [String(index + 1)], come back in the
    saved order when a fresh editor is seeded with them, in whatever
    order the snapshot lists them: the ids of the loaded images are the
    ids of the rows in saved order, each image has the storage id,
    address and flag of its row and counts as persisted, and its order
    index is its saved position. *)
Theorem seed_restores_saved_order (rows arrival : list ExistingImage) :
  Z.of_nat (length rows) <= MAX_SAFE_INTEGER ->
  map ex_order_index rows
    = map (fun i => numberToString (Z.of_nat i + 1)) (seq 0 (length rows)) ->
  Permutation rows arrival ->
  map img_id (orderedImages (seed arrival initialState)) = map ex_id rows
  /\ map (fun img => (img_storage_id img, img_url img, img_destacada img, img_isNew img))
         (orderedImages (seed arrival initialState))
     = map (fun e => (ex_storage_id e, ex_url e, ex_destacada e, false)) rows
  /\ map img_order_index (orderedImages (seed arrival initialState))
     = map (fun i => Some (Int (Z.of_nat i + 1))) (seq 0 (length rows))
  /\ orderedImages (seed arrival initialState) = map loadExisting rows
  /\ Forall readsSafely arrival.
Proof.
  intros Hmax Hrows Hperm.
  assert (Hsafe : Forall readsSafely arrival).
  { rewrite <- Hperm. by apply (saved_rows_safe rows 0). }
  assert (Hloaded : orderedImages (seed arrival initialState) = map loadExisting rows).
  { rewrite seed_initialState. f_equal.
    destruct (saved_rows_sorted rows 0 Hrows) as [Hsorted Hkeys].
    symmetry. apply sorted_Permutation_unique; [done| |].
    - apply sortByOrderIndex_sorted. rewrite <- Hperm.
      eapply Forall_impl; [exact Hkeys|]. by intros e [Hp _].
    - by rewrite Hperm, <- sortByOrderIndex_Permutation. }
  rewrite Hloaded, !map_map. repeat split; [|exact Hsafe].
  change (map (fun e => img_order_index (loadExisting e)) rows)
    with (map (fun e => Some (parseInt10 (ex_order_index e))) rows).
  rewrite <- (map_map ex_order_index (fun text => Some (parseInt10 text))), Hrows, map_map.
  apply map_ext. intros i. by rewrite parseInt10_pretty.
Qed.

Lemma seed_restores_witness :
  map img_id (orderedImages (seed persistedThree initialState)) = ["id1"; "id2"; "id3"].
Proof.
  destruct (seed_restores_saved_order Scenarios.savedThree persistedThree)
    as (Hids & _).
  - vm_compute. discriminate.
  - reflexivity.
  - unfold Scenarios.savedThree, persistedThree.
    eapply perm_trans; [apply perm_skip, perm_swap | apply perm_swap].
  - exact Hids.
Defined.

End NumberText.

(** * The form and the handler *)

Section ClientProperties.
Import Editor Server Client Samples.

(** *** What [handleSubmit] puts into the form *)

Lemma formData_get_app name (l1 l2 : FormData) :
  formData_get name (l1 ++ l2)
  = match formData_get name l1 with
    | Some v => Some v
    | None => formData_get name l2
    end.
Proof.
  induction l1 as [|[k v] l1 IH]; [done|]. cbn.
  by destruct (String.eqb k name).
Qed.

Lemma formData_get_None name (l : FormData) :
  ~ In name (map fst l) -> formData_get name l = None.
Proof.
  induction l as [|[k v] l IH]; [done|]. cbn. intros Hnot.
  destruct (String.eqb_spec k name) as [->|_]; [destruct Hnot; by left|].
  apply IH. intros Hin. apply Hnot. by right.
Qed.

Lemma formData_get_fileEntries name (files : gmap string File) :
  formData_get name (fileEntries files) = Blob <$> files !! name.
Proof.
  unfold fileEntries.
  assert (Hgen : forall l : list (string * File), NoDup (map fst l) ->
    formData_get name (map (fun entry => (fst entry, Blob (snd entry))) l)
    = Blob <$> (list_to_map l : gmap string File) !! name).
  { induction l as [|[k f] l IH]; intros Hnd; [done|].
    cbn in *. apply NoDup_cons in Hnd as [Hk Hnd].
    destruct (String.eqb_spec k name) as [->|Hne].
    - by rewrite lookup_insert_eq.
    - rewrite lookup_insert_ne by done. by apply IH. }
  rewrite Hgen by apply NoDup_fst_map_to_list.
  by rewrite list_to_map_to_list.
Qed.

Lemma reserved_not_field name (fs : FormState) json changes :
  ~ In name reservedNames ->
  formData_get name
    (fieldEntries fs
     ++ [ ("orderedImagesMetadata", Str (stringifyMetadata json (orderedImagesMetadata changes)));
          ("imageIdsToDelete", Str (stringifyDeletions json (imageIdsToDelete changes))) ])
  = None.
Proof.
  intros Hnot. apply formData_get_None. by rewrite map_app.
Qed.

(** X5: in the form that [handleSubmit] builds from what the editor
    reported, every new image that has a file is found by the server
    under its storage id, provided storage ids are distinct and none is
    the name of a form field; so its upload is not skipped: the promise
    for its metadata entry starts by asking for the buckets. *)
Theorem submitted_files_are_found
    (json : Json) (fs : FormState) (st : EditorState) (formData : FormData)
    (img : ImageUploaderImage) (file : File)
    (env : Env) (vehicleId : Z) (vehicleUuid : string) (index : nat) :
  handleSubmit json fs (Some (notifyChanges st)) = Some formData ->
  NoDup (map img_storage_id (orderedImages st)) ->
  orderedImages st !! index = Some img ->
  img_isNew img = true -> img_file img = Some file ->
  ~ In (img_storage_id img) reservedNames ->
  formData_get (img_storage_id img) formData = Some (Blob file)
  /\ orderedImagesMetadata (notifyChanges st) !! index = Some (toMetadata index img)
  /\ In (UploadOf (toMetadata index img), StorageListBuckets)
        (fst (uploadImage env vehicleId vehicleUuid formData (toMetadata index img))).
Proof.
  intros Hsubmit Hnd Himg Hnew Hfile Hname. injection Hsubmit as <-.
  assert (Hget : formData_get (img_storage_id img)
            (fieldEntries fs
             ++ [ ("orderedImagesMetadata",
                   Str (stringifyMetadata json (orderedImagesMetadata (notifyChanges st))));
                  ("imageIdsToDelete",
                   Str (stringifyDeletions json (imageIdsToDelete (notifyChanges st)))) ]
             ++ fileEntries (filesToUpload (notifyChanges st)))
          = Some (Blob file)).
  { rewrite app_assoc, formData_get_app, reserved_not_field by done.
    rewrite formData_get_fileEntries. cbn [notifyChanges extractChanges filesToUpload].
    rewrite (filesToUpload_lookup (orderedImages st) img file); try done.
    apply list_elem_of_In. by apply list_elem_of_lookup_2 in Himg. }
  split; [done|]. split.
  - cbn. by rewrite list_lookup_imap, Himg.
  - by apply uploadImage_starts with (file := file).
Qed.

Lemma submitted_files_witness :
  formData_get "uuid-a" Scenarios.submission = Some (Blob fileA).
Proof.
  destruct (submitted_files_are_found Scenarios.sampleJson Scenarios.completeForm
              oneImage Scenarios.submission imageA fileA calmEnv 7 "veh-uuid" 0)
    as (Hfound & _); [reflexivity | | reflexivity | reflexivity | reflexivity | | exact Hfound].
  - vm_compute. apply NoDup_singleton.
  - vm_compute. intros H. repeat (destruct H as [H|H]; [discriminate H|]). exact H.
Defined.


(** *** Validation on the server and the steps of the form *)

Lemma conditional_insert_empty (c : bool) (field message : string)
    (errors : gmap string string) :
  (if c then <[field := message]> errors else errors) = ∅ <-> c = false /\ errors = ∅.
Proof.
  destruct c; [|tauto]. split; [|intros [Hc _]; discriminate Hc].
  intros Hempty. by apply insert_non_empty in Hempty.
Qed.

Lemma requireText_empty formData field message errors :
  requireText formData field message errors = ∅
  <-> falsy (formData_get field formData) = false /\ errors = ∅.
Proof. apply conditional_insert_empty. Qed.

Lemma requireNumber_empty formData field message errors :
  requireNumber formData field message errors = ∅
  <-> notANumber (formData_get field formData) = false /\ errors = ∅.
Proof. apply conditional_insert_empty. Qed.

Lemma validate_passes_iff (formData : FormData) :
  validate formData = ([], Fulfilled ∅)
  <-> anyMissing formData = false /\ ~ placaIsFile formData.
Proof.
  unfold validate, requirePlaca, placaIsFile, anyMissing, requiredFields.
  cbn [existsb]. unfold isMissing. cbn [fst snd].
  destruct (formData_get "placa" formData) as [[s|f]|] eqn:Hplaca.
  - assert (Hshape : forall (e : gmap string string) (k : gmap string string -> gmap string string),
      bind (if String.eqb (trim s) ""
            then ret (<["placa" := "Placa es requerida"]> e) else ret e)
           (fun errors => ret (k errors))
      = ([], Fulfilled (k (if String.eqb (trim s) ""
                           then <["placa" := "Placa es requerida"]> e else e)))).
    { intros e k. by destruct (String.eqb (trim s) ""). }
    rewrite (Hshape _ (fun errors =>
      requireNumber formData "cilindraje" "Cilindraje es requerido"
        (requireText formData "traccion" "Tracción es requerida"
          (requireText formData "carroceria" "Carrocería es requerida"
            (requireText formData "transmision" "Transmisión es requerida"
              (requireNumber formData "precio" "Precio es requerido"
                (requireNumber formData "km" "Kilometraje es requerido" errors))))))).
    split.
    + intros Heq. injection Heq as Heq.
      repeat first [ rewrite requireNumber_empty in Heq
                   | rewrite requireText_empty in Heq
                   | rewrite conditional_insert_empty in Heq ].
      split; [|by intros [f Hf]].
      rewrite !orb_false_iff. tauto.
    + intros [Hnone _]. rewrite !orb_false_iff in Hnone. do 2 f_equal.
      repeat first [ rewrite requireNumber_empty
                   | rewrite requireText_empty
                   | rewrite conditional_insert_empty ].
      tauto.
  - split; [done|]. intros [_ Hnot]. destruct Hnot. by exists f.
  - split; [|intros [Hnone _]; rewrite !orb_false_iff in Hnone;
             destruct Hnone as (_ & _ & _ & _ & _ & _ & _ & Hplaca' & _); discriminate Hplaca'].
    cbn. intros Heq. injection Heq as Heq.
    repeat first [ rewrite requireNumber_empty in Heq
                 | rewrite requireText_empty in Heq ].
    destruct Heq as (_ & _ & _ & _ & _ & _ & Heq).
    by apply insert_non_empty in Heq.
Qed.


Lemma submitted_form_validates
    (json : Json) (fs : FormState) (changes : ImageUploaderChanges)
    (formData : FormData) :
  handleSubmit json fs (Some changes) = Some formData ->
  (validate formData = ([], Fulfilled ∅)
   <-> paso1Completo fs = true /\ paso2Completo fs = true
       /\ isNaN_Number (anioSeleccionado fs) = false
       /\ isNaN_Number (puertas fs) = false).
Proof.
  intros Hsubmit. injection Hsubmit as Hform.
  rewrite validate_passes_iff.
  unfold anyMissing, requiredFields, placaIsFile. cbn [existsb].
  unfold isMissing. cbn [fst snd].
  replace (formData_get "marca" formData) with (Some (Str (marcaSeleccionada fs)))
    by (rewrite <- Hform; reflexivity).
  replace (formData_get "modelo" formData) with (Some (Str (modeloSeleccionado fs)))
    by (rewrite <- Hform; reflexivity).
  replace (formData_get "anio" formData) with (Some (Str (anioSeleccionado fs)))
    by (rewrite <- Hform; reflexivity).
  replace (formData_get "version" formData) with (Some (Str (versionSeleccionada fs)))
    by (rewrite <- Hform; reflexivity).
  replace (formData_get "puertas" formData) with (Some (Str (puertas fs)))
    by (rewrite <- Hform; reflexivity).
  replace (formData_get "combustible" formData) with (Some (Str (combustible fs)))
    by (rewrite <- Hform; reflexivity).
  replace (formData_get "color" formData) with (Some (Str (color fs)))
    by (rewrite <- Hform; reflexivity).
  replace (formData_get "placa" formData) with (Some (Str (placa fs)))
    by (rewrite <- Hform; reflexivity).
  replace (formData_get "km" formData) with (Some (Str (km fs)))
    by (rewrite <- Hform; reflexivity).
  replace (formData_get "precio" formData) with (Some (Str (precio fs)))
    by (rewrite <- Hform; reflexivity).
  replace (formData_get "transmision" formData) with (Some (Str (transmision fs)))
    by (rewrite <- Hform; reflexivity).
  replace (formData_get "carroceria" formData) with (Some (Str (carroceria fs)))
    by (rewrite <- Hform; reflexivity).
  replace (formData_get "traccion" formData) with (Some (Str (traccion fs)))
    by (rewrite <- Hform; reflexivity).
  replace (formData_get "cilindraje" formData) with (Some (Str (cilindraje fs)))
    by (rewrite <- Hform; reflexivity).
  cbn [falsy notANumber].
  unfold paso1Completo, paso2Completo, numeric, nonEmpty.
  rewrite !orb_false_iff, !andb_true_iff, !negb_true_iff.
  split.
  - intros [Hnone _]. tauto.
  - intros Hall. split; [tauto|]. intros [f Hf]. discriminate Hf.
Qed.


(** X7: for a form sent by [handleSubmit], the server finds no
    validation error exactly when steps 1 and 2 of the form were
    complete and, beyond what the steps check, the year and the number
    of doors read as numbers. *)
Theorem server_validation_matches_steps
    (json : Json) (fs : FormState) (changes : ImageUploaderChanges)
    (formData : FormData) :
  handleSubmit json fs (Some changes) = Some formData ->
  (validate formData = ([], Fulfilled ∅)
   <-> paso1Completo fs = true /\ paso2Completo fs = true
       /\ isNaN_Number (anioSeleccionado fs) = false
       /\ isNaN_Number (puertas fs) = false).
Proof. apply submitted_form_validates. Qed.

Lemma server_validation_witness :
  validate Scenarios.submission = ([], Fulfilled ∅).
Proof.
  apply (server_validation_matches_steps Scenarios.sampleJson Scenarios.completeForm
           (notifyChanges oneImage) Scenarios.submission); [reflexivity|].
  repeat split; reflexivity.
Defined.

(** *** From the submit button to the redirect *)

Lemma submitted_form_is_no_reset json fs changes formData :
  handleSubmit json fs (Some changes) = Some formData ->
  entryIs (formData_get "_clearFetcher" formData) "true" = false.
Proof.
  intros Hsubmit. injection Hsubmit as <-.
  change (entryIs (formData_get "_clearFetcher"
            (fieldEntries fs
             ++ [ ("orderedImagesMetadata",
                   Str (stringifyMetadata json (orderedImagesMetadata changes)));
                  ("imageIdsToDelete",
                   Str (stringifyDeletions json (imageIdsToDelete changes))) ]
             ++ fileEntries (filesToUpload changes))) "true" = false).
  rewrite app_assoc, formData_get_app, reserved_not_field.
  - rewrite formData_get_fileEntries.
    by destruct (filesToUpload changes !! "_clearFetcher").
  - vm_compute. intros H. repeat (destruct H as [H|H]; [discriminate H|]). done.
Qed.

(** X24: a form that the submit button lets go -- steps 1 and 2
    complete -- whose year and doors read as numbers, sent by a signed-in
    user, reaches the image step with exactly the metadata and deletions
    the editor reported, provided the two lists survive the trip as text
    and the vehicle row is inserted; the answer is the redirect. *)
Theorem complete_form_reaches_the_image_step
    (json : Json) (env : Env) (fs : FormState) (changes : ImageUploaderChanges)
    (formData : FormData) (session : Session)
    (vehicleId : Z) (vehicleUuid user_id : string) :
  handleSubmit json fs (Some changes) = Some formData ->
  paso1Completo fs = true -> paso2Completo fs = true ->
  isNaN_Number (anioSeleccionado fs) = false ->
  isNaN_Number (puertas fs) = false ->
  parseJson (decodeMetadata env)
    (jsonText (Some (Str (stringifyMetadata json (orderedImagesMetadata changes)))))
    = ([], Fulfilled (orderedImagesMetadata changes)) ->
  parseJson (decodeDeletions env)
    (jsonText (Some (Str (stringifyDeletions json (imageIdsToDelete changes)))))
    = ([], Fulfilled (imageIdsToDelete changes)) ->
  truthy (session_concesionario_id session) = true ->
  truthy (session_user_id session) = true ->
  usersSelectUuid env (default "" (session_user_id session)) = inr user_id ->
  user_id <> "" ->
  vehiculosInsert env
    (vehicleRow formData (default "" (session_concesionario_id session)) user_id)
    = inr (vehicleId, vehicleUuid) ->
  action env {| req_formData := formData; req_session := session |}
  = ( (Main, UsersSelectUuid (default "" (session_user_id session)))
        :: (Main, VehiculosInsert
                    (vehicleRow formData
                       (default "" (session_concesionario_id session)) user_id))
        :: fst (reconcile env vehicleId vehicleUuid formData
                  (orderedImagesMetadata changes) (imageIdsToDelete changes)),
      Redirect "/vehiculos" ).
Proof.
  intros Hsubmit Hp1 Hp2 Hanio Hpuertas Hmetas Hdels Hdealer Huser Hrow Hne Hins.
  assert (Hvalid : validate formData = ([], Fulfilled ∅))
    by by apply (submitted_form_validates json fs changes formData Hsubmit).
  pose proof (submitted_form_is_no_reset json fs changes formData Hsubmit) as Hclear.
  assert (Hm : formData_get "orderedImagesMetadata" formData
               = Some (Str (stringifyMetadata json (orderedImagesMetadata changes)))).
  { injection Hsubmit as <-. reflexivity. }
  assert (Hd : formData_get "imageIdsToDelete" formData
               = Some (Str (stringifyDeletions json (imageIdsToDelete changes)))).
  { injection Hsubmit as <-. reflexivity. }
  unfold action. cbn [req_formData req_session]. rewrite Hclear.
  unfold actionBody. cbn [req_formData req_session].
  rewrite Hdealer, Huser. cbn [negb orb].
  unfold bind at 1. unfold call at 1. rewrite Hrow.
  apply String.eqb_neq in Hne. rewrite Hne, Hvalid. unfold bind at 1.
  rewrite bool_decide_eq_true_2 by done. cbn [negb].
  rewrite Hm, Hmetas. unfold bind at 1. rewrite Hd, Hdels. unfold bind at 1.
  unfold bind at 1. unfold call at 1. rewrite Hins.
  rewrite reconcile_unfold. reflexivity.
Qed.

Lemma complete_form_witness :
  snd (action Scenarios.echoEnv Scenarios.submittedRequest) = Redirect "/vehiculos".
Proof.
  unfold Scenarios.submittedRequest.
  rewrite (complete_form_reaches_the_image_step Scenarios.sampleJson Scenarios.echoEnv
             Scenarios.completeForm (notifyChanges oneImage) Scenarios.submission
             sampleSessionData 7 "veh-uuid" "user-uuid");
    first [reflexivity | discriminate].
Defined.

End ClientProperties.

(** * The checks of the handler *)

Section HandlerProperties.
Import Server Samples.

Implicit Types (env : Env) (request : Request) (vehicleId : Z) (vehicleUuid : string)
  (formData : FormData) (metas : list ImageMetadata) (dels : list DeleteEntry).

(** *** The checks of [action], one after the other *)

Lemma parseJson_outcome {A} (decode : string -> option (list A)) (text : string) :
  (exists l, parseJson decode text = ([], Fulfilled l))
  \/ (text <> "[]" /\ decode text = None
      /\ parseJson decode text = ([], Rejected "Unexpected token in JSON")).
Proof.
  unfold parseJson. destruct (String.eqb_spec text "[]") as [->|Hne]; [left; by eexists|].
  destruct (decode text) as [l|]; [left; by eexists|]. by right.
Qed.

Ltac stops_early := split; [reflexivity | intros ?; cbn; discriminate].

(** The calls of [action] are: nothing; or only the lookup of the user;
    or the lookup and a failed insert of the vehicle; or the lookup, the
    insert that returned the ids, and the calls of the image step. *)
Lemma action_calls env request :
  (fst (action env request) = [] /\
   forall url, snd (action env request) <> Redirect url)
  \/ (exists auth_id,
        fst (action env request) = [(Main, UsersSelectUuid auth_id)] /\
        forall url, snd (action env request) <> Redirect url)
  \/ (exists auth_id row error,
        vehiculosInsert env row = inl error /\
        action env request
        = ([(Main, UsersSelectUuid auth_id); (Main, VehiculosInsert row)],
           JsonError error 500))
  \/ (exists auth_id row vehicleId vehicleUuid metas dels,
        vehiculosInsert env row = inr (vehicleId, vehicleUuid) /\
        reachesReconcile env request vehicleId vehicleUuid metas dels /\
        action env request
        = ((Main, UsersSelectUuid auth_id) :: (Main, VehiculosInsert row)
             :: fst (reconcile env vehicleId vehicleUuid (req_formData request) metas dels),
           Redirect "/vehiculos")).
Proof.
  remember (action env request) as result eqn:Hr. unfold action in Hr.
  destruct (entryIs _ "true") eqn:Hclear; [subst; left; stops_early|].
  unfold actionBody in Hr.
  destruct (truthy (session_concesionario_id (req_session request))) eqn:Hdealer;
    [|subst; left; stops_early].
  destruct (truthy (session_user_id (req_session request))) eqn:Huser;
    [|subst; left; stops_early].
  cbn [negb orb] in Hr. unfold bind at 1 in Hr. unfold call at 1 in Hr.
  destruct (usersSelectUuid env _) as [e|user_id] eqn:Hrow.
  { subst. right. left. eexists. stops_early. }
  destruct (String.eqb_spec user_id "") as [->|Hne].
  { subst. right. left. eexists. stops_early. }
  destruct (validate_outcome (req_formData request))
    as [(_ & Hv)|(_ & errors & Hv & _)]; rewrite Hv in Hr; unfold bind at 1 in Hr.
  { subst. right. left. eexists. stops_early. }
  destruct (bool_decide (errors = ∅)) eqn:Hempty.
  2:{ subst. right. left. eexists. stops_early. }
  apply bool_decide_eq_true in Hempty. subst errors. cbn [negb] in Hr.
  destruct (parseJson_outcome (decodeMetadata env)
              (jsonText (formData_get "orderedImagesMetadata" (req_formData request))))
    as [(metas & Hmetas)|(_ & _ & Hmetas)]; rewrite Hmetas in Hr; unfold bind at 1 in Hr.
  2:{ subst. right. left. eexists. stops_early. }
  destruct (parseJson_outcome (decodeDeletions env)
              (jsonText (formData_get "imageIdsToDelete" (req_formData request))))
    as [(dels & Hdels)|(_ & _ & Hdels)]; rewrite Hdels in Hr; unfold bind at 1 in Hr.
  2:{ subst. right. left. eexists. stops_early. }
  unfold bind at 1 in Hr. unfold call at 1 in Hr.
  destruct (vehiculosInsert env _) as [error|[vehicleId vehicleUuid]] eqn:Hins.
  { subst. right. right. left. by do 3 eexists. }
  rewrite reconcile_unfold in Hr. subst result. right. right. right.
  exists (default "" (session_user_id (req_session request))).
  eexists. exists vehicleId, vehicleUuid, metas, dels.
  split; [exact Hins|]. split; [|rewrite reconcile_unfold; reflexivity].
  split; [unfold isClearFetcher; by rewrite Hclear|].
  split; [done|]. split; [done|]. exists user_id. by repeat split.
Qed.


(** What the calls of the image step can be. *)
Lemma reconcile_call_kinds env vehicleId vehicleUuid formData metas dels c :
  In c (fst (reconcile env vehicleId vehicleUuid formData metas dels)) ->
  (forall auth_id, snd c <> UsersSelectUuid auth_id)
  /\ (forall row, snd c <> VehiculosInsert row).
Proof.
  intros Hc. rewrite reconcile_unfold in Hc. cbn [fst] in Hc.
  apply in_app_iff in Hc as [Hc|Hc].
  - apply promise_calls in Hc
      as [(meta & _ & _ & Hc)|[(meta & _ & _ & Hc)|(d & _ & Hc)]].
    + apply uploadImage_calls in Hc as (_ & [Hs|[(file & _ & Hs)|(row & Hs & _)]]);
        rewrite Hs; by split.
    + rewrite updateOrder_unfold in Hc. by destruct Hc as [<-|[]].
    + rewrite deleteImage_unfold in Hc. by destruct Hc as [<-|[<-|[]]].
  - rewrite updateUrlImg_calls in Hc.
    destruct (List.find _ metas) as [featured|]; [|destruct Hc].
    destruct (featuredImageUrl env vehicleId featured); [|destruct Hc].
    by destruct Hc as [<-|[]].
Qed.

(** A request that passes every check runs the lookup, the insert and
    the image step, in this order, and is redirected. *)
Lemma action_at_reconcile env request vehicleId vehicleUuid metas dels :
  reachesReconcile env request vehicleId vehicleUuid metas dels ->
  exists auth_id row,
    vehiculosInsert env row = inr (vehicleId, vehicleUuid)
    /\ action env request
       = ((Main, UsersSelectUuid auth_id) :: (Main, VehiculosInsert row)
            :: fst (reconcile env vehicleId vehicleUuid (req_formData request) metas dels),
          Redirect "/vehiculos").
Proof.
  intros (Hclear & Hdealer & Huser & user_id & Hrow & Hne & Hvalid & Hmetas & Hdels & Hins).
  exists (default "" (session_user_id (req_session request))).
  exists (vehicleRow (req_formData request)
            (default "" (session_concesionario_id (req_session request))) user_id).
  split; [exact Hins|].
  unfold action, isClearFetcher in *. apply not_true_is_false in Hclear. rewrite Hclear.
  unfold actionBody. rewrite Hdealer, Huser. cbn [negb orb].
  unfold bind at 1. unfold call at 1. rewrite Hrow.
  apply String.eqb_neq in Hne. rewrite Hne, Hvalid. unfold bind at 1.
  rewrite bool_decide_eq_true_2 by done. cbn [negb].
  rewrite Hmetas. unfold bind at 1. rewrite Hdels. unfold bind at 1.
  unfold bind at 1. unfold call at 1. rewrite Hins.
  rewrite reconcile_unfold. reflexivity.
Qed.

(** X8: [action] touches the images, the bucket or the cover of the
    vehicle only after the lookup of the user and the insert of the
    vehicle row, which returned its ids: any other call comes later in
    the list of calls than these two.  It answers with a redirect,
    always to [/vehiculos], only in such a run.  And such runs exist: a
    request that passes every check makes the lookup, the insert and
    then all the calls of the image step, and is redirected. *)
Theorem image_calls_follow_vehicle_insert env request :
  (forall c, In c (fst (action env request)) ->
     (forall auth_id, snd c <> UsersSelectUuid auth_id) ->
     (forall row, snd c <> VehiculosInsert row) ->
     exists auth_id row vehicleId vehicleUuid rest,
       vehiculosInsert env row = inr (vehicleId, vehicleUuid)
       /\ fst (action env request)
          = (Main, UsersSelectUuid auth_id) :: (Main, VehiculosInsert row) :: rest
       /\ In c rest)
  /\ (forall url, snd (action env request) = Redirect url ->
        url = "/vehiculos"
        /\ exists auth_id row vehicleId vehicleUuid rest,
             vehiculosInsert env row = inr (vehicleId, vehicleUuid)
             /\ fst (action env request)
                = (Main, UsersSelectUuid auth_id) :: (Main, VehiculosInsert row) :: rest)
  /\ (forall vehicleId vehicleUuid metas dels,
        reachesReconcile env request vehicleId vehicleUuid metas dels ->
        exists auth_id row,
          vehiculosInsert env row = inr (vehicleId, vehicleUuid)
          /\ action env request
             = ((Main, UsersSelectUuid auth_id) :: (Main, VehiculosInsert row)
                  :: fst (reconcile env vehicleId vehicleUuid (req_formData request)
                            metas dels),
                Redirect "/vehiculos")).
Proof.
  split; [|split; [|apply action_at_reconcile]];
    destruct (action_calls env request)
      as [(Hcalls & Hresp)|[(a & Hcalls & Hresp)|[(a & row & e & Hins & Hact)
         |(a & row & vid & vuuid & metas & dels & Hins & _ & Hact)]]].
  - intros c Hc. by rewrite Hcalls in Hc.
  - intros c Hc Hlookup _. rewrite Hcalls in Hc. destruct Hc as [<-|[]].
    by destruct (Hlookup a).
  - rewrite Hact. cbn [fst snd].
    intros c [<-|[<-|[]]] Hlookup Hinsert;
      [by destruct (Hlookup a) | by destruct (Hinsert row)].
  - rewrite Hact. cbn [fst snd]. intros c Hc Hlookup Hinsert.
    exists a, row, vid, vuuid. eexists. split; [done|]. split; [reflexivity|].
    destruct Hc as [<-|[<-|Hc]];
      [by destruct (Hlookup a) | by destruct (Hinsert row) | done].
  - intros url Hurl. by destruct (Hresp url).
  - intros url Hurl. by destruct (Hresp url).
  - rewrite Hact. cbn [fst snd]. done.
  - rewrite Hact. cbn [fst snd]. intros url Hurl. injection Hurl as <-.
    split; [done|]. exists a, row, vid, vuuid. eexists. by split.
Qed.

Lemma image_calls_witness :
  In (UploadOf metaA, StorageUpload "7/uuid-a" fileA)
     (fst (action calmEnv sampleRequest))
  /\ snd (action calmEnv sampleRequest) = Redirect "/vehiculos".
Proof.
  destruct (image_calls_follow_vehicle_insert calmEnv sampleRequest) as (_ & _ & Hreach).
  destruct (Hreach 7 "veh-uuid" [metaA; metaB; metaLost; metaOld] [deletion40])
    as (auth_id & row & _ & Haction).
  - split; [vm_compute; discriminate|].
    split; [reflexivity|]. split; [reflexivity|].
    exists "user-uuid". repeat split; try reflexivity. discriminate.
  - rewrite Haction. split; [|reflexivity].
    right. right. vm_compute. right. left. reflexivity.
Defined.

(** X9: when the insert of the vehicle fails, the answer is status 500
    with the message of that error and the insert is the last call: no
    image is uploaded, inserted, updated or deleted and no cover is
    written. *)
Theorem failed_vehicle_insert_stops_everything env request row error :
  In (Main, VehiculosInsert row) (fst (action env request)) ->
  vehiculosInsert env row = inl error ->
  snd (action env request) = JsonError error 500
  /\ exists auth_id,
       fst (action env request)
       = [(Main, UsersSelectUuid auth_id); (Main, VehiculosInsert row)].
Proof.
  intros Hin Hfail.
  destruct (action_calls env request)
    as [(Hcalls & _)|[(a & Hcalls & _)|[(a & row' & e & Hins & Hact)
       |(a & row' & vid & vuuid & metas & dels & Hins & _ & Hact)]]].
  - by rewrite Hcalls in Hin.
  - rewrite Hcalls in Hin. by destruct Hin as [Hin|[]].
  - rewrite Hact in *. cbn [fst snd] in *.
    destruct Hin as [Hin|[Hin|[]]]; [done|]. injection Hin as ->.
    rewrite Hfail in Hins. injection Hins as ->. split; [done|]. by exists a.
  - rewrite Hact in Hin. cbn [fst] in Hin.
    destruct Hin as [Hin|[Hin|Hin]]; [done| |].
    + injection Hin as ->. congruence.
    + apply reconcile_call_kinds in Hin as [_ Hno]. by destruct (Hno row).
Qed.

Lemma failed_vehicle_insert_witness :
  snd (action Scenarios.brokenInsertEnv sampleRequest)
  = JsonError "duplicate key value" 500.
Proof.
  destruct (failed_vehicle_insert_stops_everything Scenarios.brokenInsertEnv
              sampleRequest (vehicleRow sampleForm "dealer-1" "user-uuid")
              "duplicate key value") as (Hanswer & _);
    [vm_compute; right; left; reflexivity | reflexivity | exact Hanswer].
Defined.

(** X10: when one of the two lists does not decode, a signed-in request
    with valid fields is answered with status 500 after the lookup of
    the user alone: the vehicle row is not inserted. *)
Theorem undecodable_lists_stop_before_insert env request :
  authenticated env request -> ~ isClearFetcher request ->
  validate (req_formData request) = ([], Fulfilled ∅) ->
  (jsonText (formData_get "orderedImagesMetadata" (req_formData request)) <> "[]"
   /\ decodeMetadata env
        (jsonText (formData_get "orderedImagesMetadata" (req_formData request))) = None)
  \/ (jsonText (formData_get "imageIdsToDelete" (req_formData request)) <> "[]"
      /\ decodeDeletions env
           (jsonText (formData_get "imageIdsToDelete" (req_formData request))) = None) ->
  exists message,
    action env request
    = ([(Main, UsersSelectUuid (default "" (session_user_id (req_session request))))],
       JsonError message 500).
Proof.
  intros (Hdealer & Huser & user_id & Hrow & Hne) Hclear Hvalid Hbad.
  unfold action, isClearFetcher in *. apply not_true_is_false in Hclear. rewrite Hclear.
  unfold actionBody. rewrite Hdealer, Huser. cbn [negb orb].
  unfold bind at 1. unfold call at 1. rewrite Hrow.
  apply String.eqb_neq in Hne. rewrite Hne, Hvalid. unfold bind at 1.
  rewrite bool_decide_eq_true_2 by done. cbn [negb].
  assert (Hreject : forall {A} (decode : string -> option (list A)) text,
    text <> "[]" -> decode text = None ->
    parseJson decode text = ([], Rejected "Unexpected token in JSON")).
  { intros A decode text Htext Hnone. unfold parseJson.
    apply String.eqb_neq in Htext. by rewrite Htext, Hnone. }
  destruct Hbad as [[Htext Hnone]|[Htext Hnone]].
  - rewrite (Hreject _ _ _ Htext Hnone). by eexists.
  - rewrite (Hreject _ (decodeDeletions env) _ Htext Hnone).
    destruct (parseJson_outcome (decodeMetadata env)
                (jsonText (formData_get "orderedImagesMetadata" (req_formData request))))
      as [(metas & ->)|(_ & _ & ->)]; by eexists.
Qed.

Lemma undecodable_lists_witness :
  exists message,
    action calmEnv Scenarios.garbledRequest
    = ([(Main, UsersSelectUuid "auth-1")], JsonError message 500).
Proof.
  apply (undecodable_lists_stop_before_insert calmEnv Scenarios.garbledRequest).
  - split; [reflexivity|]. split; [reflexivity|].
    exists "user-uuid". split; [reflexivity|discriminate].
  - vm_compute. discriminate.
  - reflexivity.
  - left. split; [vm_compute; discriminate | reflexivity].
Defined.

(** *** One upload *)

(** X11: a row of [images] is inserted by an upload promise only after
    the bucket was listed and found and the file was stored without
    error, and the row then carries the public address of that very
    object, the order index and the flag of the entry as text; the
    promise fulfils exactly when the insert reports no error. *)
Theorem row_inserted_only_after_upload
    env vehicleId vehicleUuid formData (meta : ImageMetadata) (row : ImageRow) :
  In (UploadOf meta, ImagesInsert row)
     (fst (uploadImage env vehicleId vehicleUuid formData meta)) ->
  exists file buckets,
    formData_get (meta_storage_id meta) formData = Some (Blob file)
    /\ listBuckets env meta = inr buckets /\ In "imagen-vehiculo" buckets
    /\ storageUpload env meta (storagePathOf vehicleId (meta_storage_id meta)) file = None
    /\ fst (uploadImage env vehicleId vehicleUuid formData meta)
       = [ (UploadOf meta, StorageListBuckets);
           (UploadOf meta,
            StorageUpload (storagePathOf vehicleId (meta_storage_id meta)) file);
           (UploadOf meta, ImagesInsert row) ]
    /\ row = {| irow_vehicle_id := vehicleUuid;
                irow_url :=
                  getPublicUrl env (storagePathOf vehicleId (meta_storage_id meta));
                irow_order_index := numberToString (meta_order_index meta);
                irow_storage_id := meta_storage_id meta;
                irow_destacada := boolToText (meta_destacada meta);
                irow_id_v := numberToString vehicleId |}
    /\ snd (uploadImage env vehicleId vehicleUuid formData meta)
       = match imagesInsert env meta row with
         | Some e => Rejected e
         | None => Fulfilled InsertResult
         end.
Proof.
  unfold uploadImage.
  destruct (formData_get (meta_storage_id meta) formData) as [[s|file]|]; try done.
  unfold bind, call.
  destruct (listBuckets env meta) as [e|buckets] eqn:Hbuckets; cbn;
    [by intros [?|[]]|].
  destruct (existsb _ buckets) eqn:Hfound; cbn; [|by intros [?|[]]].
  destruct (storageUpload env meta _ file) eqn:Hupload; cbn;
    [by intros [?|[?|[]]]|].
  assert (Hin : In "imagen-vehiculo" buckets).
  { apply existsb_exists in Hfound as (name & Hname & Heq).
    apply String.eqb_eq in Heq. by subst. }
  destruct (imagesInsert env meta _) eqn:Hinsert; cbn;
    intros [?|[?|[Hrow|[]]]]; try done; injection Hrow as <-;
    exists file, buckets; rewrite Hinsert; by repeat split.
Qed.

Lemma row_inserted_witness :
  formData_get "uuid-a" sampleForm = Some (Blob fileA)
  /\ snd (uploadImage calmEnv 7 "veh-uuid" sampleForm metaA) = Fulfilled InsertResult.
Proof.
  destruct (row_inserted_only_after_upload calmEnv 7 "veh-uuid" sampleForm metaA
              Scenarios.rowA)
    as (file & buckets & Hfile & _ & _ & _ & _ & _ & Houtcome);
    [vm_compute; right; right; left; reflexivity|].
  split; [reflexivity | exact Houtcome].
Defined.

(** X12: the image step stores a file or inserts a row of [images] only
    for an entry of the metadata that is new and whose file came with
    the form; entries of persisted images and deletions never cause
    either. *)
Theorem uploads_only_for_new_entries_with_file
    env vehicleId vehicleUuid formData metas dels (c : Call) :
  In c (fst (reconcile env vehicleId vehicleUuid formData metas dels)) ->
  (exists path file, snd c = StorageUpload path file)
  \/ (exists row, snd c = ImagesInsert row) ->
  exists meta file,
    In meta metas /\ meta_isNew meta = true
    /\ formData_get (meta_storage_id meta) formData = Some (Blob file)
    /\ fst c = UploadOf meta
    /\ (snd c = StorageUpload (storagePathOf vehicleId (meta_storage_id meta)) file
        \/ exists row, snd c = ImagesInsert row
                       /\ irow_storage_id row = meta_storage_id meta).
Proof.
  intros Hc Hkind. rewrite reconcile_unfold in Hc. cbn [fst] in Hc.
  apply in_app_iff in Hc as [Hc|Hc].
  - apply promise_calls in Hc
      as [(meta & Hmeta & Hnew & Hc)|[(meta & _ & _ & Hc)|(d & _ & Hc)]].
    + pose proof (uploadImage_calls _ _ _ _ _ _ Hc) as (Ho & Hk).
      assert (Hfile : exists file,
        formData_get (meta_storage_id meta) formData = Some (Blob file)).
      { unfold uploadImage in Hc.
        destruct (formData_get (meta_storage_id meta) formData) as [[s|file]|];
          try done. by exists file. }
      destruct Hfile as (file & Hfile). exists meta, file.
      repeat split; try done.
      destruct Hk as [Hk|[(file' & Hfile' & Hk)|(row & Hk & Hrow)]].
      * rewrite Hk in Hkind. by destruct Hkind as [(? & ? & ?)|(? & ?)].
      * left. rewrite Hfile in Hfile'. by injection Hfile' as <-.
      * right. by exists row.
    + rewrite updateOrder_unfold in Hc. destruct Hc as [<-|[]].
      by destruct Hkind as [(? & ? & ?)|(? & ?)].
    + rewrite deleteImage_unfold in Hc.
      destruct Hc as [<-|[<-|[]]]; by destruct Hkind as [(? & ? & ?)|(? & ?)].
  - rewrite updateUrlImg_calls in Hc.
    destruct (List.find _ metas) as [featured|]; [|destruct Hc].
    destruct (featuredImageUrl env vehicleId featured); [|destruct Hc].
    destruct Hc as [<-|[]]. by destruct Hkind as [(? & ? & ?)|(? & ?)].
Qed.

Lemma uploads_only_witness :
  exists meta file,
    In meta [metaA; metaB; metaLost; metaOld] /\ meta_isNew meta = true
    /\ formData_get (meta_storage_id meta) sampleForm = Some (Blob file).
Proof.
  destruct (uploads_only_for_new_entries_with_file calmEnv 7 "veh-uuid" sampleForm
              [metaA; metaB; metaLost; metaOld] [deletion40]
              (UploadOf metaA, StorageUpload "7/uuid-a" fileA))
    as (meta & file & Hmeta & Hnew & Hfile & _).
  - vm_compute. right. left. reflexivity.
  - left. exists "7/uuid-a", fileA. reflexivity.
  - exists meta, file. split; [exact Hmeta|]. split; [exact Hnew | exact Hfile].
Defined.

End HandlerProperties.

(** * Blank text *)

Section BlankText.
Import Server.

(** *** Blank text *)

Lemma skipWhiteSpace_empty (s : string) :
  skipWhiteSpace s = "" <-> allChars isWhiteSpace s = true.
Proof.
  induction s as [|c s IH]; [done|]. cbn.
  destruct (isWhiteSpace c); [done|]. split; discriminate.
Qed.

Lemma skipWhiteSpace_blank_result (s : string) :
  allChars isWhiteSpace (skipWhiteSpace s) = true -> skipWhiteSpace s = "".
Proof.
  induction s as [|c s IH]; [done|]. cbn.
  destruct (isWhiteSpace c) eqn:Hc; [done|]. cbn. by rewrite Hc.
Qed.

Lemma allChars_rev_app (p : ascii -> bool) (s1 s2 : string) :
  allChars p (String.rev_app s1 s2) = allChars p s1 && allChars p s2.
Proof.
  revert s2. induction s1 as [|c s1 IH]; intros s2; [done|].
  cbn. rewrite IH. cbn. by destruct (p c), (allChars p s1), (allChars p s2).
Qed.

Lemma rev_empty (s : string) : String.rev s = "" <-> s = "".
Proof.
  split; [|by intros ->]. unfold String.rev.
  assert (Hgen : forall s1 s2, String.rev_app s1 s2 = "" -> s1 = "" /\ s2 = "").
  { induction s1 as [|c s1 IH]; intros s2 H; [done|].
    cbn in H. by destruct (IH _ H). }
  intros H. by destruct (Hgen _ _ H).
Qed.

Lemma trim_blank (s : string) : String.eqb (trim s) "" = allChars isWhiteSpace s.
Proof.
  destruct (allChars isWhiteSpace s) eqn:Hblank.
  - apply String.eqb_eq. apply skipWhiteSpace_empty in Hblank.
    unfold trim, trimEnd, trimStart. by rewrite Hblank.
  - apply String.eqb_neq. intros Hempty. apply not_true_iff_false in Hblank.
    apply Hblank. unfold trim, trimEnd, trimStart in Hempty.
    apply rev_empty, skipWhiteSpace_empty in Hempty.
    unfold String.rev in Hempty. rewrite allChars_rev_app, andb_true_r in Hempty.
    by apply skipWhiteSpace_empty, skipWhiteSpace_blank_result.
Qed.

(** X23: trimming leaves nothing exactly when the text has white space
    only (or is empty), so a [placa] is reported as required exactly
    when it is absent or blank, and otherwise let through. *)
Theorem blank_placa_is_missing (s : string) (formData : FormData) :
  formData_get "placa" formData = Some (Str s) ->
  String.eqb (trim s) "" = allChars isWhiteSpace s
  /\ isMissing formData ("placa", PlacaField) = allChars isWhiteSpace s
  /\ fst (requirePlaca formData ∅) = []
  /\ snd (requirePlaca formData ∅)
     = Fulfilled (if allChars isWhiteSpace s
                  then {["placa" := "Placa es requerida"]} else ∅).
Proof.
  intros Hplaca. pose proof (trim_blank s) as Htrim.
  split; [done|]. unfold isMissing, requirePlaca. cbn [fst snd].
  rewrite Hplaca, Htrim. by destruct (allChars isWhiteSpace s).
Qed.

Lemma blank_placa_witness :
  isMissing [("placa", Str "  ")] ("placa", PlacaField) = true.
Proof.
  destruct (blank_placa_is_missing "  " [("placa", Str "  ")]) as (_ & Hmissing & _);
    [reflexivity | exact Hmissing].
Defined.

(** *** The checks as a whole *)

Lemma falsy_false_iff (v : option FormDataEntryValue) :
  falsy v = false <-> exists w, v = Some w /\ w <> Str "".
Proof.
  destruct v as [[s|f]|]; cbn.
  - rewrite String.eqb_neq. split.
    + intros Hs. exists (Str s). split; [done|]. by intros [= ->].
    + intros (w & [= <-] & Hw) ->. by apply Hw.
  - split; [|done]. intros _. by exists (Blob f).
  - split; [done|]. by intros (w & Hw & _).
Qed.

Lemma notANumber_false_iff (v : option FormDataEntryValue) :
  notANumber v = false
  <-> exists s, v = Some (Str s) /\ s <> "" /\ isNaN_Number s = false.
Proof.
  destruct v as [[s|f]|]; cbn.
  - rewrite orb_false_iff, String.eqb_neq. split.
    + intros [Hs Hn]. by exists s.
    + by intros (s' & [= <-] & Hs & Hn).
  - split; [done|]. by intros (s & Hs & _).
  - split; [done|]. by intros (s & Hs & _).
Qed.

Lemma placa_present_iff (formData : FormData) :
  isMissing formData ("placa", PlacaField) = false /\ ~ placaIsFile formData
  <-> exists s, formData_get "placa" formData = Some (Str s)
                /\ allChars isWhiteSpace s = false.
Proof.
  unfold isMissing, placaIsFile. cbn [fst snd].
  destruct (formData_get "placa" formData) as [[s|f]|].
  - rewrite trim_blank. split.
    + intros [Hs _]. by exists s.
    + intros (s' & [= <-] & Hs). split; [done|]. by intros [f Hf].
  - split.
    + intros [_ Hnot]. destruct Hnot. by exists f.
    + by intros (s & Hs & _).
  - split; [by intros [H _]|]. by intros (s & Hs & _).
Qed.

(** X6: the checks of the handler let a form through, with no error at
    all, exactly when each of the eight text fields is present and not
    the empty text, each of the five numeric fields is a text that is
    not empty and that [Number] does not turn into [NaN], and [placa] is
    a text with a character that is not white space.  A file sent as
    [placa] makes the check throw.  No store is called. *)
Theorem validate_passes_iff_nothing_missing (formData : FormData) :
  (validate formData = ([], Fulfilled ∅)
   <-> (forall name,
          In name [ "marca"; "modelo"; "version"; "combustible"; "color";
                    "transmision"; "carroceria"; "traccion" ] ->
          exists value, formData_get name formData = Some value /\ value <> Str "")
       /\ (forall name,
             In name [ "anio"; "puertas"; "km"; "precio"; "cilindraje" ] ->
             exists s, formData_get name formData = Some (Str s)
                       /\ s <> "" /\ isNaN_Number s = false)
       /\ (exists s, formData_get "placa" formData = Some (Str s)
                     /\ allChars isWhiteSpace s = false))
  /\ (placaIsFile formData ->
      validate formData = ([], Rejected "placa?.trim is not a function"))
  /\ fst (validate formData) = [].
Proof.
  split; [|split].
  - rewrite validate_passes_iff. unfold anyMissing, requiredFields.
    cbn [existsb]. rewrite !orb_false_iff. unfold isMissing at 1 2 3 4 5 6 7.
    unfold isMissing at 2 3 4 5 6 7. cbn [fst snd].
    rewrite !falsy_false_iff, !notANumber_false_iff.
    rewrite <- placa_present_iff.
    split.
    + intros [(Hmarca & Hmodelo & Hanio & Hversion & Hpuertas & Hcomb & Hcolor & Hplaca
               & Hkm & Hprecio & Htrans & Hcarr & Htrac & Hcil & _) Hfile].
      split; [|split; [|by split]].
      * intros name Hin. repeat (destruct Hin as [<-|Hin]; [done|]). destruct Hin.
      * intros name Hin. repeat (destruct Hin as [<-|Hin]; [done|]). destruct Hin.
    + intros (Htext & Hnumber & Hplaca & Hfile).
      split; [|done].
      repeat split; try done;
        first [ apply Htext; cbn; tauto | apply Hnumber; cbn; tauto ].
  - intros Hfile. destruct (validate_outcome formData) as [[_ Hv]|[Hnot _]]; [done|].
    by destruct Hnot.
  - destruct (validate_outcome formData) as [[_ Hv]|[_ (errors & Hv & _)]];
      by rewrite Hv.
Qed.

Lemma validate_passes_witness :
  validate Samples.vehicleFields = ([], Fulfilled ∅).
Proof.
  apply (validate_passes_iff_nothing_missing Samples.vehicleFields).
  split; [|split].
  - intros name Hin.
    repeat (destruct Hin as [<-|Hin];
            [eexists; split; [reflexivity|discriminate]|]).
    destruct Hin.
  - intros name Hin.
    repeat (destruct Hin as [<-|Hin];
            [eexists; split; [reflexivity|split; [discriminate|reflexivity]]|]).
    destruct Hin.
  - eexists. split; reflexivity.
Defined.

End BlankText.

(** * Properties of the loader *)

Section LoaderProperties.
Import Loader.

(** *** Sorting and removing duplicates *)

Lemma insertBy_Permutation {A} (positive : A -> A -> bool) a l :
  Permutation (a :: l) (insertBy positive a l).
Proof.
  induction l as [|b l IH]; [done|]. cbn.
  destruct (positive a b); [|done]. rewrite <- IH. apply perm_swap.
Qed.

Lemma sortBy_Permutation {A} (positive : A -> A -> bool) l :
  Permutation l (sortBy positive l).
Proof.
  induction l as [|a l IH]; [done|]. cbn.
  rewrite <- insertBy_Permutation. by constructor.
Qed.

Section Ordered.
Context {A : Type} (le : A -> A -> Prop) (positive : A -> A -> bool).
Hypothesis le_trans : forall a b c, le a b -> le b c -> le a c.
Hypothesis positive_false : forall a b, positive a b = false -> le a b.
Hypothesis positive_true : forall a b, positive a b = true -> le b a.

Lemma insertBy_sorted a l :
  StronglySorted le l -> StronglySorted le (insertBy positive a l).
Proof.
  intros Hs. induction Hs as [|b l Hs IH Hb]; cbn; [repeat constructor|].
  destruct (positive a b) eqn:Hab.
  - constructor; [done|]. rewrite <- insertBy_Permutation.
    constructor; [by apply positive_true | done].
  - constructor; [by constructor|]. constructor; [by apply positive_false|].
    eapply Forall_impl; [exact Hb|]. intros c Hc. cbn.
    eapply le_trans; [by apply positive_false | done].
Qed.

Lemma sortBy_sorted l : StronglySorted le (sortBy positive l).
Proof.
  induction l as [|a l IH]; [constructor|]. cbn. by apply insertBy_sorted.
Qed.
End Ordered.

Lemma unique_spec (values : list string) :
  NoDup (unique values) /\ forall v, In v (unique values) <-> In v values.
Proof.
  unfold unique.
  assert (Hgen : forall seen : list string, NoDup seen ->
    NoDup (fold_left (fun seen v =>
             if existsb (String.eqb v) seen then seen else seen ++ [v]) values seen)
    /\ forall v, In v (fold_left (fun seen v =>
             if existsb (String.eqb v) seen then seen else seen ++ [v]) values seen)
                 <-> In v seen \/ In v values).
  { induction values as [|x values IH]; intros seen Hnd; [cbn; tauto|].
    cbn [fold_left]. destruct (existsb (String.eqb x) seen) eqn:Hx.
    - destruct (IH seen Hnd) as [Hn Hin]. split; [done|]. intros v.
      rewrite Hin. cbn. apply existsb_exists in Hx as (y & Hy & Heq).
      apply String.eqb_eq in Heq. subst y. split; [tauto|].
      intros [?|[<-|?]]; tauto.
    - assert (Hnot : ~ In x seen).
      { intros Hin. apply not_true_iff_false in Hx. apply Hx, existsb_exists.
        exists x. split; [done|]. apply String.eqb_refl. }
      destruct (IH (seen ++ [x])) as [Hn Hin].
      { apply NoDup_app. repeat split; [done| |apply NoDup_singleton].
        intros y Hy Hy'. apply list_elem_of_singleton in Hy'. subst y.
        by apply Hnot, list_elem_of_In. }
      split; [done|]. intros v. rewrite Hin, in_app_iff. cbn. tauto. }
  destruct (Hgen [] (NoDup_nil_2 : NoDup (@nil string))) as [Hn Hin].
  split; [done|]. intros v. rewrite Hin. cbn. tauto.
Qed.

Lemma filterBoolean_In (values : list (option string)) (v : string) :
  In v (filterBoolean values) <-> In (Some v) values /\ v <> "".
Proof.
  unfold filterBoolean. rewrite <- list_elem_of_In, list_elem_of_omap. split.
  - intros ([s|] & Hs & Hv); [|done].
    destruct (String.eqb_spec s "") as [->|Hne]; [done|]. injection Hv as ->.
    split; [by apply list_elem_of_In|done].
  - intros [Hin Hne]. exists (Some v). split; [by apply list_elem_of_In|].
    apply String.eqb_neq in Hne. by rewrite Hne.
Qed.

(** Strings in the order of their code units. *)
Lemma ascii_compare_refl (a : ascii) : Ascii.compare a a = Eq.
Proof. unfold Ascii.compare. apply N.compare_refl. Qed.

Lemma string_leb_trans (s1 s2 s3 : string) :
  String.leb s1 s2 = true -> String.leb s2 s3 = true -> String.leb s1 s3 = true.
Proof.
  unfold String.leb. revert s2 s3.
  induction s1 as [|a s1 IH]; intros [|b s2] [|c s3]; cbn; try done.
  unfold Ascii.compare.
  destruct (N.compare_spec (N_of_ascii a) (N_of_ascii b)) as [Hab|Hab|Hab];
    destruct (N.compare_spec (N_of_ascii b) (N_of_ascii c)) as [Hbc|Hbc|Hbc];
    destruct (N.compare_spec (N_of_ascii a) (N_of_ascii c)) as [Hac|Hac|Hac];
    try done; try (exfalso; lia).
  apply IH.
Qed.

Lemma string_ltb_leb (a b : string) : String.ltb b a = negb (String.leb a b).
Proof.
  unfold String.ltb, String.leb. rewrite (String.compare_antisym a b).
  by destruct (String.compare b a).
Qed.

Lemma sortStrings_sorted (l : list string) :
  StronglySorted (fun a b => String.leb a b = true) (sortStrings l).
Proof.
  apply sortBy_sorted.
  - intros a b c. apply string_leb_trans.
  - intros a b. rewrite string_ltb_leb. by intros ->%negb_false_iff.
  - intros a b. rewrite string_ltb_leb. intros Hab%negb_true_iff.
    destruct (String.leb_total a b) as [H|H]; [congruence|done].
Qed.


(** *** The lists of the selectors *)

(** X14: the values offered for a selector are those of the column that
    are neither [null] nor empty, each once, in the order of their code
    units. *)
Theorem getDistinctValues_lists_each_value_once
    (env : Env) (column : string) (filters : list Filter)
    (data : list (option string)) :
  selectColumn env column filters = inr data ->
  exists values, getDistinctValues env column filters = inr values
    /\ NoDup values
    /\ StronglySorted (fun a b => String.leb a b = true) values
    /\ forall v, In v values <-> In (Some v) data /\ v <> "".
Proof.
  intros Hdata. unfold getDistinctValues. rewrite Hdata. eexists. split; [done|].
  destruct (unique_spec (filterBoolean data)) as [Hnd Hin].
  split; [|split].
  - unfold sortStrings. by rewrite <- sortBy_Permutation.
  - apply sortStrings_sorted.
  - intros v. unfold sortStrings.
    rewrite <- (Permutation_in' (eq_refl v) (sortBy_Permutation _ _)).
    rewrite Hin. apply filterBoolean_In.
Qed.

Lemma getDistinctValues_witness :
  exists values,
    getDistinctValues Scenarios.catalog "modelo" [("marca", "Toyota")] = inr values
    /\ NoDup values.
Proof.
  destruct (getDistinctValues_lists_each_value_once Scenarios.catalog "modelo"
              [("marca", "Toyota")]
              [Some "Yaris"; None; Some "Corolla"; Some ""; Some "Yaris"])
    as (values & Hvalues & Hnd & _); [reflexivity|].
  exists values. split; [exact Hvalues | exact Hnd].
Defined.

(** X25: the brands offered are those of the view that are neither
    [null] nor empty, in the order of their code units; unlike the other
    selectors the list is not deduplicated: a brand the view lists twice
    is offered twice. *)
Theorem getMarcasUnicas_keeps_repeats (env : Env) (data : list (option string)) :
  selectMarcas env = inr data ->
  exists marcas, getMarcasUnicas env = inr marcas
    /\ Permutation marcas (filterBoolean data)
    /\ StronglySorted (fun a b => String.leb a b = true) marcas
    /\ (forall v, In v marcas <-> In (Some v) data /\ v <> "")
    /\ length marcas = length (filterBoolean data).
Proof.
  intros Hdata. unfold getMarcasUnicas. rewrite Hdata. eexists. split; [done|].
  assert (Hperm : Permutation (sortStrings (filterBoolean data)) (filterBoolean data)).
  { unfold sortStrings. symmetry. apply sortBy_Permutation. }
  split; [exact Hperm|]. split; [apply sortStrings_sorted|]. split.
  - intros v. rewrite (Permutation_in' (eq_refl v) Hperm). apply filterBoolean_In.
  - by apply Permutation_length.
Qed.

Lemma getMarcasUnicas_witness :
  exists marcas,
    getMarcasUnicas Scenarios.catalog = inr marcas
    /\ Permutation marcas ["Toyota"; "Mazda"; "Audi"].
Proof.
  destruct (getMarcasUnicas_keeps_repeats Scenarios.catalog
              [Some "Toyota"; Some "Mazda"; Some "Audi"])
    as (marcas & Hmarcas & Hperm & _); [reflexivity|].
  exists marcas. split; [exact Hmarcas | exact Hperm].
Defined.

Lemma firstFourDigits_shape (s year : string) :
  firstFourDigits s = Some year ->
  String.length year = 4%nat /\ allChars isDigit year = true
  /\ exists rest, s = year +:+ rest.
Proof.
  unfold firstFourDigits.
  destruct s as [|a [|b [|c [|d rest]]]]; try done.
  destruct (isDigit a) eqn:Ha; [|done]. destruct (isDigit b) eqn:Hb; [|done].
  destruct (isDigit c) eqn:Hc; [|done]. destruct (isDigit d) eqn:Hd; [|done].
  cbn. intros [= <-]. cbn. rewrite Ha, Hb, Hc, Hd. repeat split. by exists rest.
Qed.

(** X15: the years offered are the four leading digits of the dates
    that start with four digits, each once, the largest number first. *)
Theorem getDistinctYears_lists_years_descending
    (env : Env) (filters : list Filter) (data : list (option string)) :
  selectFechas env filters = inr data ->
  exists years, getDistinctYears env filters = inr years
    /\ NoDup years
    /\ StronglySorted (fun a b => digitsValue b <= digitsValue a) years
    /\ (forall year, In year years <->
          exists fecha, In (Some fecha) data /\ firstFourDigits fecha = Some year)
    /\ (forall year, In year years ->
          String.length year = 4%nat /\ allChars isDigit year = true).
Proof.
  intros Hdata. unfold getDistinctYears. rewrite Hdata. eexists. split; [done|].
  destruct (unique_spec (omap yearOf data)) as [Hnd Hin].
  assert (Hmem : forall year, In year (sortYears (unique (omap yearOf data))) <->
            exists fecha, In (Some fecha) data /\ firstFourDigits fecha = Some year).
  { intros year. unfold sortYears.
    rewrite <- (Permutation_in' (eq_refl year) (sortBy_Permutation _ _)).
    rewrite Hin, <- list_elem_of_In, list_elem_of_omap. split.
    - intros ([fecha|] & Hf & Hy); [|done]. exists fecha.
      split; [by apply list_elem_of_In|done].
    - intros (fecha & Hf & Hy). exists (Some fecha).
      split; [by apply list_elem_of_In|done]. }
  split; [|split; [|split]].
  - unfold sortYears. by rewrite <- sortBy_Permutation.
  - unfold sortYears. apply sortBy_sorted.
    + intros a b c. lia.
    + intros a b Hab. apply Z.ltb_ge in Hab. lia.
    + intros a b Hab. apply Z.ltb_lt in Hab. lia.
  - exact Hmem.
  - intros year Hyear. apply Hmem in Hyear as (fecha & _ & Hshape).
    apply firstFourDigits_shape in Hshape. tauto.
Qed.

Lemma getDistinctYears_witness :
  exists years,
    getDistinctYears Scenarios.catalog [] = inr years
    /\ StronglySorted (fun a b => digitsValue b <= digitsValue a) years.
Proof.
  destruct (getDistinctYears_lists_years_descending Scenarios.catalog []
              [Some "2019-05-05"; Some "2020-01-01"; None; Some "s/f"; Some "2020-07-01"])
    as (years & Hyears & _ & Hsorted & _); [reflexivity|].
  exists years. split; [exact Hyears | exact Hsorted].
Defined.

(** X16: the versions offered for a year are the versions, neither
    [null] nor empty, of the rows whose date starts with exactly that
    year, each once, in the order of their code units. *)
Theorem getVersionsByYear_keeps_the_year
    (env : Env) (marca modelo anio : string)
    (data : list (option string * option string)) :
  selectVersiones env marca modelo = inr data ->
  exists versiones, getVersionsByYear env marca modelo anio = inr versiones
    /\ NoDup versiones
    /\ StronglySorted (fun a b => String.leb a b = true) versiones
    /\ forall v, In v versiones <->
         v <> "" /\ exists fecha, In (Some v, fecha) data /\ yearOf fecha = Some anio.
Proof.
  intros Hdata. unfold getVersionsByYear. rewrite Hdata. eexists. split; [done|].
  set (rows := List.filter _ data).
  destruct (unique_spec (filterBoolean (map fst rows))) as [Hnd Hin].
  split; [|split].
  - unfold sortStrings. by rewrite <- sortBy_Permutation.
  - apply sortStrings_sorted.
  - intros v. unfold sortStrings.
    rewrite <- (Permutation_in' (eq_refl v) (sortBy_Permutation _ _)).
    rewrite Hin, filterBoolean_In, in_map_iff. split.
    + intros [([version fecha] & Hv & Hrow) Hne]. cbn in Hv. subst version.
      split; [done|]. exists fecha. apply filter_In in Hrow as [Hrow Hyear].
      split; [done|]. cbn in Hyear. destruct (yearOf fecha) as [year|]; [|done].
      apply String.eqb_eq in Hyear. by subst.
    + intros [Hne (fecha & Hrow & Hyear)]. split; [|done].
      exists (Some v, fecha). split; [done|]. apply filter_In. split; [done|].
      cbn. rewrite Hyear. apply String.eqb_refl.
Qed.

Lemma getVersionsByYear_witness :
  exists versiones,
    getVersionsByYear Scenarios.catalog "Toyota" "Corolla" "2020" = inr versiones
    /\ NoDup versiones.
Proof.
  destruct (getVersionsByYear_keeps_the_year Scenarios.catalog "Toyota" "Corolla" "2020"
              [ (Some "XEI", Some "2020-01-01"); (Some "SEG", Some "2019-03-01");
                (Some "XEI", Some "2020-02-01"); (None, Some "2020-03-01");
                (Some "GLI", None) ])
    as (versiones & Hversiones & Hnd & _); [reflexivity|].
  exists versiones. split; [exact Hversiones | exact Hnd].
Defined.

(** *** The cache *)

(** X17: after a load that fetched both lists at time [now], every
    first-load request that arrives less than five minutes later is
    answered with the same lists without a query, whatever the database
    would answer by then, and leaves the cache as it is. *)
Theorem loader_serves_from_fresh_cache
    (env env' : Env) (cache cache' : Cache) (now now' : Z) (params params' : Params)
    (marcas anios : list string) :
  loader env cache now params
    = ([SelectMarcas; SelectFechas []], MarcasAnios marcas anios, cache') ->
  wantsOptions params' = false ->
  now' - now < CACHE_DURATION ->
  loader env' cache' now' params' = ([], MarcasAnios marcas anios, cache').
Proof.
  intros Hfirst Hinitial Hsoon.
  assert (Hcache : cache' = {| cache_marcas := Some marcas; cache_anios := Some anios;
                               lastCacheTime := now |}).
  { unfold loader in Hfirst.
    destruct (paramIs _ "modelos" && _); [discriminate Hfirst|].
    destruct (paramIs _ "anios" && _ && _); [discriminate Hfirst|].
    destruct (paramIs _ "versiones" && _ && _ && _); [discriminate Hfirst|].
    assert (Hfresh :
      freshLoad env cache now
        = ([SelectMarcas; SelectFechas []], MarcasAnios marcas anios, cache') ->
      cache' = {| cache_marcas := Some marcas; cache_anios := Some anios;
                  lastCacheTime := now |}).
    { unfold freshLoad.
      destruct (getMarcasUnicas env), (getDistinctYears env []); intros [=]; by subst. }
    destruct (cache_marcas cache), (cache_anios cache),
      (now - lastCacheTime cache <? CACHE_DURATION)%Z;
      first [discriminate Hfirst | exact (Hfresh Hfirst)]. }
  subst cache'. unfold wantsOptions in Hinitial.
  apply orb_false_iff in Hinitial as [Hinitial Hversiones].
  apply orb_false_iff in Hinitial as [Hmodelos Hanios].
  unfold loader. rewrite Hmodelos, Hanios, Hversiones. cbn.
  apply Z.ltb_lt in Hsoon. by rewrite Hsoon.
Qed.

Lemma loader_cache_witness :
  loader Scenarios.offline Scenarios.warmCache 200000 Scenarios.firstLoad
  = ([], MarcasAnios ["Audi"; "Mazda"; "Toyota"] ["2020"; "2019"], Scenarios.warmCache).
Proof.
  apply (loader_serves_from_fresh_cache Scenarios.catalog Scenarios.offline
           emptyCache Scenarios.warmCache 1000 200000
           Scenarios.firstLoad Scenarios.firstLoad);
    [reflexivity | reflexivity | vm_compute; reflexivity].
Defined.

(** A request for the page itself that finds no fresh cache, while both
    queries succeed. *)
Lemma loader_first_load (env : Env) (cache : Cache) (now : Z) (params : Params)
    (dataMarcas dataFechas : list (option string)) :
  wantsOptions params = false ->
  cache_marcas cache = None \/ cache_anios cache = None
  \/ CACHE_DURATION <= now - lastCacheTime cache ->
  selectMarcas env = inr dataMarcas -> selectFechas env [] = inr dataFechas ->
  loader env cache now params
  = ( [SelectMarcas; SelectFechas []],
      MarcasAnios (sortStrings (filterBoolean dataMarcas))
                  (sortYears (unique (omap yearOf dataFechas))),
      {| cache_marcas := Some (sortStrings (filterBoolean dataMarcas));
         cache_anios := Some (sortYears (unique (omap yearOf dataFechas)));
         lastCacheTime := now |} ).
Proof.
  intros Hpage Hstale Hmarcas Hfechas. unfold wantsOptions in Hpage.
  apply orb_false_iff in Hpage as [Hpage Hversiones].
  apply orb_false_iff in Hpage as [Hmodelos Hanios].
  assert (Hfresh : freshLoad env cache now
    = ( [SelectMarcas; SelectFechas []],
        MarcasAnios (sortStrings (filterBoolean dataMarcas))
                    (sortYears (unique (omap yearOf dataFechas))),
        {| cache_marcas := Some (sortStrings (filterBoolean dataMarcas));
           cache_anios := Some (sortYears (unique (omap yearOf dataFechas)));
           lastCacheTime := now |} )).
  { unfold freshLoad, getMarcasUnicas, getDistinctYears. by rewrite Hmarcas, Hfechas. }
  unfold loader. rewrite Hmodelos, Hanios, Hversiones.
  destruct (cache_marcas cache) as [m|]; [|exact Hfresh].
  destruct (cache_anios cache) as [a|]; [|exact Hfresh].
  destruct (now - lastCacheTime cache <? CACHE_DURATION)%Z eqn:Hsoon; [|exact Hfresh].
  apply Z.ltb_lt in Hsoon. destruct Hstale as [Hn|[Hn|Hlate]]; [done|done|lia].
Qed.

(** X18: a request for the page itself that finds no fresh cache --
    none stored, or one at least five minutes old -- while both queries
    succeed, is answered with the sorted brands and years just fetched,
    and the cache then holds exactly these two lists, stamped with the
    time of the request.  In no other case does the loader change the
    cache.  A failure is answered with status 500, a message that is
    not empty, and the cached lists (or empty lists when there are
    none). *)
Theorem loader_writes_cache_only_on_success
    (env : Env) (cache : Cache) (now : Z) (params : Params) :
  (forall dataMarcas dataFechas,
     wantsOptions params = false ->
     cache_marcas cache = None \/ cache_anios cache = None
     \/ CACHE_DURATION <= now - lastCacheTime cache ->
     selectMarcas env = inr dataMarcas -> selectFechas env [] = inr dataFechas ->
     loader env cache now params
     = ( [SelectMarcas; SelectFechas []],
         MarcasAnios (sortStrings (filterBoolean dataMarcas))
                     (sortYears (unique (omap yearOf dataFechas))),
         {| cache_marcas := Some (sortStrings (filterBoolean dataMarcas));
            cache_anios := Some (sortYears (unique (omap yearOf dataFechas)));
            lastCacheTime := now |} ))
  /\ (snd (loader env cache now params) = cache
   \/ exists marcas anios,
        loader env cache now params
        = ([SelectMarcas; SelectFechas []], MarcasAnios marcas anios,
           {| cache_marcas := Some marcas; cache_anios := Some anios;
              lastCacheTime := now |})
        /\ wantsOptions params = false)
  /\ (forall marcas anios error status,
        snd (fst (loader env cache now params)) = Failure marcas anios error status ->
        status = 500 /\ error <> ""
        /\ marcas = default [] (cache_marcas cache)
        /\ anios = default [] (cache_anios cache)
        /\ snd (loader env cache now params) = cache).
Proof.
  split; [apply loader_first_load|].
  assert (Hfailure : forall error marcas anios message status,
    failure cache error = Failure marcas anios message status ->
    status = 500 /\ message <> ""
    /\ marcas = default [] (cache_marcas cache)
    /\ anios = default [] (cache_anios cache)).
  { unfold failure. intros error marcas anios message status [= <- <- <- <-].
    repeat split; try done.
    destruct (String.eqb_spec error "") as [->|Hne]; done. }
  assert (Hfresh :
    (snd (freshLoad env cache now) = cache
     \/ exists marcas anios,
          freshLoad env cache now
          = ([SelectMarcas; SelectFechas []], MarcasAnios marcas anios,
             {| cache_marcas := Some marcas; cache_anios := Some anios;
                lastCacheTime := now |}))
    /\ (forall marcas anios error status,
          snd (fst (freshLoad env cache now)) = Failure marcas anios error status ->
          status = 500 /\ error <> ""
          /\ marcas = default [] (cache_marcas cache)
          /\ anios = default [] (cache_anios cache)
          /\ snd (freshLoad env cache now) = cache)).
  { unfold freshLoad.
    destruct (getMarcasUnicas env) as [e1|marcas], (getDistinctYears env []) as [e2|anios];
      cbn; (split; [first [by left | right; by do 2 eexists]|]);
      intros ? ? ? ? Hf; try discriminate Hf;
      apply Hfailure in Hf; tauto. }
  unfold loader, wantsOptions.
  destruct (paramIs _ "modelos" && _).
  { cbn. split; [by left|]. destruct (getDistinctValues env _ _); cbn;
      intros ? ? ? ? Hf; try discriminate Hf; apply Hfailure in Hf; tauto. }
  destruct (paramIs _ "anios" && _ && _).
  { cbn. split; [by left|]. destruct (getDistinctYears env _); cbn;
      intros ? ? ? ? Hf; try discriminate Hf; apply Hfailure in Hf; tauto. }
  destruct (paramIs _ "versiones" && _ && _ && _).
  { cbn. split; [by left|]. destruct (getVersionsByYear env _ _ _); cbn;
      intros ? ? ? ? Hf; try discriminate Hf; apply Hfailure in Hf; tauto. }
  cbn [orb].
  destruct (cache_marcas cache) as [m|] eqn:Hm, (cache_anios cache) as [a|] eqn:Ha,
    (now - lastCacheTime cache <? CACHE_DURATION)%Z;
    try (cbn; split; [by left | intros ? ? ? ? Hf; discriminate Hf]);
    (destruct Hfresh as [[Hsame|(marcas & anios & Hload)] Hfail];
     split; [by left | exact Hfail | right; by exists marcas, anios | exact Hfail]).
Qed.

Lemma loader_writes_cache_witness :
  loader Scenarios.catalog emptyCache 1000 Scenarios.firstLoad
  = ( [SelectMarcas; SelectFechas []],
      MarcasAnios ["Audi"; "Mazda"; "Toyota"] ["2020"; "2019"],
      Scenarios.warmCache ).
Proof.
  destruct (loader_writes_cache_only_on_success Scenarios.catalog emptyCache 1000
              Scenarios.firstLoad) as (Hload & _).
  rewrite (Hload [Some "Toyota"; Some "Mazda"; Some "Audi"]
                 [Some "2019-05-05"; Some "2020-01-01"; None; Some "s/f";
                  Some "2020-07-01"]);
    [reflexivity | reflexivity | left; reflexivity | reflexivity | reflexivity].
Defined.

End LoaderProperties.
